(** * Deployment manager: blue-green switching, canary rollout, traffic routing

    A shallow embedding of [deployment-manager/main.py] (classes
    [HealthChecker], [TrafficRouter], [BlueGreenDeploymentManager] and
    [CanaryReleaseManager]) and the properties of its specification.

    Conventions of the embedding.
    - Python [float] is IEEE binary64: Rocq's primitive [float], with the
      same literals, operations and comparisons.
    - Python [int] is [Z]; a clock reading ([datetime.utcnow()]) is a number
      of whole seconds since the epoch, [N], the sub-second part dropped.
    - A Python [dict] is an insertion-ordered association list with unique
      keys ([PyDict]): iteration order is insertion order, and assigning to
      an existing key keeps its position.
    - An [async] method is the function it computes; every awaited
      [asyncio.sleep] is a no-op.  The places where the sample simulates a
      collaborator (probes, live metrics, the clock, the random draw) are
      inputs of the embedding; the constants the sample hard-codes there are
      given by [simulated_*] definitions.
    - A Python exception is a value of [exn]; a call that can raise returns
      [exn + _].
    - An f-string is kept as the list of its literal and formatted parts. *)

From Stdlib Require Import Floats ZArith String Ascii List Bool Lia Uint63.
From Stdlib Require Import Decimal DecimalString.
Import ListNotations.
Set Warnings "-inexact-float,-register-all".
Local Open Scope string_scope.
Local Open Scope list_scope.
Local Open Scope Z_scope.

(** ** Python values shared by the classes *)

Inductive exn : Type :=
| KeyError (key : string)
| ZeroDivisionError
| IndexError
| Exception (msg : string).

Definition str_exn (e : exn) : string :=
  match e with
  | KeyError k => k
  | ZeroDivisionError => "division by zero"
  | IndexError => "list index out of range"
  | Exception m => m
  end.

(** One part of an f-string: literal text, or a value with its format spec. *)
Inductive fpart : Type :=
| Lit (s : string)
| FmtFloat (spec : string) (x : float)
| FmtInt (z : Z).

Definition fstring := list fpart.

(** The loosely typed payloads the sample attaches for diagnostics. *)
Inductive pyval : Type :=
| PStr (s : string)
| PInt (z : Z)
| PFloat (x : float)
| PBool (b : bool)
| PList (l : list pyval)
| PDict (d : list (string * pyval)).

(** [int -> float], exact below 2^53 in absolute value (the counts and the
    second differences the sample divides). *)
Definition float_of_Z (z : Z) : float :=
  if z <? 0 then PrimFloat.opp (PrimFloat.of_uint63 (Uint63.of_Z (- z)))
  else PrimFloat.of_uint63 (Uint63.of_Z z).

(** Python's [a >= b] and [a > b] on floats. *)
Definition fgeb (a b : float) : bool := PrimFloat.leb b a.
Definition fgtb (a b : float) : bool := PrimFloat.ltb b a.

(** ** Insertion-ordered dictionaries *)

Module PyDict.

Definition dict (V : Type) : Type := list (string * V).

Definition empty {V : Type} : dict V := [].

(** [d.get(k)] *)
Fixpoint get {V : Type} (d : dict V) (k : string) : option V :=
  match d with
  | [] => None
  | (k', v) :: rest => if String.eqb k k' then Some v else get rest k
  end.

(** [k in d] *)
Definition mem {V : Type} (d : dict V) (k : string) : bool :=
  match get d k with Some _ => true | None => false end.

(** [d[k] = v] *)
Fixpoint set {V : Type} (d : dict V) (k : string) (v : V) : dict V :=
  match d with
  | [] => [(k, v)]
  | (k', v') :: rest =>
      if String.eqb k k' then (k', v) :: rest else (k', v') :: set rest k v
  end.

Definition keys {V : Type} (d : dict V) : list string := map fst d.

Definition values {V : Type} (d : dict V) : list V := map snd d.

(** A two-entry dict literal [{k1: v1, k2: v2}] (a repeated key keeps the
    last value). *)
Definition literal2 {V : Type} (k1 : string) (v1 : V) (k2 : string) (v2 : V)
  : dict V :=
  set (set empty k1 v1) k2 v2.

(** What every Python dict satisfies. *)
Definition wf {V : Type} (d : dict V) : Prop := NoDup (keys d).

End PyDict.

Abbreviation dict := PyDict.dict.

(** ** TrafficRouter *)

Record TrafficRouter : Type := mkTrafficRouter {
  routing_rules : dict (dict Z);
  request_counts : dict (dict Z)
}.

(** [TrafficRouter.__init__] *)
Definition TrafficRouter_init : TrafficRouter :=
  {| routing_rules := PyDict.empty; request_counts := PyDict.empty |}.

(** The loop [for variant in traffic_split.keys(): if variant not in
    counts: counts[variant] = 0]. *)
Definition init_counters (variants : list string) (counts : dict Z) : dict Z :=
  fold_left
    (fun c variant => if PyDict.mem c variant then c else PyDict.set c variant 0)
    variants counts.

Definition counts_of (r : TrafficRouter) (model_name : string) : dict Z :=
  match PyDict.get (request_counts r) model_name with
  | Some c => c
  | None => PyDict.empty
  end.

Definition update_traffic_split (model_name : string) (traffic_split : dict Z)
  (r : TrafficRouter) : TrafficRouter :=
  let rules := PyDict.set (routing_rules r) model_name traffic_split in
  let counts :=
    if PyDict.mem (request_counts r) model_name then request_counts r
    else PyDict.set (request_counts r) model_name PyDict.empty in
  let per_model :=
    match PyDict.get counts model_name with
    | Some c => c
    | None => PyDict.empty
    end in
  {| routing_rules := rules;
     request_counts :=
       PyDict.set counts model_name
         (init_counters (PyDict.keys traffic_split) per_model) |}.

(** The weighted walk of [route_request]: the first variant whose cumulative
    weight reaches the draw. *)
Fixpoint route_walk (items : dict Z) (random_value cumulative_weight : Z)
  : option string :=
  match items with
  | [] => None
  | (variant, weight) :: rest =>
      let cumulative_weight := cumulative_weight + weight in
      if random_value <=? cumulative_weight then Some variant
      else route_walk rest random_value cumulative_weight
  end.

(** [route_request], with the draw [random.randint(1, 100)] as an input. *)
Definition route_request (model_name : string) (random_value : Z)
  (r : TrafficRouter) : (exn + string) * TrafficRouter :=
  match PyDict.get (routing_rules r) model_name with
  | None => (inr "default", r)
  | Some [] => (inr "default", r)
  | Some routing_rule =>
      match route_walk routing_rule random_value 0 with
      | Some variant =>
          match PyDict.get (request_counts r) model_name with
          | None => (inl (KeyError model_name), r)
          | Some counts =>
              match PyDict.get counts variant with
              | None => (inl (KeyError variant), r)
              | Some n =>
                  (inr variant,
                   {| routing_rules := routing_rules r;
                      request_counts :=
                        PyDict.set (request_counts r) model_name
                          (PyDict.set counts variant (n + 1)) |})
              end
          end
      | None =>
          match PyDict.keys routing_rule with
          | k :: _ => (inr k, r)
          | [] => (inl IndexError, r)
          end
      end
  end.

Definition sumZ (l : list Z) : Z := fold_right Z.add 0 l.

Record variant_stats : Type := mkVariantStats {
  requests : Z;
  percentage : float
}.

(** The three shapes [get_traffic_stats] returns: [{}], [{"total_requests":
    0}], and the full statistics. *)
Inductive traffic_stats : Type :=
| StatsUnknown
| StatsNoRequests
| Stats (total_requests : Z) (distribution : dict variant_stats).

Definition get_traffic_stats (model_name : string) (r : TrafficRouter)
  : traffic_stats :=
  match PyDict.get (request_counts r) model_name with
  | None => StatsUnknown
  | Some counts =>
      let total_requests := sumZ (PyDict.values counts) in
      if total_requests =? 0 then StatsNoRequests
      else
        Stats total_requests
          (fold_left
             (fun distribution '(variant, count) =>
                PyDict.set distribution variant
                  {| requests := count;
                     percentage :=
                       (float_of_Z count / float_of_Z total_requests * 100)%float |})
             counts PyDict.empty)
  end.

Definition stats_total (s : traffic_stats) : Z :=
  match s with
  | StatsUnknown => 0
  | StatsNoRequests => 0
  | Stats total _ => total
  end.

(** Several [route_request] calls in a row, one draw each. *)
Fixpoint route_requests (model_name : string) (draws : list Z)
  (r : TrafficRouter) : TrafficRouter :=
  match draws with
  | [] => r
  | random_value :: rest =>
      route_requests model_name rest (snd (route_request model_name random_value r))
  end.

(** The weights of a split are non-negative and sum to exactly 100. *)
Definition valid_split (s : dict Z) : Prop :=
  Forall (fun w => 0 <= w) (PyDict.values s) /\ sumZ (PyDict.values s) = 100.

(** Every variant of every stored split has a request counter: what
    [update_traffic_split] establishes and [route_request] relies on. *)
Definition counters_ready (r : TrafficRouter) : Prop :=
  forall model_name split,
    PyDict.get (routing_rules r) model_name = Some split ->
    exists counts,
      PyDict.get (request_counts r) model_name = Some counts /\
      forall variant, In variant (PyDict.keys split) ->
        PyDict.mem counts variant = true.

(** ** Enumerations and records of the deployment model *)

Inductive DeploymentSlot : Type := BLUE | GREEN.

Definition slot_value (s : DeploymentSlot) : string :=
  match s with BLUE => "blue" | GREEN => "green" end.

Definition slot_eqb (a b : DeploymentSlot) : bool :=
  match a, b with
  | BLUE, BLUE | GREEN, GREEN => true
  | _, _ => false
  end.

Inductive DeploymentStatus : Type :=
| INACTIVE | STAGING | ACTIVE | TRANSITIONING | FAILED.

Definition status_eqb (a b : DeploymentStatus) : bool :=
  match a, b with
  | INACTIVE, INACTIVE | STAGING, STAGING | ACTIVE, ACTIVE
  | TRANSITIONING, TRANSITIONING | FAILED, FAILED => true
  | _, _ => false
  end.

Inductive CanaryStatus : Type := RUNNING | COMPLETED | ABORTED | PAUSED.

Definition canary_status_value (s : CanaryStatus) : string :=
  match s with
  | RUNNING => "running"
  | COMPLETED => "completed"
  | ABORTED => "aborted"
  | PAUSED => "paused"
  end.

Definition canary_status_eqb (a b : CanaryStatus) : bool :=
  match a, b with
  | RUNNING, RUNNING | COMPLETED, COMPLETED | ABORTED, ABORTED
  | PAUSED, PAUSED => true
  | _, _ => false
  end.

Module ModelDeployment.
Record t : Type := mk {
  deployment_id : string;
  model_name : string;
  model_version : string;
  slot : DeploymentSlot;
  status : DeploymentStatus;
  endpoint_url : string;
  created_at : N;
  last_health_check : option N;
  health_status : string;
  traffic_percentage : Z;
  performance_metrics : option (dict pyval)
}.

Definition with_status (s : DeploymentStatus) (d : t) : t :=
  mk (deployment_id d) (model_name d) (model_version d) (slot d) s
     (endpoint_url d) (created_at d) (last_health_check d) (health_status d)
     (traffic_percentage d) (performance_metrics d).

Definition with_traffic_percentage (p : Z) (d : t) : t :=
  mk (deployment_id d) (model_name d) (model_version d) (slot d) (status d)
     (endpoint_url d) (created_at d) (last_health_check d) (health_status d)
     p (performance_metrics d).

Definition with_endpoint_url (u : string) (d : t) : t :=
  mk (deployment_id d) (model_name d) (model_version d) (slot d) (status d)
     u (created_at d) (last_health_check d) (health_status d)
     (traffic_percentage d) (performance_metrics d).

Definition with_health (checked : N) (label : string) (d : t) : t :=
  mk (deployment_id d) (model_name d) (model_version d) (slot d) (status d)
     (endpoint_url d) (created_at d) (Some checked) label
     (traffic_percentage d) (performance_metrics d).

Definition with_performance_metrics (m : dict pyval) (d : t) : t :=
  mk (deployment_id d) (model_name d) (model_version d) (slot d) (status d)
     (endpoint_url d) (created_at d) (last_health_check d) (health_status d)
     (traffic_percentage d) (Some m).
End ModelDeployment.

Module CanaryConfiguration.
Record t : Type := mk {
  model_name : string;
  canary_version : string;
  baseline_version : string;
  canary_traffic_percentage : Z;
  success_criteria : dict float;
  rollout_duration_minutes : Z;
  evaluation_interval_minutes : Z;
  auto_promote : bool
}.
End CanaryConfiguration.

(** ** The collaborators the sample simulates

    Every reading the sample fakes with a constant or a sleep is a field
    here; [exn + _] readings are calls that may raise. *)

Record Collaborators : Type := mkCollaborators {
  (** [statistics.mean] of the standard library *)
  statistics_mean : list float -> float;
  (** the health call of [_validate_endpoint_connectivity] *)
  health_probe : exn + string;
  (** the model's answer to a test input, [_validate_model_response] *)
  model_call : string -> exn + string;
  (** the measured response time in ms of sample [i],
      [_validate_performance_metrics] *)
  latency_sample : nat -> exn + float;
  (** the schema comparison of [_validate_api_compatibility] *)
  compatibility_probe : exn + float;
  (** [_deploy_to_azure]: the provisioning call, [Some e] when it raises *)
  provisioning : option exn;
  (** the live error rate and mean latency read by [_monitor_traffic_shift]
      at a traffic step *)
  live_error_rate : Z -> float;
  live_avg_response_time : Z -> Z;
  (** [_get_version_metrics model_name version] *)
  version_metrics : string -> string -> dict float
}.

(** ** HealthChecker *)

Module CheckResult.
Record t : Type := mk {
  name : string;
  passed : bool;
  message : fstring;
  warnings : option (list fstring);
  details : option pyval
}.
End CheckResult.

Module ValidationResult.
Record t : Type := mk {
  deployment_id : string;
  passed : bool;
  checks : list CheckResult.t;
  errors : list fstring;
  warnings : list fstring
}.
End ValidationResult.

(** A validation rule: the check result it returns or the exception it lets
    escape, and the deployment object as it leaves it. *)
Definition rule : Type :=
  ModelDeployment.t -> (exn + CheckResult.t) * ModelDeployment.t.

(** One turn of the [for rule in self.validation_rules] loop, with its
    [try ... except Exception]. *)
Definition validate_step (acc : ValidationResult.t * ModelDeployment.t)
  (r : rule) : ValidationResult.t * ModelDeployment.t :=
  let '(vr, deployment) := acc in
  match r deployment with
  | (inr check_result, deployment') =>
      let checks' := ValidationResult.checks vr ++ [check_result] in
      let failed := negb (CheckResult.passed check_result) in
      let passed' := if failed then false else ValidationResult.passed vr in
      let errors' :=
        if failed
        then ValidationResult.errors vr ++ [CheckResult.message check_result]
        else ValidationResult.errors vr in
      let warnings' :=
        match CheckResult.warnings check_result with
        | Some (w :: ws) => ValidationResult.warnings vr ++ (w :: ws)
        | _ => ValidationResult.warnings vr
        end in
      (ValidationResult.mk (ValidationResult.deployment_id vr) passed' checks'
         errors' warnings', deployment')
  | (inl e, deployment') =>
      (ValidationResult.mk (ValidationResult.deployment_id vr) false
         (ValidationResult.checks vr)
         (ValidationResult.errors vr
            ++ [[Lit "Validation rule failed: "; Lit (str_exn e)]])
         (ValidationResult.warnings vr), deployment')
  end.

(** [validate_deployment] over a list of rules. *)
Definition validate_with (rules : list rule) (deployment : ModelDeployment.t)
  : ValidationResult.t * ModelDeployment.t :=
  fold_left validate_step rules
    (ValidationResult.mk (ModelDeployment.deployment_id deployment) true [] [] [],
     deployment).

Definition _validate_endpoint_connectivity (now : N) (env : Collaborators)
  : rule :=
  fun deployment =>
    match health_probe env with
    | inr health_status =>
        let deployment := ModelDeployment.with_health now health_status deployment in
        (inr (CheckResult.mk "endpoint_connectivity"
                (String.eqb health_status "healthy")
                [Lit "Endpoint health: "; Lit health_status]
                None
                (Some (PDict [("endpoint", PStr (ModelDeployment.endpoint_url deployment));
                              ("status", PStr health_status)]))),
         deployment)
    | inl e =>
        (inr (CheckResult.mk "endpoint_connectivity" false
                [Lit "Endpoint connectivity failed: "; Lit (str_exn e)]
                None None),
         deployment)
    end.

(** [str.lower] and [needle in hay] on ASCII strings. *)
Definition lower_ascii (c : ascii) : ascii :=
  let n := nat_of_ascii c in
  if (65 <=? n)%nat && (n <=? 90)%nat then ascii_of_nat (n + 32) else c.

Fixpoint lower (s : string) : string :=
  match s with
  | EmptyString => EmptyString
  | String c rest => String (lower_ascii c) (lower rest)
  end.

Fixpoint contains (needle hay : string) : bool :=
  String.prefix needle hay
  || match hay with
     | EmptyString => false
     | String _ rest => contains needle rest
     end.

Definition is_space (c : ascii) : bool :=
  let n := nat_of_ascii c in
  ((9 <=? n)%nat && (n <=? 13)%nat) || ((28 <=? n)%nat && (n <=? 32)%nat).

(** [s.strip() != ""]: some character is not white space. *)
Fixpoint not_blank (s : string) : bool :=
  match s with
  | EmptyString => false
  | String c rest => negb (is_space c) || not_blank rest
  end.

Definition test_cases : list string :=
  [ "Hello, how are you?";
    "What is 2+2?";
    "Summarize this text: The quick brown fox jumps over the lazy dog." ].

(** The answers the sample makes up in place of a model call. *)
Definition mock_response (input : string) : string :=
  if contains "hello" (lower input) then "Hello! I'm doing well, thank you for asking."
  else if contains "2+2" input then "2+2 equals 4."
  else if contains "summarize" (lower input) then "A fox jumps over a dog."
  else "I understand you asked: " ++ input.

(** The [for i, test_case in enumerate(test_cases)] loop: the number of valid
    answers and the per-test records, or the first exception. *)
Fixpoint run_test_cases (env : Collaborators) (cases : list string) (i : Z)
  (passed_tests : Z) (test_results : list pyval) : exn + (Z * list pyval) :=
  match cases with
  | [] => inr (passed_tests, test_results)
  | input :: rest =>
      match model_call env input with
      | inl e => inl e
      | inr response =>
          let is_valid :=
            (5 <? Z.of_nat (String.length response)) && not_blank response in
          run_test_cases env rest (i + 1)
            (if is_valid then passed_tests + 1 else passed_tests)
            (test_results
               ++ [PDict [("test_case", PInt (i + 1));
                          ("passed", PBool is_valid);
                          ("response_length",
                           PInt (Z.of_nat (String.length response)))]])
      end
  end.

Definition _validate_model_response (env : Collaborators) : rule :=
  fun deployment =>
    match run_test_cases env test_cases 0 0 [] with
    | inr (passed_tests, test_results) =>
        let total := Z.of_nat (List.length test_cases) in
        let success_rate := (float_of_Z passed_tests / float_of_Z total)%float in
        (inr (CheckResult.mk "model_response_validation"
                (fgeb success_rate 0.8)
                [Lit "Model response validation: "; FmtFloat ".1%" success_rate;
                 Lit " success rate"]
                None
                (Some (PDict [("tests_passed", PInt passed_tests);
                              ("total_tests", PInt total);
                              ("test_results", PList test_results)]))),
         deployment)
    | inl e =>
        (inr (CheckResult.mk "model_response_validation" false
                [Lit "Model response validation failed: "; Lit (str_exn e)]
                None None),
         deployment)
    end.

(** [sorted] on floats: a stable insertion sort by [<]. *)
Fixpoint insert_sorted (x : float) (l : list float) : list float :=
  match l with
  | [] => [x]
  | y :: rest =>
      if PrimFloat.ltb y x then y :: insert_sorted x rest else x :: y :: rest
  end.

Definition sorted (l : list float) : list float :=
  fold_right insert_sorted [] l.

(** The [for _ in range(5)] sampling loop: the measured times, or the first
    exception. *)
Fixpoint collect_samples (env : Collaborators) (indices : list nat)
  (response_times : list float) : exn + list float :=
  match indices with
  | [] => inr response_times
  | i :: rest =>
      match latency_sample env i with
      | inl e => inl e
      | inr response_time_ms =>
          collect_samples env rest (response_times ++ [response_time_ms])
      end
  end.

Definition _validate_performance_metrics (now : N) (env : Collaborators)
  : rule :=
  fun deployment =>
    let failure e :=
      (inr (CheckResult.mk "performance_validation" false
              [Lit "Performance validation failed: "; Lit (str_exn e)]
              None None),
       deployment) in
    match collect_samples env (seq 0 5) [] with
    | inl e => failure e
    | inr response_times =>
        let avg_response_time := statistics_mean env response_times in
        (* int(0.95 * len(response_times)) = int(4.75) = 4 *)
        match nth_error (sorted response_times) 4 with
        | None => failure IndexError
        | Some p95_response_time =>
            let avg_threshold := 3000%float in
            let p95_threshold := 5000%float in
            let warnings :=
              if fgtb avg_response_time 2000
              then [[Lit "Average response time above optimal: ";
                     FmtFloat ".0f" avg_response_time; Lit "ms"]]
              else [] in
            let deployment :=
              ModelDeployment.with_performance_metrics
                [("avg_response_time_ms", PFloat avg_response_time);
                 ("p95_response_time_ms", PFloat p95_response_time);
                 ("last_updated", PInt (Z.of_N now))]
                deployment in
            (inr (CheckResult.mk "performance_validation"
                    (PrimFloat.leb avg_response_time avg_threshold
                     && PrimFloat.leb p95_response_time p95_threshold)
                    [Lit "Performance: "; FmtFloat ".0f" avg_response_time;
                     Lit "ms avg, "; FmtFloat ".0f" p95_response_time;
                     Lit "ms p95"]
                    (Some warnings)
                    (Some (PDict [("avg_response_time_ms", PFloat avg_response_time);
                                  ("p95_response_time_ms", PFloat p95_response_time);
                                  ("avg_threshold_ms", PFloat avg_threshold);
                                  ("p95_threshold_ms", PFloat p95_threshold)]))),
             deployment)
        end
    end.

Definition _validate_api_compatibility (env : Collaborators) : rule :=
  fun deployment =>
    match compatibility_probe env with
    | inr compatibility_score =>
        (inr (CheckResult.mk "api_compatibility"
                (fgeb compatibility_score 0.95)
                [Lit "API compatibility: "; FmtFloat ".1%" compatibility_score]
                None
                (Some (PDict [("compatibility_score", PFloat compatibility_score)]))),
         deployment)
    | inl e =>
        (inr (CheckResult.mk "api_compatibility" false
                [Lit "API compatibility validation failed: "; Lit (str_exn e)]
                None None),
         deployment)
    end.

(** [HealthChecker.__init__]: the fixed, ordered pipeline. *)
Definition validation_rules (now : N) (env : Collaborators) : list rule :=
  [ _validate_endpoint_connectivity now env;
    _validate_model_response env;
    _validate_performance_metrics now env;
    _validate_api_compatibility env ].

Definition validate_deployment (now : N) (env : Collaborators)
  (deployment : ModelDeployment.t) : ValidationResult.t * ModelDeployment.t :=
  validate_with (validation_rules now env) deployment.

(** The names of the pipeline's checks, in order. *)
Definition check_names : list string :=
  [ "endpoint_connectivity"; "model_response_validation";
    "performance_validation"; "api_compatibility" ].

(** Which readings raise, per check of the pipeline. *)
Definition health_probe_raises (env : Collaborators) : bool :=
  match health_probe env with inl _ => true | inr _ => false end.

Definition model_call_raises (env : Collaborators) : bool :=
  match run_test_cases env test_cases 0 0 [] with inl _ => true | inr _ => false end.

Definition latency_sample_raises (env : Collaborators) : bool :=
  match collect_samples env (seq 0 5) [] with inl _ => true | inr _ => false end.

Definition compatibility_probe_raises (env : Collaborators) : bool :=
  match compatibility_probe env with inl _ => true | inr _ => false end.

Definition raises_in (env : Collaborators) : list bool :=
  [ health_probe_raises env; model_call_raises env;
    latency_sample_raises env; compatibility_probe_raises env ].

(** The sample's own stand-ins: a healthy endpoint, the mock answers, perfect
    compatibility, a provisioning call that returns, a 2% error rate and a
    1200 ms mean latency at every step.  The clock-measured latencies, the
    mean and the per-version metrics stay arguments. *)
Definition simulated (mean : list float -> float) (latency : nat -> float)
  (metrics : string -> string -> dict float) : Collaborators :=
  {| statistics_mean := mean;
     health_probe := inr "healthy";
     model_call := fun input => inr (mock_response input);
     latency_sample := fun i => inr (latency i);
     compatibility_probe := inr 1.0%float;
     provisioning := None;
     live_error_rate := fun _ => 0.02%float;
     live_avg_response_time := fun _ => 1200;
     version_metrics := metrics |}.

(** The arithmetic mean computed in binary64 ([statistics.mean] sums exactly
    and rounds once, so the last bits can differ). *)
Definition float_mean (l : list float) : float :=
  (fold_left PrimFloat.add l 0 / float_of_Z (Z.of_nat (List.length l)))%float.

(** [_get_version_metrics], given the process's [hash]. *)
Definition simulated_version_metrics (hash : string -> Z)
  (model_name version : string) : dict float :=
  let base_error_rate := 0.02%float in
  let base_response_time := 1200%float in
  let base_satisfaction := 0.85%float in
  let version_factor := (float_of_Z (hash version mod 100) / 1000)%float in
  [ ("error_rate", (base_error_rate + version_factor)%float);
    ("response_time", (base_response_time + version_factor * 200)%float);
    ("user_satisfaction", (base_satisfaction + version_factor / 10)%float);
    ("throughput", (100 - version_factor * 10)%float) ].

(** ** BlueGreenDeploymentManager *)

(** The manager's registry and active-slot pointers, with the router it was
    given ([health_checker] has no state). *)
Record BlueGreenDeploymentManager : Type := mkBlueGreen {
  traffic_router : TrafficRouter;
  deployments : dict ModelDeployment.t;
  active_slots : dict DeploymentSlot
}.

(** [BlueGreenDeploymentManager.__init__] *)
Definition BlueGreen_init (router : TrafficRouter) : BlueGreenDeploymentManager :=
  {| traffic_router := router;
     deployments := PyDict.empty;
     active_slots := PyDict.empty |}.

Definition with_router (router : TrafficRouter) (st : BlueGreenDeploymentManager)
  : BlueGreenDeploymentManager :=
  {| traffic_router := router;
     deployments := deployments st;
     active_slots := active_slots st |}.

Definition with_deployments (ds : dict ModelDeployment.t)
  (st : BlueGreenDeploymentManager) : BlueGreenDeploymentManager :=
  {| traffic_router := traffic_router st;
     deployments := ds;
     active_slots := active_slots st |}.

(** Mutating the object stored under a key: [d[k].field = ...]. *)
Definition update_entry {V : Type} (k : string) (f : V -> V) (d : dict V)
  : dict V :=
  match PyDict.get d k with
  | Some v => PyDict.set d k (f v)
  | None => d
  end.

(** Mutating every stored object: [for v in d.values(): ...]. *)
Definition map_values {V : Type} (f : V -> V) (d : dict V) : dict V :=
  map (fun '(k, v) => (k, f v)) d.

(** Mutating the first stored object that satisfies [p] (a [for] loop that
    breaks at the first match); the object as found, and the dict after. *)
Fixpoint mutate_first {V : Type} (p : V -> bool) (f : V -> V) (d : dict V)
  : option (V * dict V) :=
  match d with
  | [] => None
  | (k, v) :: rest =>
      if p v then Some (v, (k, f v) :: rest)
      else
        match mutate_first p f rest with
        | Some (found, rest') => Some (found, (k, v) :: rest')
        | None => None
        end
  end.

Definition _get_opposite_slot (slot : DeploymentSlot) : DeploymentSlot :=
  if slot_eqb slot BLUE then GREEN else BLUE.

(** [str(n)] of a non-negative integer. *)
Definition decimal (n : N) : string := NilEmpty.string_of_uint (N.to_uint n).

Definition make_deployment_id (model_name model_version : string)
  (new_slot : DeploymentSlot) (now : N) : string :=
  model_name ++ "-" ++ model_version ++ "-" ++ slot_value new_slot ++ "-"
    ++ decimal now.

Definition _deploy_to_azure (env : Collaborators)
  (deployment : ModelDeployment.t) (model_config : dict pyval)
  : exn + ModelDeployment.t :=
  match provisioning env with
  | Some e => inl e
  | None =>
      inr (ModelDeployment.with_endpoint_url
             ("https://" ++ ModelDeployment.model_name deployment ++ "-"
                ++ slot_value (ModelDeployment.slot deployment)
                ++ ".cognitiveservices.azure.com")
             deployment)
  end.

Module MonitoringResult.
Record t : Type := mk {
  healthy : bool;
  error_rate : float;
  avg_response_time_ms : Z;
  traffic_percentage : Z;
  alerts : list fstring
}.
End MonitoringResult.

Definition _monitor_traffic_shift (env : Collaborators) (model_name : string)
  (deployment : ModelDeployment.t) (traffic_percentage : Z)
  : MonitoringResult.t :=
  let error_rate := live_error_rate env traffic_percentage in
  let avg_response_time := live_avg_response_time env traffic_percentage in
  let high_error := fgtb error_rate 0.05 in
  let high_latency := 5000 <? avg_response_time in
  MonitoringResult.mk
    (negb high_error && negb high_latency)
    error_rate avg_response_time traffic_percentage
    ((if high_error
      then [[Lit "High error rate: "; FmtFloat ".2%" error_rate]] else [])
     ++ (if high_latency
         then [[Lit "High response time: "; FmtInt avg_response_time; Lit "ms"]]
         else [])).

Inductive shift_result : Type :=
| ShiftSucceeded
| ShiftFailed (details : MonitoringResult.t).

Definition traffic_steps : list Z := [10; 25; 50; 75; 100].

(** The [for step in traffic_steps] loop of [_gradual_traffic_shift]. *)
Fixpoint shift_loop (env : Collaborators) (model_name : string)
  (new_deployment : ModelDeployment.t) (steps : list Z)
  (router : TrafficRouter) : shift_result * TrafficRouter :=
  match steps with
  | [] => (ShiftSucceeded, router)
  | step :: rest =>
      let new_slot := ModelDeployment.slot new_deployment in
      let router :=
        update_traffic_split model_name
          (PyDict.literal2 (slot_value new_slot) step
             (slot_value (_get_opposite_slot new_slot)) (100 - step))
          router in
      let monitoring_result :=
        _monitor_traffic_shift env model_name new_deployment step in
      if negb (MonitoringResult.healthy monitoring_result)
      then (ShiftFailed monitoring_result, router)
      else shift_loop env model_name new_deployment rest router
  end.

Definition _gradual_traffic_shift (env : Collaborators) (model_name : string)
  (new_deployment : ModelDeployment.t) (st : BlueGreenDeploymentManager)
  : shift_result * BlueGreenDeploymentManager :=
  let '(result, router) :=
    shift_loop env model_name new_deployment traffic_steps (traffic_router st) in
  (result, with_router router st).

(** The marking loop shared by the switch and the rollback: every deployment
    of the model in [slot] becomes [INACTIVE] with no traffic. *)
Definition mark_slot_inactive (model_name : string) (slot : DeploymentSlot)
  (ds : dict ModelDeployment.t) : dict ModelDeployment.t :=
  map_values
    (fun deployment =>
       if String.eqb (ModelDeployment.model_name deployment) model_name
          && slot_eqb (ModelDeployment.slot deployment) slot
       then ModelDeployment.with_traffic_percentage 0
              (ModelDeployment.with_status INACTIVE deployment)
       else deployment)
    ds.

Definition _complete_blue_green_switch (model_name : string)
  (new_active_slot : DeploymentSlot) (st : BlueGreenDeploymentManager)
  : BlueGreenDeploymentManager :=
  let old_slot := PyDict.get (active_slots st) model_name in
  let router :=
    update_traffic_split model_name
      (PyDict.literal2 (slot_value new_active_slot) 100
         (slot_value (_get_opposite_slot new_active_slot)) 0)
      (traffic_router st) in
  {| traffic_router := router;
     deployments :=
       match old_slot with
       | Some old => mark_slot_inactive model_name old (deployments st)
       | None => deployments st
       end;
     active_slots := PyDict.set (active_slots st) model_name new_active_slot |}.

Inductive rollback_result : Type :=
| RolledBack (rolled_back_to active_slot : string)
| NoActiveDeployment
| NoPreviousDeployment.

(** The test of the search loop in [rollback_deployment]. *)
Definition is_rollback_candidate (model_name : string)
  (previous_slot : DeploymentSlot) (deployment : ModelDeployment.t) : bool :=
  String.eqb (ModelDeployment.model_name deployment) model_name
  && slot_eqb (ModelDeployment.slot deployment) previous_slot
  && status_eqb (ModelDeployment.status deployment) INACTIVE.

(** [rollback_deployment].  Nothing inside its [try] block raises, so the
    [except] branch has no counterpart here. *)
Definition rollback_deployment (model_name : string)
  (st : BlueGreenDeploymentManager)
  : rollback_result * BlueGreenDeploymentManager :=
  match PyDict.get (active_slots st) model_name with
  | None => (NoActiveDeployment, st)
  | Some current_slot =>
      let previous_slot := _get_opposite_slot current_slot in
      match
        mutate_first (is_rollback_candidate model_name previous_slot)
          (fun previous_deployment =>
             ModelDeployment.with_traffic_percentage 100
               (ModelDeployment.with_status ACTIVE previous_deployment))
          (deployments st)
      with
      | None => (NoPreviousDeployment, st)
      | Some (previous_deployment, ds) =>
          let router :=
            update_traffic_split model_name
              (PyDict.literal2 (slot_value previous_slot) 100
                 (slot_value current_slot) 0)
              (traffic_router st) in
          (RolledBack (ModelDeployment.deployment_id previous_deployment)
             (slot_value previous_slot),
           {| traffic_router := router;
              deployments := mark_slot_inactive model_name current_slot ds;
              active_slots :=
                PyDict.set (active_slots st) model_name previous_slot |})
      end
  end.

(** [_rollback_deployment]: the result of the rollback is dropped. *)
Definition _rollback_deployment (model_name : string)
  (failed_deployment : ModelDeployment.t) (st : BlueGreenDeploymentManager)
  : BlueGreenDeploymentManager :=
  snd (rollback_deployment model_name st).

Inductive deploy_result : Type :=
| Deployed (deployment_id active_slot endpoint : string)
| ValidationFailed (validation_details : ValidationResult.t)
| TrafficShiftFailed (details : MonitoringResult.t)
| DeploymentFailed (e : exn).

Definition deploy_new_version (model_name model_version : string)
  (model_config : dict pyval) (now : N) (env : Collaborators)
  (st : BlueGreenDeploymentManager)
  : deploy_result * BlueGreenDeploymentManager :=
  let current_active_slot :=
    match PyDict.get (active_slots st) model_name with
    | Some s => s
    | None => BLUE
    end in
  let new_slot := if slot_eqb current_active_slot BLUE then GREEN else BLUE in
  let deployment_id := make_deployment_id model_name model_version new_slot now in
  let deployment :=
    ModelDeployment.mk deployment_id model_name model_version new_slot STAGING
      ("https://" ++ model_name ++ "-" ++ slot_value new_slot
         ++ ".azure-ai-foundry.com")
      now None "unknown" 0 (Some PyDict.empty) in
  match _deploy_to_azure env deployment model_config with
  | inl e =>
      (* except Exception: an entry already stored under this id is marked *)
      (DeploymentFailed e,
       with_deployments
         (update_entry deployment_id (ModelDeployment.with_status FAILED)
            (deployments st))
         st)
  | inr deployment =>
      (* the registered object is the one the checks mutate *)
      let '(validation_result, deployment) :=
        validate_deployment now env deployment in
      let st :=
        with_deployments (PyDict.set (deployments st) deployment_id deployment) st in
      if negb (ValidationResult.passed validation_result) then
        (ValidationFailed validation_result,
         with_deployments
           (update_entry deployment_id (ModelDeployment.with_status FAILED)
              (deployments st))
           st)
      else
        match _gradual_traffic_shift env model_name deployment st with
        | (ShiftFailed details, st) =>
            let st :=
              with_deployments
                (update_entry deployment_id (ModelDeployment.with_status FAILED)
                   (deployments st))
                st in
            (TrafficShiftFailed details,
             _rollback_deployment model_name deployment st)
        | (ShiftSucceeded, st) =>
            let st := _complete_blue_green_switch model_name new_slot st in
            let st :=
              with_deployments
                (update_entry deployment_id (ModelDeployment.with_status ACTIVE)
                   (deployments st))
                st in
            (Deployed deployment_id (slot_value new_slot)
               (ModelDeployment.endpoint_url deployment),
             st)
        end
  end.

(** The states the manager reaches through its public operations, whatever
    the collaborators answer; the router is shared with the canary manager,
    which may change it in between. *)
Inductive bg_reachable : BlueGreenDeploymentManager -> Prop :=
| reach_init : forall router, bg_reachable (BlueGreen_init router)
| reach_deploy : forall st model_name model_version model_config now env,
    bg_reachable st ->
    bg_reachable
      (snd (deploy_new_version model_name model_version model_config now env st))
| reach_rollback : forall st model_name,
    bg_reachable st ->
    bg_reachable (snd (rollback_deployment model_name st))
| reach_router : forall st router,
    bg_reachable st ->
    bg_reachable (with_router router st).

(** The deployments of a model that the registry holds with a given status. *)
Definition deployments_with_status (model_name : string)
  (s : DeploymentStatus) (st : BlueGreenDeploymentManager)
  : list ModelDeployment.t :=
  filter
    (fun d =>
       String.eqb (ModelDeployment.model_name d) model_name
       && status_eqb (ModelDeployment.status d) s)
    (PyDict.values (deployments st)).

(** ** CanaryReleaseManager *)

Module CriterionResult.
Record t : Type := mk {
  passed : bool;
  canary_value : float;
  baseline_value : float;
  threshold : float
}.
End CriterionResult.

Inductive Decision : Type := Proceed | Abort | Hold.

Definition decision_value (d : Decision) : string :=
  match d with Proceed => "proceed" | Abort => "abort" | Hold => "hold" end.

Module Evaluation.
Record t : Type := mk {
  timestamp : N;
  canary_metrics : dict float;
  baseline_metrics : dict float;
  criteria_results : dict CriterionResult.t;
  decision : Decision;
  reason : fstring;
  confidence : float
}.
End Evaluation.

(** The tracking dict of one release, [active_canaries[canary_id]]. *)
Module CanaryInfo.
Record t : Type := mk {
  config : CanaryConfiguration.t;
  start_time : N;
  status : CanaryStatus;
  evaluations : list Evaluation.t;
  current_traffic_percentage : Z;
  completion_time : option N;
  abort_time : option N;
  abort_reason : option fstring
}.

Definition with_evaluation (ev : Evaluation.t) (i : t) : t :=
  mk (config i) (start_time i) (status i) (evaluations i ++ [ev])
     (current_traffic_percentage i) (completion_time i) (abort_time i)
     (abort_reason i).

Definition with_traffic (p : Z) (i : t) : t :=
  mk (config i) (start_time i) (status i) (evaluations i) p
     (completion_time i) (abort_time i) (abort_reason i).

Definition completed (now : N) (i : t) : t :=
  mk (config i) (start_time i) COMPLETED (evaluations i)
     (current_traffic_percentage i) (Some now) (abort_time i) (abort_reason i).

Definition aborted (now : N) (why : fstring) (i : t) : t :=
  mk (config i) (start_time i) ABORTED (evaluations i)
     (current_traffic_percentage i) (completion_time i) (Some now) (Some why).
End CanaryInfo.

(** The finalized record, [canary_results[canary_id]]. *)
Module CanaryResult.
Record t : Type := mk {
  config : CanaryConfiguration.t;
  evaluations : list Evaluation.t;
  final_status : string;
  abort_reason : option fstring;
  duration_minutes : float
}.
End CanaryResult.

(** The manager.  A tracking dict is an object that a monitoring loop keeps
    a reference to while [active_canaries] may be given another object under
    the same id, so the objects live in a store ([canary_objects], addressed
    by position) and [active_canaries] maps an id to its object. *)
Record CanaryReleaseManager : Type := mkCanary {
  canary_router : TrafficRouter;
  canary_objects : list CanaryInfo.t;
  active_canaries : dict nat;
  canary_results : dict CanaryResult.t
}.

(** [CanaryReleaseManager.__init__] *)
Definition Canary_init (router : TrafficRouter) : CanaryReleaseManager :=
  {| canary_router := router;
     canary_objects := [];
     active_canaries := PyDict.empty;
     canary_results := PyDict.empty |}.

Definition with_canary_router (router : TrafficRouter)
  (st : CanaryReleaseManager) : CanaryReleaseManager :=
  {| canary_router := router;
     canary_objects := canary_objects st;
     active_canaries := active_canaries st;
     canary_results := canary_results st |}.

(** Replacing the object at a position of the store. *)
Fixpoint store_set {A : Type} (l : list A) (i : nat) (x : A) : list A :=
  match l, i with
  | [], _ => []
  | _ :: rest, O => x :: rest
  | y :: rest, S i' => y :: store_set rest i' x
  end.

Definition set_object (l : nat) (info : CanaryInfo.t)
  (st : CanaryReleaseManager) : CanaryReleaseManager :=
  {| canary_router := canary_router st;
     canary_objects := store_set (canary_objects st) l info;
     active_canaries := active_canaries st;
     canary_results := canary_results st |}.

(** [self.active_canaries[canary_id]]: the object and where it lives. *)
Definition registered (st : CanaryReleaseManager) (canary_id : string)
  : exn + (nat * CanaryInfo.t) :=
  match PyDict.get (active_canaries st) canary_id with
  | None => inl (KeyError canary_id)
  | Some l =>
      match nth_error (canary_objects st) l with
      | None => inl (KeyError canary_id)
      | Some info => inr (l, info)
      end
  end.

Definition _update_canary_traffic (canary_id : string) (traffic_percentage : Z)
  (st : CanaryReleaseManager) : exn + CanaryReleaseManager :=
  match registered st canary_id with
  | inl e => inl e
  | inr (l, canary_info) =>
      let config := CanaryInfo.config canary_info in
      let router :=
        update_traffic_split (CanaryConfiguration.model_name config)
          (PyDict.literal2 "canary" traffic_percentage
             "baseline" (100 - traffic_percentage))
          (canary_router st) in
      inr (set_object l (CanaryInfo.with_traffic traffic_percentage canary_info)
             (with_canary_router router st))
  end.

Definition _calculate_next_traffic_percentage (canary_id : string)
  (st : CanaryReleaseManager) : exn + Z :=
  match registered st canary_id with
  | inl e => inl e
  | inr (_, canary_info) =>
      let config := CanaryInfo.config canary_info in
      let current_percentage := CanaryInfo.current_traffic_percentage canary_info in
      inr (if current_percentage <? 5 then 5
           else if current_percentage <? 10 then 10
           else if current_percentage <? 25 then 25
           else if current_percentage <? 50 then 50
           else if current_percentage
                   <? CanaryConfiguration.canary_traffic_percentage config
           then Z.min (CanaryConfiguration.canary_traffic_percentage config)
                  (current_percentage + 25)
           else current_percentage)
  end.

(** The comparison of one success criterion. *)
Definition criterion_passed (criterion : string)
  (threshold canary_value baseline_value : float) : bool :=
  if String.eqb criterion "error_rate" then
    PrimFloat.leb canary_value (baseline_value * (1 + threshold))%float
  else if String.eqb criterion "response_time" then
    PrimFloat.leb canary_value (baseline_value * (1 + threshold))%float
  else if String.eqb criterion "user_satisfaction" then
    fgeb canary_value (baseline_value * (1 - threshold))%float
  else
    PrimFloat.leb (PrimFloat.abs (canary_value - baseline_value)) threshold.

(** [metrics.get(criterion, 0)] *)
Definition metric (metrics : dict float) (criterion : string) : float :=
  match PyDict.get metrics criterion with
  | Some v => v
  | None => 0%float
  end.

(** One turn of [for criterion, threshold in config.success_criteria.items()]. *)
Definition evaluate_criterion (canary_metrics baseline_metrics : dict float)
  (acc : dict CriterionResult.t * Z) (item : string * float)
  : dict CriterionResult.t * Z :=
  let '(criteria_results, passed_criteria) := acc in
  let '(criterion, threshold) := item in
  let canary_value := metric canary_metrics criterion in
  let baseline_value := metric baseline_metrics criterion in
  let passed := criterion_passed criterion threshold canary_value baseline_value in
  (PyDict.set criteria_results criterion
     (CriterionResult.mk passed canary_value baseline_value threshold),
   if passed then passed_criteria + 1 else passed_criteria).

(** The decision taken from the confidence, with its reason. *)
Definition decide (success_rate : float) : Decision * fstring :=
  if PrimFloat.ltb success_rate 0.7 then
    (Abort, [Lit "Only "; FmtFloat ".1%" success_rate;
             Lit " of criteria passed (minimum 70% required)"])
  else if fgeb success_rate 0.9 then
    (Proceed, [FmtFloat ".1%" success_rate;
               Lit " of criteria passed - proceeding with rollout"])
  else
    (Hold, [FmtFloat ".1%" success_rate;
            Lit " of criteria passed - maintaining current traffic"]).

Definition _evaluate_canary_performance (canary_id : string) (now : N)
  (env : Collaborators) (st : CanaryReleaseManager) : exn + Evaluation.t :=
  match registered st canary_id with
  | inl e => inl e
  | inr (_, canary_info) =>
      let config := CanaryInfo.config canary_info in
      let canary_metrics :=
        version_metrics env (CanaryConfiguration.model_name config)
          (CanaryConfiguration.canary_version config) in
      let baseline_metrics :=
        version_metrics env (CanaryConfiguration.model_name config)
          (CanaryConfiguration.baseline_version config) in
      let total_criteria :=
        Z.of_nat (List.length (CanaryConfiguration.success_criteria config)) in
      let '(criteria_results, passed_criteria) :=
        fold_left (evaluate_criterion canary_metrics baseline_metrics)
          (CanaryConfiguration.success_criteria config) (PyDict.empty, 0) in
      if total_criteria =? 0 then inl ZeroDivisionError
      else
        let success_rate :=
          (float_of_Z passed_criteria / float_of_Z total_criteria)%float in
        let '(decision, reason) := decide success_rate in
        inr (Evaluation.mk now canary_metrics baseline_metrics criteria_results
               decision reason success_rate)
  end.

(** [(later - earlier).total_seconds() / 60] *)
Definition minutes_between (earlier later : N) : float :=
  (float_of_Z (Z.of_N later - Z.of_N earlier) / 60)%float.

Definition store_result (canary_id : string) (r : CanaryResult.t)
  (st : CanaryReleaseManager) : CanaryReleaseManager :=
  {| canary_router := canary_router st;
     canary_objects := canary_objects st;
     active_canaries := active_canaries st;
     canary_results := PyDict.set (canary_results st) canary_id r |}.

Definition _complete_canary_release (canary_id : string) (now : N)
  (st : CanaryReleaseManager) : exn + CanaryReleaseManager :=
  match registered st canary_id with
  | inl e => inl e
  | inr (l, canary_info) =>
      let config := CanaryInfo.config canary_info in
      let router :=
        if CanaryConfiguration.auto_promote config
        then update_traffic_split (CanaryConfiguration.model_name config)
               (PyDict.literal2 "canary" 100 "baseline" 0) (canary_router st)
        else canary_router st in
      let canary_info := CanaryInfo.completed now canary_info in
      inr (store_result canary_id
             (CanaryResult.mk config (CanaryInfo.evaluations canary_info)
                "success" None
                (minutes_between (CanaryInfo.start_time canary_info) now))
             (set_object l canary_info (with_canary_router router st)))
  end.

Definition _abort_canary_release (canary_id : string) (reason : fstring)
  (now : N) (st : CanaryReleaseManager) : exn + CanaryReleaseManager :=
  match registered st canary_id with
  | inl e => inl e
  | inr (l, canary_info) =>
      let config := CanaryInfo.config canary_info in
      let router :=
        update_traffic_split (CanaryConfiguration.model_name config)
          (PyDict.literal2 "canary" 0 "baseline" 100) (canary_router st) in
      let canary_info := CanaryInfo.aborted now reason canary_info in
      inr (store_result canary_id
             (CanaryResult.mk config (CanaryInfo.evaluations canary_info)
                "aborted" (Some reason)
                (minutes_between (CanaryInfo.start_time canary_info) now))
             (set_object l canary_info (with_canary_router router st)))
  end.

Inductive start_result : Type :=
| Started (canary_id : string) (initial_traffic_percentage : Z)
| StartFailed (e : exn).

Definition make_canary_id (config : CanaryConfiguration.t) (now : N) : string :=
  "canary-" ++ CanaryConfiguration.model_name config ++ "-"
    ++ CanaryConfiguration.canary_version config ++ "-" ++ decimal now.

(** [start_canary_release].  Besides the result, the position of the new
    tracking object: with the id, it is what the monitoring task launched by
    [asyncio.create_task] holds. *)
Definition start_canary_release (config : CanaryConfiguration.t) (now : N)
  (st : CanaryReleaseManager) : start_result * nat * CanaryReleaseManager :=
  let canary_id := make_canary_id config now in
  let l := List.length (canary_objects st) in
  let st :=
    {| canary_router := canary_router st;
       canary_objects :=
         canary_objects st ++ [CanaryInfo.mk config now RUNNING [] 0 None None None];
       active_canaries := PyDict.set (active_canaries st) canary_id l;
       canary_results := canary_results st |} in
  let initial_traffic :=
    Z.min (CanaryConfiguration.canary_traffic_percentage config) 5 in
  match _update_canary_traffic canary_id initial_traffic st with
  | inr st => (Started canary_id initial_traffic, l, st)
  | inl e => (StartFailed e, l, st)
  end.

(** What one turn of the [while] loop of [_monitor_canary_release] does to
    the loop: go on after the sleep, leave the loop, or die of an
    exception. *)
Inductive loop_outcome : Type :=
| Continue
| Exit
| Crashed (e : exn).

(** One turn of the monitoring loop of the task that holds the tracking
    object at position [canary_info] for [canary_id].  [now] is the clock of
    the turn. *)
Definition monitor_iteration (canary_id : string) (canary_info : nat)
  (now : N) (env : Collaborators) (st : CanaryReleaseManager)
  : loop_outcome * CanaryReleaseManager :=
  match nth_error (canary_objects st) canary_info with
  | None => (Crashed (KeyError canary_id), st)
  | Some captured =>
      if negb (canary_status_eqb (CanaryInfo.status captured) RUNNING)
      then (Exit, st)
      else
        let config := CanaryInfo.config captured in
        let total_duration :=
          CanaryConfiguration.rollout_duration_minutes config * 60 in
        let elapsed_time := Z.of_N now - Z.of_N (CanaryInfo.start_time captured) in
        if total_duration <=? elapsed_time then
          match _complete_canary_release canary_id now st with
          | inr st => (Exit, st)
          | inl e => (Crashed e, st)
          end
        else
          match _evaluate_canary_performance canary_id now env st with
          | inl e => (Crashed e, st)
          | inr evaluation_result =>
              let st :=
                set_object canary_info
                  (CanaryInfo.with_evaluation evaluation_result captured) st in
              match Evaluation.decision evaluation_result with
              | Abort =>
                  match
                    _abort_canary_release canary_id
                      (Evaluation.reason evaluation_result) now st
                  with
                  | inr st => (Exit, st)
                  | inl e => (Crashed e, st)
                  end
              | Proceed =>
                  match _calculate_next_traffic_percentage canary_id st with
                  | inl e => (Crashed e, st)
                  | inr new_traffic_percentage =>
                      match
                        _update_canary_traffic canary_id new_traffic_percentage st
                      with
                      | inr st => (Continue, st)
                      | inl e => (Crashed e, st)
                      end
                  end
              | Hold => (Continue, st)
              end
          end
  end.

(** The three answers of [get_canary_status]. *)
Inductive canary_status_view : Type :=
| LiveState (canary_id model_name status : string)
    (current_traffic_percentage : Z) (start_time : N)
    (evaluations_count : Z) (latest_evaluation : option Evaluation.t)
| FinalRecord (r : CanaryResult.t)
| CanaryNotFound.

Definition get_canary_status (canary_id : string) (st : CanaryReleaseManager)
  : canary_status_view :=
  match registered st canary_id with
  | inr (_, canary_info) =>
      let config := CanaryInfo.config canary_info in
      LiveState canary_id
        (CanaryConfiguration.model_name config)
        (canary_status_value (CanaryInfo.status canary_info))
        (CanaryInfo.current_traffic_percentage canary_info)
        (CanaryInfo.start_time canary_info)
        (Z.of_nat (List.length (CanaryInfo.evaluations canary_info)))
        (last (map Some (CanaryInfo.evaluations canary_info)) None)
  | inl _ =>
      match PyDict.get (canary_results st) canary_id with
      | Some r => FinalRecord r
      | None => CanaryNotFound
      end
  end.

(** The states the canary manager reaches: releases started, turns of the
    monitoring loops taken, the shared router changed by others. *)
Inductive canary_reachable : CanaryReleaseManager -> Prop :=
| creach_init : forall router, canary_reachable (Canary_init router)
| creach_start : forall st config now,
    canary_reachable st ->
    canary_reachable (snd (start_canary_release config now st))
| creach_turn : forall st canary_id canary_info now env,
    canary_reachable st ->
    canary_reachable (snd (monitor_iteration canary_id canary_info now env st))
| creach_router : forall st router,
    canary_reachable st ->
    canary_reachable (with_canary_router router st).

(** The split a canary percentage is applied as. *)
Definition canary_split (traffic_percentage : Z) : dict Z :=
  PyDict.literal2 "canary" traffic_percentage
    "baseline" (100 - traffic_percentage).

(** The split the router holds for a model. *)
Definition live_split (router : TrafficRouter) (model_name : string)
  : option (dict Z) :=
  PyDict.get (routing_rules router) model_name.

(** * Properties *)

(** ** Dictionaries *)

Section PyDictFacts.
Context {V : Type}.
Implicit Types (d : dict V) (k : string) (v : V).

Lemma get_set_same d k v : PyDict.get (PyDict.set d k v) k = Some v.
Proof.
  induction d as [|[k' v'] d IH]; simpl.
  - now rewrite String.eqb_refl.
  - destruct (String.eqb k k') eqn:E; simpl; rewrite E; auto.
Qed.

Lemma get_set_other d k k' v :
  k' <> k -> PyDict.get (PyDict.set d k v) k' = PyDict.get d k'.
Proof.
  intros Hne. apply String.eqb_neq in Hne.
  induction d as [|[k0 v0] d IH]; simpl.
  - now rewrite Hne.
  - destruct (String.eqb k k0) eqn:E; simpl.
    + apply String.eqb_eq in E; subst k0. now rewrite Hne.
    + destruct (String.eqb k' k0); auto.
Qed.

Lemma mem_In d k : PyDict.mem d k = true <-> In k (PyDict.keys d).
Proof.
  unfold PyDict.mem. induction d as [|[k' v'] d IH]; simpl.
  - split; [discriminate | tauto].
  - destruct (String.eqb k k') eqn:E.
    + apply String.eqb_eq in E. subst. split; auto.
    + apply String.eqb_neq in E. rewrite IH. split; [auto | intros [H|H]; congruence].
Qed.

Lemma mem_get d k : PyDict.mem d k = true <-> exists v, PyDict.get d k = Some v.
Proof.
  unfold PyDict.mem. destruct (PyDict.get d k) as [v|].
  - split; eauto.
  - split; [discriminate | intros [v H]; discriminate].
Qed.

Lemma mem_set d k k' v :
  PyDict.mem (PyDict.set d k v) k' = String.eqb k' k || PyDict.mem d k'.
Proof.
  unfold PyDict.mem. destruct (String.eqb k' k) eqn:E.
  - apply String.eqb_eq in E. subst. now rewrite get_set_same.
  - apply String.eqb_neq in E. now rewrite get_set_other.
Qed.

Lemma keys_set d k v :
  PyDict.keys (PyDict.set d k v)
  = if PyDict.mem d k then PyDict.keys d else PyDict.keys d ++ [k].
Proof.
  unfold PyDict.mem, PyDict.keys. induction d as [|[k' v'] d IH]; simpl; auto.
  destruct (String.eqb k k') eqn:E; simpl; auto.
  rewrite IH. now destruct (PyDict.get d k).
Qed.

Lemma wf_set d k v : PyDict.wf d -> PyDict.wf (PyDict.set d k v).
Proof.
  unfold PyDict.wf. intros Hd. rewrite keys_set.
  destruct (PyDict.mem d k) eqn:E; auto.
  apply NoDup_app; auto.
  - constructor; [tauto | constructor].
  - intros x Hx [<-|[]]. apply mem_In in Hx. congruence.
Qed.

Lemma get_In d k v : PyDict.get d k = Some v -> In (k, v) d.
Proof.
  induction d as [|[k' v'] d IH]; simpl; [discriminate|].
  destruct (String.eqb k k') eqn:E.
  - apply String.eqb_eq in E. intros [= ->]. subst. auto.
  - auto.
Qed.

Lemma In_get_wf d k v : PyDict.wf d -> In (k, v) d -> PyDict.get d k = Some v.
Proof.
  unfold PyDict.wf, PyDict.keys.
  induction d as [|[k' v'] d IH]; simpl; [tauto|].
  intros Hnd [H|H].
  - injection H as -> ->. now rewrite String.eqb_refl.
  - inversion Hnd; subst. destruct (String.eqb k k') eqn:E.
    + apply String.eqb_eq in E. subst. exfalso. apply H2.
      change k' with (fst (k', v)). now apply in_map.
    + auto.
Qed.

End PyDictFacts.

Lemma sumZ_set (d : dict Z) (k : string) (n v : Z) :
  PyDict.get d k = Some n ->
  sumZ (PyDict.values (PyDict.set d k v)) = sumZ (PyDict.values d) - n + v.
Proof.
  unfold sumZ, PyDict.values. induction d as [|[k' v'] d IH]; simpl; [discriminate|].
  destruct (String.eqb k k') eqn:E; simpl.
  - intros [= ->]. lia.
  - intros H. rewrite (IH H). lia.
Qed.

(** ** TrafficRouter *)

Lemma init_counters_keeps variants : forall counts variant n,
  PyDict.get counts variant = Some n ->
  PyDict.get (init_counters variants counts) variant = Some n.
Proof.
  unfold init_counters.
  induction variants as [|x xs IH]; simpl; intros counts variant n H; auto.
  apply IH. destruct (PyDict.mem counts x) eqn:E; auto.
  rewrite get_set_other; auto.
  intros ->. unfold PyDict.mem in E. now rewrite H in E.
Qed.

Lemma init_counters_mem variants : forall counts variant,
  PyDict.mem counts variant = true ->
  PyDict.mem (init_counters variants counts) variant = true.
Proof.
  intros counts variant H. apply mem_get in H as [n H].
  apply mem_get. exists n. now apply init_counters_keeps.
Qed.

Lemma init_counters_covers variants : forall counts variant,
  In variant variants ->
  PyDict.mem (init_counters variants counts) variant = true.
Proof.
  unfold init_counters.
  induction variants as [|x xs IH]; simpl; intros counts variant H; [tauto|].
  destruct H as [->|H]; [|now apply IH].
  apply (init_counters_mem xs).
  destruct (PyDict.mem counts variant) eqn:E; auto.
  rewrite mem_set, String.eqb_refl. reflexivity.
Qed.

Lemma init_counters_fresh variants : forall counts variant,
  PyDict.mem counts variant = false -> In variant variants ->
  PyDict.get (init_counters variants counts) variant = Some 0.
Proof.
  unfold init_counters.
  induction variants as [|x xs IH]; simpl; intros counts variant Hm H; [tauto|].
  destruct (String.eqb variant x) eqn:E.
  - apply String.eqb_eq in E. subst x. rewrite Hm.
    apply (init_counters_keeps xs). apply get_set_same.
  - apply String.eqb_neq in E. destruct H as [->|H]; [congruence|].
    apply IH; auto.
    destruct (PyDict.mem counts x); auto.
    rewrite mem_set, Hm. apply String.eqb_neq in E. now rewrite E.
Qed.

Lemma update_traffic_split_rules model_name split r :
  routing_rules (update_traffic_split model_name split r)
  = PyDict.set (routing_rules r) model_name split.
Proof. reflexivity. Qed.

Lemma update_traffic_split_counts model_name split r :
  PyDict.get (request_counts (update_traffic_split model_name split r)) model_name
  = Some (init_counters (PyDict.keys split) (counts_of r model_name)).
Proof.
  unfold update_traffic_split, counts_of, PyDict.mem; simpl.
  rewrite get_set_same.
  destruct (PyDict.get (request_counts r) model_name) eqn:E.
  - now rewrite E.
  - now rewrite get_set_same.
Qed.

Lemma update_traffic_split_counts_other model_name split r other :
  other <> model_name ->
  PyDict.get (request_counts (update_traffic_split model_name split r)) other
  = PyDict.get (request_counts r) other.
Proof.
  intros Hne. unfold update_traffic_split; simpl.
  rewrite get_set_other by auto.
  destruct (PyDict.mem (request_counts r) model_name); auto.
  now rewrite get_set_other.
Qed.

Lemma live_split_update model_name split r :
  live_split (update_traffic_split model_name split r) model_name = Some split.
Proof. unfold live_split. rewrite update_traffic_split_rules. apply get_set_same. Qed.

Lemma live_split_update_other model_name split r other :
  other <> model_name ->
  live_split (update_traffic_split model_name split r) other = live_split r other.
Proof.
  intros. unfold live_split. rewrite update_traffic_split_rules.
  now apply get_set_other.
Qed.

Lemma counters_ready_init : counters_ready TrafficRouter_init.
Proof. intros m split H. discriminate. Qed.

Lemma counters_ready_update model_name split r :
  counters_ready r -> counters_ready (update_traffic_split model_name split r).
Proof.
  intros Hr m s Hs. rewrite update_traffic_split_rules in Hs.
  destruct (string_dec m model_name) as [->|Hne].
  - rewrite get_set_same in Hs. injection Hs as <-.
    eexists. split; [apply update_traffic_split_counts|].
    intros variant Hin. now apply init_counters_covers.
  - rewrite get_set_other in Hs by auto.
    destruct (Hr m s Hs) as [c [Hc Hall]].
    exists c. split; auto.
    now rewrite update_traffic_split_counts_other.
Qed.

(** C2, as stated, fails: a split with a negative weight and a sum of 50 is
    stored as it is, on a router that held no split for the service. *)
Lemma update_traffic_split_accepts_invalid_split :
  let bad := [("blue", -20); ("green", 70)] in
  ~ valid_split bad
  /\ live_split TrafficRouter_init "svc" = None
  /\ live_split (update_traffic_split "svc" bad TrafficRouter_init) "svc" = Some bad.
Proof.
  repeat split.
  intros [Hnonneg _]. inversion Hnonneg; subst. lia.
Qed.

(** C2 (amended): [update_traffic_split] validates nothing.  For every
    split, also one with a negative weight or a sum other than 100, the call
    returns and the stored split of the service is the given one; the splits
    of the other services are untouched, the request counters the service
    already had are preserved and every variant it newly introduces gets a
    counter at 0.  So a stored split has non-negative weights summing to
    exactly 100 exactly when the split passed to the call has. *)
Theorem update_traffic_split_stores_any_split :
  forall model_name split r,
    let r' := update_traffic_split model_name split r in
    live_split r' model_name = Some split
    /\ (forall other, other <> model_name ->
          live_split r' other = live_split r other)
    /\ (forall variant n,
          PyDict.get (counts_of r model_name) variant = Some n ->
          PyDict.get (counts_of r' model_name) variant = Some n)
    /\ (forall variant,
          In variant (PyDict.keys split) ->
          PyDict.mem (counts_of r model_name) variant = false ->
          PyDict.get (counts_of r' model_name) variant = Some 0)
    /\ (forall stored, live_split r' model_name = Some stored ->
          (valid_split stored <-> valid_split split)).
Proof.
  intros model_name split r r'. subst r'.
  assert (Hc : counts_of (update_traffic_split model_name split r) model_name
               = init_counters (PyDict.keys split) (counts_of r model_name)).
  { unfold counts_of at 1. now rewrite update_traffic_split_counts. }
  split; [|split; [|split; [|split]]].
  - apply live_split_update.
  - intros other Hne. now apply live_split_update_other.
  - intros variant n H. rewrite Hc. now apply init_counters_keeps.
  - intros variant Hin Hm. rewrite Hc. now apply init_counters_fresh.
  - intros stored H. rewrite live_split_update in H.
    injection H as <-. tauto.
Qed.

Lemma route_walk_In items : forall random_value cumulative variant,
  route_walk items random_value cumulative = Some variant ->
  In variant (PyDict.keys items).
Proof.
  induction items as [|[k w] items IH]; simpl; intros rv c variant H; [discriminate|].
  destruct (rv <=? c + w).
  - injection H as <-. auto.
  - right. eapply IH; eauto.
Qed.

Lemma route_walk_reaches items : forall random_value cumulative,
  cumulative < random_value <= cumulative + sumZ (PyDict.values items) ->
  exists variant, route_walk items random_value cumulative = Some variant.
Proof.
  induction items as [|[k w] items IH]; simpl; intros rv c H.
  - lia.
  - destruct (rv <=? c + w) eqn:E; [eauto|].
    apply Z.leb_gt in E. apply IH. lia.
Qed.

Lemma route_walk_misses items : forall random_value cumulative,
  Forall (fun w => 0 <= w) (PyDict.values items) ->
  cumulative + sumZ (PyDict.values items) < random_value ->
  route_walk items random_value cumulative = None.
Proof.
  induction items as [|[k w] items IH]; simpl; intros rv c Hnn H; auto.
  inversion Hnn as [|? ? Hw Hrest]; subst.
  assert (0 <= sumZ (PyDict.values items)).
  { clear -Hrest. induction Hrest; simpl; lia. }
  destruct (rv <=? c + w) eqn:E.
  - apply Z.leb_le in E. lia.
  - apply IH; auto. lia.
Qed.

Lemma stats_total_counts model_name r :
  stats_total (get_traffic_stats model_name r)
  = sumZ (PyDict.values (counts_of r model_name)).
Proof.
  unfold get_traffic_stats, counts_of.
  destruct (PyDict.get (request_counts r) model_name) as [counts|]; auto.
  destruct (sumZ (PyDict.values counts) =? 0) eqn:E; auto.
  apply Z.eqb_eq in E. now rewrite E.
Qed.

(** What a draw within the weights does: one counter of the service goes up
    by one, nothing else changes. *)
Lemma route_request_hit model_name random_value r split :
  counters_ready r ->
  live_split r model_name = Some split ->
  0 < random_value <= sumZ (PyDict.values split) ->
  exists variant n,
    In variant (PyDict.keys split)
    /\ PyDict.get (counts_of r model_name) variant = Some n
    /\ route_request model_name random_value r
       = (inr variant,
          {| routing_rules := routing_rules r;
             request_counts :=
               PyDict.set (request_counts r) model_name
                 (PyDict.set (counts_of r model_name) variant (n + 1)) |}).
Proof.
  intros Hready Hsplit Hdraw. unfold live_split in Hsplit.
  destruct (Hready _ _ Hsplit) as [counts [Hcounts Hall]].
  destruct (route_walk_reaches split random_value 0) as [variant Hwalk]; [lia|].
  pose proof (route_walk_In _ _ _ _ Hwalk) as Hin.
  destruct (proj1 (mem_get counts variant) (Hall _ Hin)) as [n Hn].
  exists variant, n. unfold route_request, counts_of.
  rewrite Hsplit, Hcounts. destruct split as [|item split'].
  - simpl in Hdraw. lia.
  - rewrite Hwalk, Hn. auto.
Qed.

Lemma route_request_rules model_name random_value r :
  routing_rules (snd (route_request model_name random_value r)) = routing_rules r.
Proof.
  unfold route_request.
  destruct (PyDict.get (routing_rules r) model_name) as [[|item split]|]; auto.
  destruct (route_walk (item :: split) random_value 0).
  - destruct (PyDict.get (request_counts r) model_name) as [counts|]; auto.
    destruct (PyDict.get counts s); auto.
  - destruct (PyDict.keys (item :: split)); auto.
Qed.

Lemma route_request_ready model_name random_value r :
  counters_ready r ->
  counters_ready (snd (route_request model_name random_value r)).
Proof.
  intros Hready m s Hs. rewrite route_request_rules in Hs.
  destruct (Hready _ _ Hs) as [c [Hc Hall]].
  unfold route_request.
  destruct (PyDict.get (routing_rules r) model_name) as [[|item split]|]; eauto.
  destruct (route_walk (item :: split) random_value 0) as [variant|].
  - destruct (PyDict.get (request_counts r) model_name) as [counts|] eqn:Hcounts; eauto.
    destruct (PyDict.get counts variant) as [n|]; eauto.
    cbn [snd request_counts].
    destruct (string_dec m model_name) as [->|Hne].
    + rewrite get_set_same. eexists. split; eauto.
      intros v Hv. rewrite mem_set.
      replace c with counts in Hall by congruence.
      rewrite (Hall _ Hv). apply orb_true_r.
    + rewrite get_set_other by auto. eauto.
  - destruct (PyDict.keys (item :: split)); eauto.
Qed.

Lemma route_requests_total model_name split draws : forall r,
  counters_ready r ->
  live_split r model_name = Some split ->
  sumZ (PyDict.values split) = 100 ->
  Forall (fun random_value => 1 <= random_value <= 100) draws ->
  stats_total (get_traffic_stats model_name (route_requests model_name draws r))
  = stats_total (get_traffic_stats model_name r) + Z.of_nat (List.length draws).
Proof.
  induction draws as [|rv draws IH]; intros r Hready Hsplit Hsum Hdraws.
  - simpl. lia.
  - inversion Hdraws as [|? ? Hrv Hrest]; subst.
    cbn [route_requests List.length]. rewrite IH; auto.
    + destruct (route_request_hit model_name rv r split Hready Hsplit)
        as [variant [n [_ [Hn Hroute]]]]; [lia|].
      rewrite Hroute. cbn [snd]. rewrite !stats_total_counts.
      unfold counts_of at 1. cbn [request_counts]. rewrite get_set_same.
      rewrite (sumZ_set _ _ _ _ Hn). lia.
    + now apply route_request_ready.
    + unfold live_split. now rewrite route_request_rules.
Qed.

(** C10, as stated, fails on a stored split that sums to less than 100
    without the fallback being reachable: with a negative weight every draw
    is caught by the first variant and counted, and the empty split is
    answered by the [default] label, which is no variant of it. *)
Lemma route_request_low_sum_without_fallback :
  let split := [("a", 150); ("b", -100)] in
  let r := update_traffic_split "svc" split TrafficRouter_init in
  let r0 := update_traffic_split "svc" [] TrafficRouter_init in
  sumZ (PyDict.values split) < 100
  /\ (forall random_value, 1 <= random_value <= 100 ->
        route_request "svc" random_value r
        = (inr "a",
           {| routing_rules := [("svc", split)];
              request_counts := [("svc", [("a", 1); ("b", 0)])] |}))
  /\ live_split r0 "svc" = Some []
  /\ (forall random_value, route_request "svc" random_value r0 = (inr "default", r0)).
Proof.
  cbv zeta. split; [reflexivity|]. split; [|split; [reflexivity|reflexivity]].
  intros rv Hrv. unfold route_request. cbn.
  destruct (rv <=? 150) eqn:E; [reflexivity|].
  apply Z.leb_gt in E. lia.
Qed.

(** C10 (amended): for a service whose stored split has non-negative weights
    summing to exactly 100, every [route_request] (draw between 1 and 100)
    returns one of the split's variant labels and adds 1 to that variant's
    request counter and to no other, so the total of [get_traffic_stats]
    grows by the number of routed calls; and when the stored split is not
    empty and its non-negative weights sum to less than 100, the draw 100
    takes the fallback: the first variant label is returned and no counter
    moves. *)
Theorem route_request_counts_every_call :
  forall r model_name split,
    counters_ready r ->
    live_split r model_name = Some split ->
    Forall (fun w => 0 <= w) (PyDict.values split) ->
    (sumZ (PyDict.values split) = 100 ->
       (forall random_value, 1 <= random_value <= 100 ->
          exists variant n r',
            route_request model_name random_value r = (inr variant, r')
            /\ In variant (PyDict.keys split)
            /\ PyDict.get (counts_of r model_name) variant = Some n
            /\ PyDict.get (counts_of r' model_name) variant = Some (n + 1)
            /\ (forall other, other <> variant ->
                  PyDict.get (counts_of r' model_name) other
                  = PyDict.get (counts_of r model_name) other)
            /\ stats_total (get_traffic_stats model_name r')
               = stats_total (get_traffic_stats model_name r) + 1)
       /\ (forall draws,
             Forall (fun random_value => 1 <= random_value <= 100) draws ->
             stats_total
               (get_traffic_stats model_name (route_requests model_name draws r))
             = stats_total (get_traffic_stats model_name r)
               + Z.of_nat (List.length draws)))
    /\ (split <> [] -> sumZ (PyDict.values split) < 100 ->
          exists first, hd_error (PyDict.keys split) = Some first
            /\ route_request model_name 100 r = (inr first, r)).
Proof.
  intros r model_name split Hready Hsplit Hnonneg. split.
  - intros Hsum. split.
    + intros rv Hrv.
      destruct (route_request_hit model_name rv r split Hready Hsplit)
        as [variant [n [Hin [Hn Hroute]]]]; [lia|].
      exists variant, n. eexists. split; [exact Hroute|].
      assert (Hc : forall R, counts_of
                {| routing_rules := R;
                   request_counts :=
                     PyDict.set (request_counts r) model_name
                       (PyDict.set (counts_of r model_name) variant (n + 1)) |}
                model_name
              = PyDict.set (counts_of r model_name) variant (n + 1)).
      { intros R. unfold counts_of at 1. cbn [request_counts].
        now rewrite get_set_same. }
      split; [exact Hin|]. split; [exact Hn|].
      split; [|split].
      * rewrite Hc. apply get_set_same.
      * intros other Hne. rewrite Hc. now apply get_set_other.
      * rewrite !stats_total_counts, Hc, (sumZ_set _ _ _ _ Hn). lia.
    + intros draws Hdraws. eapply route_requests_total; eauto.
  - intros Hne Hsum. unfold live_split in Hsplit. unfold route_request.
    rewrite Hsplit. destruct split as [|[first w] rest]; [congruence|].
    exists first. split; [reflexivity|].
    rewrite route_walk_misses; auto; lia.
Qed.

(** The theorem at work on the canary split 5/95 of a fresh router. *)
Lemma route_request_counts_every_call_witness :
  let r := update_traffic_split "svc" (canary_split 5) TrafficRouter_init in
  stats_total (get_traffic_stats "svc" (route_requests "svc" [1; 5; 6; 100] r)) = 4.
Proof.
  cbv zeta.
  pose proof
    (route_request_counts_every_call
       (update_traffic_split "svc" (canary_split 5) TrafficRouter_init)
       "svc" (canary_split 5)
       (counters_ready_update _ _ _ counters_ready_init)
       eq_refl) as H.
  destruct H as [H _].
  - repeat constructor; discriminate.
  - destruct (H eq_refl) as [_ Hmany].
    rewrite (Hmany [1; 5; 6; 100]).
    + reflexivity.
    + repeat constructor; discriminate.
Defined.

(** ** HealthChecker *)

(** What the rules of a list return or raise, run in order on the deployment
    object as each leaves it. *)
Fixpoint rule_outcomes (rules : list rule) (deployment : ModelDeployment.t)
  : list (exn + CheckResult.t) :=
  match rules with
  | [] => []
  | r :: rest => fst (r deployment) :: rule_outcomes rest (snd (r deployment))
  end.

Definition outcome_ok (o : exn + CheckResult.t) : bool :=
  match o with
  | inr check_result => CheckResult.passed check_result
  | inl _ => false
  end.

Definition returned_checks (outcomes : list (exn + CheckResult.t))
  : list CheckResult.t :=
  flat_map (fun o => match o with inr c => [c] | inl _ => [] end) outcomes.

Lemma validate_step_outcome vr deployment (r : rule) :
  let out := validate_step (vr, deployment) r in
  snd out = snd (r deployment)
  /\ ValidationResult.checks (fst out)
     = ValidationResult.checks vr ++ returned_checks [fst (r deployment)]
  /\ ValidationResult.passed (fst out)
     = ValidationResult.passed vr && outcome_ok (fst (r deployment)).
Proof.
  unfold validate_step.
  destruct (r deployment) as [[e|c] d']; cbn.
  - now rewrite app_nil_r, andb_false_r.
  - repeat split.
    destruct (CheckResult.passed c), (ValidationResult.passed vr); reflexivity.
Qed.

(** The loop of [validate_deployment], for any list of rules: every rule
    is run, the results returned are recorded in order, and the flag stays
    true only if every rule returned a passing result. *)
Lemma validate_loop rules : forall vr deployment,
  let out := fold_left validate_step rules (vr, deployment) in
  ValidationResult.checks (fst out)
  = ValidationResult.checks vr ++ returned_checks (rule_outcomes rules deployment)
  /\ ValidationResult.passed (fst out)
     = ValidationResult.passed vr
       && forallb outcome_ok (rule_outcomes rules deployment).
Proof.
  induction rules as [|r rules IH]; intros vr deployment; cbn zeta.
  - simpl. rewrite app_nil_r, andb_true_r. auto.
  - cbn [fold_left rule_outcomes forallb].
    destruct (validate_step_outcome vr deployment r) as [Hd [Hc Hp]].
    destruct (validate_step (vr, deployment) r) as [vr1 d1].
    cbn [fst snd] in Hd, Hc, Hp. subst d1.
    destruct (IH vr1 (snd (r deployment))) as [Hc1 Hp1].
    rewrite Hc1, Hp1, Hc, Hp, <- app_assoc, andb_assoc.
    unfold returned_checks. cbn [flat_map]. rewrite app_nil_r.
    split; reflexivity.
Qed.

Lemma validate_with_outcomes rules deployment :
  ValidationResult.checks (fst (validate_with rules deployment))
  = returned_checks (rule_outcomes rules deployment)
  /\ ValidationResult.passed (fst (validate_with rules deployment))
     = forallb outcome_ok (rule_outcomes rules deployment).
Proof. unfold validate_with. apply validate_loop. Qed.

(** Each check of the pipeline turns the exception of its reading into a
    failed result under its own name. *)
Definition isolates (r : rule) (name : string) (raises : bool) : Prop :=
  forall deployment, exists check_result,
    fst (r deployment) = inr check_result
    /\ CheckResult.name check_result = name
    /\ (raises = true -> CheckResult.passed check_result = false).

Lemma endpoint_connectivity_isolates now env :
  isolates (_validate_endpoint_connectivity now env) "endpoint_connectivity"
    (health_probe_raises env).
Proof.
  intros d. unfold _validate_endpoint_connectivity, health_probe_raises.
  destruct (health_probe env); eexists; cbn; repeat split; auto; discriminate.
Qed.

Lemma model_response_isolates env :
  isolates (_validate_model_response env) "model_response_validation"
    (model_call_raises env).
Proof.
  intros d. unfold _validate_model_response, model_call_raises.
  destruct (run_test_cases env test_cases 0 0 []) as [e|[n results]];
    eexists; cbn [fst]; repeat split; auto; discriminate.
Qed.

Lemma performance_isolates now env :
  isolates (_validate_performance_metrics now env) "performance_validation"
    (latency_sample_raises env).
Proof.
  intros d. unfold _validate_performance_metrics, latency_sample_raises.
  destruct (collect_samples env (seq 0 5) []) as [e|times].
  - eexists; cbn [fst]; repeat split; auto.
  - destruct (nth_error (sorted times) 4);
      eexists; cbn [fst]; repeat split; auto; discriminate.
Qed.

Lemma api_compatibility_isolates env :
  isolates (_validate_api_compatibility env) "api_compatibility"
    (compatibility_probe_raises env).
Proof.
  intros d. unfold _validate_api_compatibility, compatibility_probe_raises.
  destruct (compatibility_probe env); eexists; cbn; repeat split; auto; discriminate.
Qed.

Lemma pipeline_outcomes now env deployment :
  exists c1 c2 c3 c4,
    rule_outcomes (validation_rules now env) deployment
    = [inr c1; inr c2; inr c3; inr c4]
    /\ map CheckResult.name [c1; c2; c3; c4] = check_names
    /\ (health_probe_raises env = true -> CheckResult.passed c1 = false)
    /\ (model_call_raises env = true -> CheckResult.passed c2 = false)
    /\ (latency_sample_raises env = true -> CheckResult.passed c3 = false)
    /\ (compatibility_probe_raises env = true -> CheckResult.passed c4 = false).
Proof.
  unfold validation_rules. cbn [rule_outcomes].
  destruct (endpoint_connectivity_isolates now env deployment) as [c1 [E1 [N1 R1]]].
  set (d1 := snd (_validate_endpoint_connectivity now env deployment)).
  destruct (model_response_isolates env d1) as [c2 [E2 [N2 R2]]].
  set (d2 := snd (_validate_model_response env d1)).
  destruct (performance_isolates now env d2) as [c3 [E3 [N3 R3]]].
  set (d3 := snd (_validate_performance_metrics now env d2)).
  destruct (api_compatibility_isolates env d3) as [c4 [E4 [N4 R4]]].
  exists c1, c2, c3, c4. rewrite E1, E2, E3, E4.
  cbn [map]. rewrite N1, N2, N3, N4. repeat split; auto.
Qed.

(** C9: in every [validate_deployment] run the four checks all run and leave
    their results in order; a check in which an exception is raised leaves a
    failed result at its place; and the report's [passed] flag is false
    exactly when some check's result is a failed one. *)
Theorem validate_deployment_isolates_checks :
  forall now env deployment,
    let report := fst (validate_deployment now env deployment) in
    map CheckResult.name (ValidationResult.checks report) = check_names
    /\ (forall i, nth i (raises_in env) false = true ->
          exists check_result,
            nth_error (ValidationResult.checks report) i = Some check_result
            /\ CheckResult.passed check_result = false)
    /\ (ValidationResult.passed report = false <->
          exists check_result,
            In check_result (ValidationResult.checks report)
            /\ CheckResult.passed check_result = false).
Proof.
  intros now env deployment report. subst report. unfold validate_deployment.
  destruct (validate_with_outcomes (validation_rules now env) deployment)
    as [Hchecks Hpassed].
  destruct (pipeline_outcomes now env deployment)
    as [c1 [c2 [c3 [c4 [Hout [Hnames [R1 [R2 [R3 R4]]]]]]]]].
  rewrite Hchecks, Hpassed, Hout.
  cbn [returned_checks flat_map app forallb outcome_ok].
  split; [exact Hnames|]. split.
  - intros i Hi. unfold raises_in in Hi.
    destruct i as [|[|[|[|i]]]]; cbn [nth nth_error] in *.
    + exists c1. split; [reflexivity | now apply R1].
    + exists c2. split; [reflexivity | now apply R2].
    + exists c3. split; [reflexivity | now apply R3].
    + exists c4. split; [reflexivity | now apply R4].
    + destruct i; discriminate.
  - split.
    + intros H.
      destruct (CheckResult.passed c1) eqn:P1; [|exists c1; split; [cbn; tauto | assumption]].
      destruct (CheckResult.passed c2) eqn:P2; [|exists c2; split; [cbn; tauto | assumption]].
      destruct (CheckResult.passed c3) eqn:P3; [|exists c3; split; [cbn; tauto | assumption]].
      destruct (CheckResult.passed c4) eqn:P4; [|exists c4; split; [cbn; tauto | assumption]].
      discriminate.
    + intros [c [Hin Hc]]. cbn [In] in Hin.
      destruct Hin as [<-|[<-|[<-|[<-|[]]]]]; rewrite Hc;
        rewrite ?andb_false_r; reflexivity.
Qed.

(** ** Deployment ids *)

(** No ["-"] in a string. *)
Fixpoint dash_free (s : string) : bool :=
  match s with
  | EmptyString => true
  | String c rest => negb (Ascii.eqb c "-") && dash_free rest
  end.

Lemma dash_free_app_dash s t : dash_free (s ++ String "-" t) = false.
Proof.
  induction s as [|c s IH]; simpl; auto.
  rewrite IH. apply andb_false_r.
Qed.

Lemma dash_free_slot_value s : dash_free (slot_value s) = true.
Proof. destruct s; reflexivity. Qed.

Lemma dash_free_string_of_uint u : dash_free (NilEmpty.string_of_uint u) = true.
Proof. induction u; simpl; auto. Qed.

Lemma dash_free_decimal n : dash_free (decimal n) = true.
Proof. apply dash_free_string_of_uint. Qed.

Lemma append_cancel_l s : forall x y, (s ++ x = s ++ y)%string -> x = y.
Proof. induction s as [|c s IH]; simpl; intros x y H; auto. injection H. auto. Qed.

Lemma string_app_assoc s : forall t u, ((s ++ t) ++ u = s ++ t ++ u)%string.
Proof. induction s as [|c s IH]; simpl; intros; auto. now rewrite IH. Qed.

(** The part after the last dash determines the cut. *)
Lemma split_last_dash x : forall y a b,
  dash_free a = true -> dash_free b = true ->
  (x ++ "-" ++ a = y ++ "-" ++ b)%string -> x = y /\ a = b.
Proof.
  induction x as [|c x IH]; intros [|c' y] a b Ha Hb H; simpl in H.
  - injection H. auto.
  - injection H as _ H. rewrite H, dash_free_app_dash in Ha. discriminate.
  - injection H as _ H. rewrite <- H, dash_free_app_dash in Hb. discriminate.
  - injection H as -> H. destruct (IH y a b Ha Hb H). subst. auto.
Qed.

Lemma make_deployment_id_slot m v s ts v' s' ts' :
  make_deployment_id m v s ts = make_deployment_id m v' s' ts' -> s = s'.
Proof.
  unfold make_deployment_id. intros H.
  apply append_cancel_l in H. apply (append_cancel_l "-") in H.
  assert (H' : ((v ++ "-" ++ slot_value s) ++ "-" ++ decimal ts
                = (v' ++ "-" ++ slot_value s') ++ "-" ++ decimal ts')%string).
  { rewrite !string_app_assoc. exact H. }
  apply split_last_dash in H' as [H' _]; auto using dash_free_decimal.
  apply split_last_dash in H' as [_ H']; auto using dash_free_slot_value.
  destruct s, s'; auto; discriminate.
Qed.

(** ** The registry of deployments *)

Section RegistryFacts.
Context {V : Type}.
Implicit Types (d : dict V) (k : string) (v : V) (f : V -> V).

Lemma In_set_inv d k0 v0 k v :
  In (k, v) (PyDict.set d k0 v0) -> (k = k0 /\ v = v0) \/ In (k, v) d.
Proof.
  induction d as [|[k' v'] d IH]; simpl.
  - intros [[= <- <-]|[]]. auto.
  - destruct (String.eqb k0 k') eqn:E; simpl.
    + apply String.eqb_eq in E. subst k'. intros [[= <- <-]|H]; auto.
    + intros [H|H]; auto. destruct (IH H); auto.
Qed.

Lemma keys_update_entry k f d : PyDict.keys (update_entry k f d) = PyDict.keys d.
Proof.
  unfold update_entry. destruct (PyDict.get d k) eqn:E; auto.
  rewrite keys_set. unfold PyDict.mem. now rewrite E.
Qed.

Lemma In_update_entry k0 f d k v :
  In (k, v) (update_entry k0 f d) ->
  exists v0, In (k, v0) d /\ (v = v0 \/ (k = k0 /\ v = f v0)).
Proof.
  unfold update_entry. destruct (PyDict.get d k0) as [v0|] eqn:E.
  - intros H. apply In_set_inv in H as [[-> ->]|H]; eauto.
    exists v0. split; auto. now apply get_In.
  - eauto.
Qed.

Lemma get_update_entry_same k f d v :
  PyDict.get d k = Some v -> PyDict.get (update_entry k f d) k = Some (f v).
Proof. intros H. unfold update_entry. rewrite H. apply get_set_same. Qed.

Lemma get_update_entry_other k f d k' :
  k' <> k -> PyDict.get (update_entry k f d) k' = PyDict.get d k'.
Proof.
  intros H. unfold update_entry. destruct (PyDict.get d k); auto.
  now apply get_set_other.
Qed.

Lemma keys_map_values f d : PyDict.keys (map_values f d) = PyDict.keys d.
Proof.
  unfold PyDict.keys, map_values. rewrite map_map.
  apply map_ext. now intros [k v].
Qed.

Lemma In_map_values f d k v :
  In (k, v) (map_values f d) -> exists v0, In (k, v0) d /\ v = f v0.
Proof.
  unfold map_values. intros H. apply in_map_iff in H as [[k0 v0] [[= <- <-] H]].
  eauto.
Qed.

Lemma get_map_values f d k :
  PyDict.get (map_values f d) k = option_map f (PyDict.get d k).
Proof.
  induction d as [|[k' v'] d IH]; simpl; auto.
  destruct (String.eqb k k'); auto.
Qed.

Lemma keys_mutate_first p f d found d' :
  mutate_first p f d = Some (found, d') -> PyDict.keys d' = PyDict.keys d.
Proof.
  revert found d'.
  induction d as [|[k v] d IH]; simpl; intros found d' H; [discriminate|].
  destruct (p v).
  - now injection H as <- <-.
  - destruct (mutate_first p f d) as [[x rest]|]; [|discriminate].
    injection H as <- <-. simpl. f_equal. now apply (IH x).
Qed.

Lemma In_mutate_first p f d found d' k v :
  mutate_first p f d = Some (found, d') ->
  In (k, v) d' ->
  exists v0, In (k, v0) d /\ (v = v0 \/ (v = f v0 /\ p v0 = true)).
Proof.
  revert found d'.
  induction d as [|[k1 v1] d IH]; simpl; intros found d' H Hin; [discriminate|].
  destruct (p v1) eqn:E.
  - injection H as <- <-. destruct Hin as [[= <- <-]|Hin].
    + exists v1. auto.
    + exists v. auto.
  - destruct (mutate_first p f d) as [[x rest]|]; [|discriminate].
    injection H as <- <-. destruct Hin as [[= <- <-]|Hin].
    + exists v1. auto.
    + destruct (IH x rest eq_refl Hin) as [v0 [H0 H1]]. exists v0. auto.
Qed.

(** The first match of the search, as a prefix of misses followed by it. *)
Lemma mutate_first_found p f d found d' :
  mutate_first p f d = Some (found, d') ->
  exists before k after,
    d = before ++ (k, found) :: after
    /\ d' = before ++ (k, f found) :: after
    /\ p found = true
    /\ Forall (fun entry => p (snd entry) = false) before.
Proof.
  revert found d'.
  induction d as [|[k v] d IH]; simpl; intros found d' H; [discriminate|].
  destruct (p v) eqn:E.
  - injection H as <- <-. exists [], k, d. auto.
  - destruct (mutate_first p f d) as [[x rest]|]; [|discriminate].
    injection H as <- <-.
    destruct (IH x rest eq_refl) as [before [k0 [after [H1 [H2 [H3 H4]]]]]].
    exists ((k, v) :: before), k0, after. subst. repeat split; auto.
Qed.

Lemma mutate_first_none p f d :
  mutate_first p f d = None -> forall k v, In (k, v) d -> p v = false.
Proof.
  induction d as [|[k1 v1] d IH]; simpl; intros H k v Hin; [tauto|].
  destruct (p v1) eqn:E; [discriminate|].
  destruct (mutate_first p f d) as [[x rest]|]; [discriminate|].
  destruct Hin as [[= <- <-]|Hin]; eauto.
Qed.

Lemma filter_single (p : V -> bool) d k v :
  PyDict.wf d ->
  PyDict.get d k = Some v -> p v = true ->
  (forall k' v', In (k', v') d -> k' <> k -> p v' = false) ->
  filter p (PyDict.values d) = [v].
Proof.
  unfold PyDict.wf, PyDict.keys, PyDict.values.
  induction d as [|[k1 v1] d IH]; simpl; intros Hwf Hget Hp Hothers; [discriminate|].
  inversion Hwf as [|? ? Hnotin Hwf']; subst.
  assert (Hrest : forall l, (forall k' v', In (k', v') l -> p v' = false) ->
                            filter p (map snd l) = []).
  { induction l as [|[k2 v2] l IHl]; simpl; intros H; auto.
    rewrite (H k2 v2) by auto. apply IHl. intros; eapply H; eauto. }
  destruct (String.eqb k k1) eqn:E.
  - apply String.eqb_eq in E. subst k1. injection Hget as ->. rewrite Hp.
    f_equal. apply Hrest. intros k' v' Hin. apply (Hothers k' v'); auto.
    intros ->. apply Hnotin. change k with (fst (k, v')). now apply in_map.
  - apply String.eqb_neq in E. rewrite (Hothers k1 v1); auto.
    apply IH; auto. intros k' v' Hin. apply Hothers. auto.
Qed.

End RegistryFacts.

(** ** BlueGreenDeploymentManager *)

(** The checks change the health fields of a deployment and nothing of its
    identity or status. *)
Definition same_identity (d d' : ModelDeployment.t) : Prop :=
  ModelDeployment.deployment_id d' = ModelDeployment.deployment_id d
  /\ ModelDeployment.model_name d' = ModelDeployment.model_name d
  /\ ModelDeployment.slot d' = ModelDeployment.slot d
  /\ ModelDeployment.status d' = ModelDeployment.status d.

Lemma same_identity_refl d : same_identity d d.
Proof. repeat split. Qed.

Lemma same_identity_trans d1 d2 d3 :
  same_identity d1 d2 -> same_identity d2 d3 -> same_identity d1 d3.
Proof. unfold same_identity. intuition congruence. Qed.

Lemma validation_rules_identity now env :
  Forall (fun r : rule => forall d, same_identity d (snd (r d)))
    (validation_rules now env).
Proof.
  unfold validation_rules.
  constructor; [|constructor; [|constructor; [|constructor; [|constructor]]]];
    intros d.
  - unfold _validate_endpoint_connectivity.
    destruct (health_probe env); repeat split.
  - unfold _validate_model_response.
    destruct (run_test_cases env test_cases 0 0 []) as [e|[n l]]; repeat split.
  - unfold _validate_performance_metrics.
    destruct (collect_samples env (seq 0 5) []) as [e|times]; [repeat split|].
    destruct (nth_error (sorted times) 4); repeat split.
  - unfold _validate_api_compatibility.
    destruct (compatibility_probe env); repeat split.
Qed.

Lemma validate_fold_identity rules :
  Forall (fun r : rule => forall d, same_identity d (snd (r d))) rules ->
  forall vr d, same_identity d (snd (fold_left validate_step rules (vr, d))).
Proof.
  induction 1 as [|r rules Hr _ IH]; intros vr d; cbn [fold_left snd].
  - apply same_identity_refl.
  - destruct (validate_step_outcome vr d r) as [Hd _].
    destruct (validate_step (vr, d) r) as [vr1 d1]. cbn [snd] in Hd. subst d1.
    eapply same_identity_trans; [apply Hr | apply IH].
Qed.

Lemma validate_with_identity rules :
  Forall (fun r : rule => forall d, same_identity d (snd (r d))) rules ->
  forall d, same_identity d (snd (validate_with rules d)).
Proof. intros Hrules d. now apply validate_fold_identity. Qed.

Lemma validate_deployment_identity now env d :
  same_identity d (snd (validate_deployment now env d)).
Proof. apply validate_with_identity, validation_rules_identity. Qed.

(** What the registry keeps true: keys are unique; an entry's key is an id
    made for its model and slot; and an [ACTIVE] entry sits in the slot the
    pointer of its model names. *)
Definition entry_ok (slots : dict DeploymentSlot) (k : string)
  (d : ModelDeployment.t) : Prop :=
  (exists v ts,
     k = make_deployment_id (ModelDeployment.model_name d) v
           (ModelDeployment.slot d) ts)
  /\ (ModelDeployment.status d = ACTIVE ->
      PyDict.get slots (ModelDeployment.model_name d)
      = Some (ModelDeployment.slot d)).

Definition registry_inv (st : BlueGreenDeploymentManager) : Prop :=
  PyDict.wf (deployments st)
  /\ forall k d, In (k, d) (deployments st) -> entry_ok (active_slots st) k d.

Lemma registry_inv_init router : registry_inv (BlueGreen_init router).
Proof. split; [constructor | intros k d []]. Qed.

Lemma registry_inv_router router st :
  registry_inv st -> registry_inv (with_router router st).
Proof. intros H. exact H. Qed.

Lemma registry_inv_mark st id s :
  s <> ACTIVE -> registry_inv st ->
  registry_inv
    (with_deployments
       (update_entry id (ModelDeployment.with_status s) (deployments st)) st).
Proof.
  intros Hs [Hwf Hall]. split; cbn.
  - unfold PyDict.wf. now rewrite keys_update_entry.
  - intros k d Hin.
    apply In_update_entry in Hin as [d0 [Hin [->|[-> ->]]]]; [auto|].
    destruct (Hall _ _ Hin) as [Hid _]. split; [exact Hid|].
    cbn. congruence.
Qed.

Lemma registry_inv_register st id dep :
  registry_inv st ->
  (exists v ts,
     id = make_deployment_id (ModelDeployment.model_name dep) v
            (ModelDeployment.slot dep) ts) ->
  ModelDeployment.status dep <> ACTIVE ->
  registry_inv (with_deployments (PyDict.set (deployments st) id dep) st).
Proof.
  intros [Hwf Hall] Hid Hs. split; cbn.
  - now apply wf_set.
  - intros k d Hin. apply In_set_inv in Hin as [[-> ->]|Hin]; [|auto].
    split; [exact Hid | congruence].
Qed.

(** Moving the pointer of a model to a slot keeps the registry sound when
    the only entries left [ACTIVE] for the model are in that slot. *)
Lemma registry_inv_repoint st router ds' model_name slot :
  registry_inv st ->
  PyDict.keys ds' = PyDict.keys (deployments st) ->
  (forall k d, In (k, d) ds' ->
     exists d0, In (k, d0) (deployments st)
       /\ ModelDeployment.model_name d = ModelDeployment.model_name d0
       /\ ModelDeployment.slot d = ModelDeployment.slot d0
       /\ (ModelDeployment.status d = ACTIVE ->
           (ModelDeployment.model_name d0 = model_name
            /\ ModelDeployment.slot d0 = slot)
           \/ (ModelDeployment.model_name d0 <> model_name
               /\ ModelDeployment.status d0 = ACTIVE))) ->
  registry_inv
    {| traffic_router := router;
       deployments := ds';
       active_slots := PyDict.set (active_slots st) model_name slot |}.
Proof.
  intros [Hwf Hall] Hkeys Hentries. split; cbn.
  - unfold PyDict.wf. now rewrite Hkeys.
  - intros k d Hin.
    destruct (Hentries _ _ Hin) as [d0 [Hin0 [Hm [Hs Hact]]]].
    destruct (Hall _ _ Hin0) as [Hid Hptr]. split.
    + now rewrite Hm, Hs.
    + intros Hactive. rewrite Hm, Hs.
      destruct (Hact Hactive) as [[-> ->]|[Hne Hactive0]].
      * apply get_set_same.
      * rewrite get_set_other by auto. auto.
Qed.

Lemma mark_slot_inactive_entry model_name slot ds k d :
  In (k, d) (mark_slot_inactive model_name slot ds) ->
  exists d0, In (k, d0) ds
    /\ ModelDeployment.model_name d = ModelDeployment.model_name d0
    /\ ModelDeployment.slot d = ModelDeployment.slot d0
    /\ ((ModelDeployment.model_name d0 = model_name
         /\ ModelDeployment.slot d0 = slot
         /\ ModelDeployment.status d = INACTIVE
         /\ ModelDeployment.traffic_percentage d = 0)
        \/ (~ (ModelDeployment.model_name d0 = model_name
               /\ ModelDeployment.slot d0 = slot)
            /\ d = d0)).
Proof.
  unfold mark_slot_inactive. intros H.
  apply In_map_values in H as [d0 [Hin ->]]. exists d0. split; [exact Hin|].
  destruct (String.eqb (ModelDeployment.model_name d0) model_name) eqn:Em;
    [destruct (slot_eqb (ModelDeployment.slot d0) slot) eqn:Es|]; cbn.
  - apply String.eqb_eq in Em. repeat split. left.
    repeat split; auto. destruct (ModelDeployment.slot d0), slot; auto; discriminate.
  - repeat split. right. split; auto. intros [_ <-].
    destruct (ModelDeployment.slot d0); discriminate.
  - apply String.eqb_neq in Em. repeat split. right. split; auto. tauto.
Qed.

Lemma slot_eqb_eq a b : slot_eqb a b = true <-> a = b.
Proof. destruct a, b; simpl; split; congruence. Qed.

Lemma status_eqb_eq a b : status_eqb a b = true <-> a = b.
Proof. destruct a, b; simpl; split; congruence. Qed.

Lemma is_rollback_candidate_spec model_name previous_slot d :
  is_rollback_candidate model_name previous_slot d = true <->
  ModelDeployment.model_name d = model_name
  /\ ModelDeployment.slot d = previous_slot
  /\ ModelDeployment.status d = INACTIVE.
Proof.
  unfold is_rollback_candidate.
  rewrite !andb_true_iff, String.eqb_eq, slot_eqb_eq, status_eqb_eq. tauto.
Qed.

Lemma registry_inv_rollback model_name st :
  registry_inv st -> registry_inv (snd (rollback_deployment model_name st)).
Proof.
  intros Hinv. unfold rollback_deployment.
  destruct (PyDict.get (active_slots st) model_name) as [current|] eqn:Hcur;
    [|exact Hinv].
  match goal with
  | |- context [mutate_first ?p ?f ?d] =>
      destruct (mutate_first p f d) as [[previous ds]|] eqn:Hfound
  end; [|exact Hinv].
  cbn [snd]. apply registry_inv_repoint; auto.
  - unfold mark_slot_inactive. rewrite keys_map_values.
    eapply keys_mutate_first; eauto.
  - intros k d Hin.
    apply mark_slot_inactive_entry in Hin as [d1 [Hin1 [Hm1 [Hs1 Hcase]]]].
    destruct (In_mutate_first _ _ _ _ _ _ _ Hfound Hin1) as [d0 [Hin0 Hd1]].
    exists d0. split; [exact Hin0|].
    destruct Hd1 as [->|[-> Hcand]].
    + split; [exact Hm1|]. split; [exact Hs1|]. intros Hact.
      destruct Hcase as [[_ [_ [Hst _]]]|[Hnot ->]]; [congruence|].
      right. split; [|exact Hact]. intros Hmodel. apply Hnot. split; [exact Hmodel|].
      destruct Hinv as [_ Hall]. destruct (Hall _ _ Hin0) as [_ Hptr].
      specialize (Hptr Hact). rewrite Hmodel in Hptr. congruence.
    + apply is_rollback_candidate_spec in Hcand as [Hmodel [Hslot _]].
      split; [exact Hm1|]. split; [exact Hs1|]. intros _. left. auto.
Qed.

(** The registry after the marking of [_complete_blue_green_switch]. *)
Lemma switch_marking_entry model_name (old_slot : option DeploymentSlot) ds k d1 :
  In (k, d1)
    match old_slot with
    | Some old => mark_slot_inactive model_name old ds
    | None => ds
    end ->
  exists d0, In (k, d0) ds
    /\ ModelDeployment.model_name d1 = ModelDeployment.model_name d0
    /\ ModelDeployment.slot d1 = ModelDeployment.slot d0
    /\ (ModelDeployment.status d1 = ACTIVE ->
        d1 = d0
        /\ forall old, old_slot = Some old ->
             ~ (ModelDeployment.model_name d0 = model_name
                /\ ModelDeployment.slot d0 = old))
    /\ (forall old, old_slot = Some old ->
          ModelDeployment.model_name d0 = model_name ->
          ModelDeployment.slot d0 = old ->
          ModelDeployment.status d1 = INACTIVE
          /\ ModelDeployment.traffic_percentage d1 = 0)
    /\ ((forall old, old_slot = Some old ->
           ~ (ModelDeployment.model_name d0 = model_name
              /\ ModelDeployment.slot d0 = old)) -> d1 = d0).
Proof.
  destruct old_slot as [old|].
  - intros H. apply mark_slot_inactive_entry in H as [d0 [Hin [Hm [Hs Hcase]]]].
    exists d0. split; [exact Hin|]. split; [exact Hm|]. split; [exact Hs|].
    destruct Hcase as [[Hmodel [Hslot [Hst Htr]]]|[Hnot ->]].
    + split; [congruence|]. split.
      * intros o [= <-] _ _. auto.
      * intros Hnone. exfalso. apply (Hnone old eq_refl). auto.
    + split.
      * intros _. split; auto. intros o [= <-]. exact Hnot.
      * split; auto. intros o [= <-] H1 H2. tauto.
  - intros H. exists d1. repeat split; auto; discriminate.
Qed.

Lemma registry_inv_switch st model_name new_slot id dep :
  registry_inv st ->
  PyDict.get (deployments st) id = Some dep ->
  ModelDeployment.model_name dep = model_name ->
  ModelDeployment.slot dep = new_slot ->
  (forall old, PyDict.get (active_slots st) model_name = Some old ->
     old <> new_slot) ->
  registry_inv
    (with_deployments
       (update_entry id (ModelDeployment.with_status ACTIVE)
          (deployments (_complete_blue_green_switch model_name new_slot st)))
       (_complete_blue_green_switch model_name new_slot st)).
Proof.
  intros Hinv Hdep Hmodel Hslot Hold.
  unfold _complete_blue_green_switch, with_deployments.
  cbn [deployments traffic_router active_slots].
  apply registry_inv_repoint; auto.
  - rewrite keys_update_entry.
    destruct (PyDict.get (active_slots st) model_name); auto.
    unfold mark_slot_inactive. apply keys_map_values.
  - intros k d Hin.
    apply In_update_entry in Hin as [d1 [Hin1 Hd]].
    apply switch_marking_entry in Hin1
      as [d0 [Hin0 [Hm [Hs [Hact _]]]]].
    exists d0. split; [exact Hin0|].
    destruct Hinv as [Hwf Hall].
    destruct Hd as [->|[-> ->]].
    + split; [exact Hm|]. split; [exact Hs|]. intros Hactive.
      destruct (Hact Hactive) as [-> Hnot].
      right. split; [|exact Hactive]. intros Hmodel0.
      destruct (Hall _ _ Hin0) as [_ Hptr]. specialize (Hptr Hactive).
      rewrite Hmodel0 in Hptr. apply (Hnot _ Hptr). auto.
    + cbn. split; [exact Hm|]. split; [exact Hs|]. intros _. left.
      rewrite (In_get_wf _ _ _ Hwf Hin0) in Hdep. injection Hdep as ->. auto.
Qed.

Lemma gradual_shift_state env model_name dep st :
  snd (_gradual_traffic_shift env model_name dep st)
  = with_router
      (snd (shift_loop env model_name dep traffic_steps (traffic_router st))) st.
Proof.
  unfold _gradual_traffic_shift.
  now destruct (shift_loop env model_name dep traffic_steps (traffic_router st)).
Qed.

Lemma registry_inv_deploy model_name model_version model_config now env st :
  registry_inv st ->
  registry_inv
    (snd (deploy_new_version model_name model_version model_config now env st)).
Proof.
  intros Hinv. unfold deploy_new_version, _deploy_to_azure.
  cbn [ModelDeployment.model_name ModelDeployment.slot].
  set (new_slot :=
         if slot_eqb
              match PyDict.get (active_slots st) model_name with
              | Some s => s
              | None => BLUE
              end BLUE
         then GREEN else BLUE).
  set (id := make_deployment_id model_name model_version new_slot now).
  destruct (provisioning env) as [e|].
  - cbn [snd]. apply registry_inv_mark; [discriminate | exact Hinv].
  - match goal with
    | |- context [validate_deployment now env ?d] =>
        pose proof (validate_deployment_identity now env d) as Hsame;
        destruct (validate_deployment now env d) as [vr dep] eqn:Hval
    end.
    destruct Hsame as [_ [Hm [Hs Hst]]]. cbn in Hm, Hs, Hst.
    assert (Hreg : registry_inv
                     (with_deployments (PyDict.set (deployments st) id dep) st)).
    { apply registry_inv_register; auto.
      - exists model_version, now. now rewrite Hm, Hs.
      - congruence. }
    destruct (negb (ValidationResult.passed vr)).
    + cbn [snd]. apply (registry_inv_mark _ id FAILED); [discriminate | exact Hreg].
    + pose proof (gradual_shift_state env model_name dep
                    (with_deployments (PyDict.set (deployments st) id dep) st))
        as Hshift.
      destruct (_gradual_traffic_shift env model_name dep
                  (with_deployments (PyDict.set (deployments st) id dep) st))
        as [[|details] st2]; cbn [snd] in Hshift |- *; subst st2.
      * apply registry_inv_switch with (dep := dep).
        -- apply registry_inv_router. exact Hreg.
        -- cbn. apply get_set_same.
        -- exact Hm.
        -- exact Hs.
        -- cbn. intros old Hold. subst new_slot. rewrite Hold.
           destruct old; discriminate.
      * unfold _rollback_deployment. apply registry_inv_rollback.
        apply (registry_inv_mark _ id FAILED); [discriminate|].
        apply registry_inv_router. exact Hreg.
Qed.

Lemma reachable_registry_inv st : bg_reachable st -> registry_inv st.
Proof.
  induction 1.
  - apply registry_inv_init.
  - now apply registry_inv_deploy.
  - now apply registry_inv_rollback.
  - now apply registry_inv_router.
Qed.

(** The slot a new version goes to: the one the pointer does not name (the
    first lines of [deploy_new_version]). *)
Definition inactive_slot (st : BlueGreenDeploymentManager) (model_name : string)
  : DeploymentSlot :=
  if slot_eqb
       match PyDict.get (active_slots st) model_name with
       | Some s => s
       | None => BLUE
       end BLUE
  then GREEN else BLUE.

Lemma inactive_slot_not_active st model_name old :
  PyDict.get (active_slots st) model_name = Some old ->
  old <> inactive_slot st model_name.
Proof. unfold inactive_slot. intros ->. destruct old; discriminate. Qed.

(** The state a successful [deploy_new_version] ends in. *)
Lemma deploy_success_state model_name model_version model_config now env st
  id slot endpoint st' :
  deploy_new_version model_name model_version model_config now env st
  = (Deployed id slot endpoint, st') ->
  exists dep router,
    let new_slot := inactive_slot st model_name in
    let switched :=
      _complete_blue_green_switch model_name new_slot
        (with_router router
           (with_deployments (PyDict.set (deployments st) id dep) st)) in
    id = make_deployment_id model_name model_version new_slot now
    /\ ModelDeployment.model_name dep = model_name
    /\ ModelDeployment.slot dep = new_slot
    /\ ModelDeployment.status dep = STAGING
    /\ st' = with_deployments
               (update_entry id (ModelDeployment.with_status ACTIVE)
                  (deployments switched))
               switched.
Proof.
  unfold deploy_new_version, _deploy_to_azure.
  cbn [ModelDeployment.model_name ModelDeployment.slot].
  fold (inactive_slot st model_name).
  set (new_slot := inactive_slot st model_name).
  set (new_id := make_deployment_id model_name model_version new_slot now).
  destruct (provisioning env) as [e|]; [discriminate|].
  match goal with
  | |- context [validate_deployment now env ?d] =>
      pose proof (validate_deployment_identity now env d) as Hsame;
      destruct (validate_deployment now env d) as [vr dep] eqn:Hval
  end.
  destruct Hsame as [_ [Hm [Hs Hst]]]. cbn in Hm, Hs, Hst.
  destruct (negb (ValidationResult.passed vr)); [discriminate|].
  pose proof (gradual_shift_state env model_name dep
                (with_deployments (PyDict.set (deployments st) new_id dep) st))
    as Hshift.
  destruct (_gradual_traffic_shift env model_name dep
              (with_deployments (PyDict.set (deployments st) new_id dep) st))
    as [[|details] st2]; [|discriminate].
  cbn [snd] in Hshift. subst st2. intros [= <- _ _ <-].
  eexists dep, _. cbv zeta. repeat split; auto.
Qed.

(** C7: after every successful [deploy_new_version], from any state the
    manager can be in, exactly one deployment of the service in the registry
    is [ACTIVE] (the new one), and every deployment of the service that was
    [ACTIVE] before the call is still registered, [INACTIVE], with a
    [traffic_percentage] of 0. *)
Theorem deploy_success_single_active :
  forall st model_name model_version model_config now env id slot endpoint st',
    bg_reachable st ->
    deploy_new_version model_name model_version model_config now env st
    = (Deployed id slot endpoint, st') ->
    (exists d,
       deployments_with_status model_name ACTIVE st' = [d]
       /\ PyDict.get (deployments st') id = Some d
       /\ ModelDeployment.slot d = inactive_slot st model_name)
    /\ (forall k previous,
          PyDict.get (deployments st) k = Some previous ->
          ModelDeployment.model_name previous = model_name ->
          ModelDeployment.status previous = ACTIVE ->
          exists d',
            PyDict.get (deployments st') k = Some d'
            /\ ModelDeployment.deployment_id d'
               = ModelDeployment.deployment_id previous
            /\ ModelDeployment.status d' = INACTIVE
            /\ ModelDeployment.traffic_percentage d' = 0).
Proof.
  intros st model_name model_version model_config now env id slot endpoint st'
    Hreach Hdeploy.
  pose proof (reachable_registry_inv _ Hreach) as [Hwf Hall].
  assert (Hinv' : registry_inv st').
  { replace st' with
      (snd (deploy_new_version model_name model_version model_config now env st))
      by now rewrite Hdeploy.
    apply registry_inv_deploy. now split. }
  destruct (deploy_success_state _ _ _ _ _ _ _ _ _ _ Hdeploy)
    as [dep [router [Hid [Hm [Hs [Hst ->]]]]]].
  set (new_slot := inactive_slot st model_name) in *.
  unfold _complete_blue_green_switch, with_deployments in *.
  cbn [deployments traffic_router active_slots with_router] in *.
  set (ds1 := match PyDict.get (active_slots st) model_name with
              | Some old =>
                  mark_slot_inactive model_name old
                    (PyDict.set (deployments st) id dep)
              | None => PyDict.set (deployments st) id dep
              end) in *.
  assert (Hget1 : forall k,
            PyDict.get ds1 k
            = option_map
                (fun d =>
                   match PyDict.get (active_slots st) model_name with
                   | Some old =>
                       if String.eqb (ModelDeployment.model_name d) model_name
                          && slot_eqb (ModelDeployment.slot d) old
                       then ModelDeployment.with_traffic_percentage 0
                              (ModelDeployment.with_status INACTIVE d)
                       else d
                   | None => d
                   end)
                (PyDict.get (PyDict.set (deployments st) id dep) k)).
  { intros k. subst ds1.
    destruct (PyDict.get (active_slots st) model_name) as [old|].
    - unfold mark_slot_inactive. apply get_map_values.
    - now destruct (PyDict.get (PyDict.set (deployments st) id dep) k). }
  assert (Hnew : PyDict.get ds1 id = Some dep).
  { rewrite Hget1, get_set_same. cbn [option_map].
    destruct (PyDict.get (active_slots st) model_name) as [old|] eqn:Hold; auto.
    apply inactive_slot_not_active in Hold. fold new_slot in Hold.
    rewrite Hs. destruct (slot_eqb new_slot old) eqn:E.
    - apply slot_eqb_eq in E. congruence.
    - now rewrite andb_false_r. }
  split.
  - exists (ModelDeployment.with_status ACTIVE dep). split; [|split].
    + unfold deployments_with_status. cbn [deployments].
      apply filter_single with (k := id).
      * apply Hinv'.
      * now apply get_update_entry_same.
      * cbn. rewrite Hm, String.eqb_refl. reflexivity.
      * intros k' d' Hin Hne.
        apply In_update_entry in Hin as [d1 [Hin1 [->|[-> _]]]]; [|congruence].
        apply switch_marking_entry in Hin1 as [d0 [Hin0 [Hm0 [Hs0 [Hact _]]]]].
        apply In_set_inv in Hin0 as [[-> _]|Hin0]; [congruence|].
        destruct (String.eqb (ModelDeployment.model_name d1) model_name) eqn:Em;
          [|reflexivity].
        destruct (status_eqb (ModelDeployment.status d1) ACTIVE) eqn:Ea;
          [|reflexivity].
        exfalso. apply String.eqb_eq in Em. apply status_eqb_eq in Ea.
        destruct (Hact Ea) as [-> Hnot].
        destruct (Hall _ _ Hin0) as [_ Hptr]. specialize (Hptr Ea).
        rewrite Em in Hptr. apply (Hnot _ Hptr). auto.
    + now apply get_update_entry_same.
    + exact Hs.
  - intros k previous Hk Hmodel Hactive.
    destruct (Hall _ _ (get_In _ _ _ Hk)) as [[v [ts Hkid]] Hptr].
    specialize (Hptr Hactive). rewrite Hmodel in Hptr, Hkid.
    assert (Hne : k <> id).
    { intros Heq. rewrite Hkid, Hid in Heq.
      apply make_deployment_id_slot in Heq.
      apply inactive_slot_not_active in Hptr. fold new_slot in Hptr. congruence. }
    cbn [deployments].
    rewrite get_update_entry_other, Hget1, get_set_other, Hk by auto.
    cbn [option_map]. rewrite Hptr, Hmodel, String.eqb_refl.
    replace (slot_eqb (ModelDeployment.slot previous) (ModelDeployment.slot previous))
      with true by (symmetry; now apply slot_eqb_eq).
    eexists. split; [reflexivity|]. repeat split.
Qed.

(** The sample's stand-ins with a 100 ms latency on every sample and no
    version metrics. *)
Definition healthy_world : Collaborators :=
  simulated float_mean (fun _ => 100%float) (fun _ _ => PyDict.empty).

(** The same, with a live error rate of 10% once the new slot gets the
    given share of the traffic. *)
Definition degraded_world (at_step : Z) : Collaborators :=
  {| statistics_mean := statistics_mean healthy_world;
     health_probe := health_probe healthy_world;
     model_call := model_call healthy_world;
     latency_sample := latency_sample healthy_world;
     compatibility_probe := compatibility_probe healthy_world;
     provisioning := provisioning healthy_world;
     live_error_rate :=
       fun step => if step =? at_step then 0.1%float else 0.02%float;
     live_avg_response_time := live_avg_response_time healthy_world;
     version_metrics := version_metrics healthy_world |}.

(** A run of successful deployments of one model, one version per clock
    reading. *)
Fixpoint deploy_versions (model_name : string) (versions : list (string * N))
  (st : BlueGreenDeploymentManager) : BlueGreenDeploymentManager :=
  match versions with
  | [] => st
  | (version, now) :: rest =>
      deploy_versions model_name rest
        (snd (deploy_new_version model_name version PyDict.empty now
                healthy_world st))
  end.

Definition version_statuses (st : BlueGreenDeploymentManager)
  : list (string * DeploymentStatus) :=
  map (fun d => (ModelDeployment.model_version d, ModelDeployment.status d))
    (PyDict.values (deployments st)).

(** The theorem on the second deployment of a model: the first version is
    retired and the second is the only active one. *)
Lemma deploy_success_single_active_witness :
  let st1 := deploy_versions "m" [("v1", 1000%N)] (BlueGreen_init TrafficRouter_init) in
  let st2 :=
    snd (deploy_new_version "m" "v2" PyDict.empty 2000 healthy_world st1) in
  (exists d, deployments_with_status "m" ACTIVE st2 = [d]
             /\ ModelDeployment.slot d = BLUE)
  /\ exists d', PyDict.get (deployments st2) "m-v1-green-1000" = Some d'
                /\ ModelDeployment.status d' = INACTIVE
                /\ ModelDeployment.traffic_percentage d' = 0.
Proof.
  cbv zeta.
  destruct
    (deploy_success_single_active
       (deploy_versions "m" [("v1", 1000%N)] (BlueGreen_init TrafficRouter_init))
       "m" "v2" PyDict.empty 2000%N healthy_world
       "m-v2-blue-2000" "blue" "https://m-blue.cognitiveservices.azure.com"
       (snd (deploy_new_version "m" "v2" PyDict.empty 2000 healthy_world
               (deploy_versions "m" [("v1", 1000%N)]
                  (BlueGreen_init TrafficRouter_init)))))
    as [[d [Hd [_ Hslot]]] Hprev].
  - apply reach_deploy, reach_init.
  - vm_compute. reflexivity.
  - split.
    + exists d. split; [exact Hd | exact Hslot].
    + destruct (Hprev "m-v1-green-1000"
                  (ModelDeployment.mk "m-v1-green-1000" "m" "v1" GREEN ACTIVE
                     "https://m-green.cognitiveservices.azure.com" 1000%N
                     (Some 1000%N) "healthy" 0
                     (Some [("avg_response_time_ms", PFloat 100%float);
                            ("p95_response_time_ms", PFloat 100%float);
                            ("last_updated", PInt 1000)])))
        as [d' [Hget [_ [Hst Htr]]]]; [vm_compute; reflexivity | reflexivity
                                      | reflexivity |].
      exists d'. auto.
Defined.

(** The handling of a failed traffic shift, on live readings other than the
    constants the sample assigns (with those the shift never fails, see
    [sample_readings_never_fail_the_shift]).  On the first deployment of a
    service a health failure at the 10% step leaves the split at 10/90: the
    rollback finds no active slot and gives up.  On a third deployment (blue
    active, an older inactive deployment in green) the rollback switches to
    the slot opposite to the active one, that is, all traffic goes to the
    new slot, green. *)
Theorem failed_shift_is_not_reverted :
  let fresh := BlueGreen_init TrafficRouter_init in
  let first :=
    deploy_new_version "m" "v1" PyDict.empty 1000 (degraded_world 10) fresh in
  let st2 := deploy_versions "m" [("v1", 1000%N); ("v2", 2000%N)] fresh in
  let third :=
    deploy_new_version "m" "v3" PyDict.empty 3000 (degraded_world 10) st2 in
  ((exists details, fst first = TrafficShiftFailed details)
   /\ PyDict.get (active_slots fresh) "m" = None
   /\ live_split (traffic_router (snd first)) "m"
      = Some [("green", 10); ("blue", 90)])
  /\ ((exists details, fst third = TrafficShiftFailed details)
      /\ PyDict.get (active_slots st2) "m" = Some BLUE
      /\ live_split (traffic_router st2) "m" = Some [("blue", 100); ("green", 0)]
      /\ live_split (traffic_router (snd third)) "m"
         = Some [("green", 100); ("blue", 0)]
      /\ PyDict.get (active_slots (snd third)) "m" = Some GREEN).
Proof.
  vm_compute. repeat split; eexists; reflexivity.
Qed.

(** What [rollback_deployment] picks: the first deployment, in the order of
    registration, that is inactive in the slot opposite to the active one. *)
Lemma rollback_deployment_picks_first model_name st id slot st' :
  rollback_deployment model_name st = (RolledBack id slot, st') ->
  exists current before k found after,
    PyDict.get (active_slots st) model_name = Some current
    /\ deployments st = before ++ (k, found) :: after
    /\ ModelDeployment.deployment_id found = id
    /\ is_rollback_candidate model_name (_get_opposite_slot current) found = true
    /\ Forall
         (fun entry =>
            is_rollback_candidate model_name (_get_opposite_slot current)
              (snd entry) = false)
         before.
Proof.
  unfold rollback_deployment.
  destruct (PyDict.get (active_slots st) model_name) as [current|]; [|discriminate].
  match goal with
  | |- context [mutate_first ?p ?f ?d] =>
      destruct (mutate_first p f d) as [[previous ds]|] eqn:Hfound
  end; [|discriminate].
  intros [= <- _ _].
  apply mutate_first_found in Hfound
    as [before [k [after [Hds [_ [Hcand Hbefore]]]]]].
  exists current, before, k, previous, after. auto.
Qed.

(** C8, the failing run.  After four deployments of a model (v1 and v3 in
    green, v2 and v4 in blue, v4 active) the rollback brings back v1, the
    oldest inactive deployment of the green slot, and leaves v3, the most
    recent one, inactive. *)
Theorem rollback_restores_oldest_inactive :
  let st4 :=
    deploy_versions "m"
      [("v1", 1000%N); ("v2", 2000%N); ("v3", 3000%N); ("v4", 4000%N)]
      (BlueGreen_init TrafficRouter_init) in
  version_statuses st4
  = [("v1", INACTIVE); ("v2", INACTIVE); ("v3", INACTIVE); ("v4", ACTIVE)]
  /\ fst (rollback_deployment "m" st4) = RolledBack "m-v1-green-1000" "green"
  /\ version_statuses (snd (rollback_deployment "m" st4))
     = [("v1", ACTIVE); ("v2", INACTIVE); ("v3", INACTIVE); ("v4", INACTIVE)].
Proof.
  vm_compute. repeat split.
Qed.

(** ** CanaryReleaseManager *)

Lemma length_store_set {A : Type} (l : list A) : forall i x,
  List.length (store_set l i x) = List.length l.
Proof. induction l as [|y l IH]; intros [|i] x; simpl; auto. Qed.

Lemma nth_error_store_set_same {A : Type} (l : list A) : forall i x,
  (i < List.length l)%nat -> nth_error (store_set l i x) i = Some x.
Proof.
  induction l as [|y l IH]; intros [|i] x H; simpl in *; try lia; auto.
  apply IH. lia.
Qed.

Lemma nth_error_store_set_other {A : Type} (l : list A) : forall i j x,
  i <> j -> nth_error (store_set l i x) j = nth_error l j.
Proof.
  induction l as [|y l IH]; intros [|i] [|j] x H; simpl; auto; try congruence.
Qed.

Lemma registered_found st canary_id l info :
  PyDict.get (active_canaries st) canary_id = Some l ->
  nth_error (canary_objects st) l = Some info ->
  registered st canary_id = inr (l, info).
Proof. intros H1 H2. unfold registered. now rewrite H1, H2. Qed.

(** The progression of [_calculate_next_traffic_percentage], as a function
    of the target and the current percentage. *)
Definition next_percentage (target current : Z) : Z :=
  if current <? 5 then 5
  else if current <? 10 then 10
  else if current <? 25 then 25
  else if current <? 50 then 50
  else if current <? target then Z.min target (current + 25)
  else current.

Lemma calculate_next_registered st canary_id l info :
  registered st canary_id = inr (l, info) ->
  _calculate_next_traffic_percentage canary_id st
  = inr (next_percentage
           (CanaryConfiguration.canary_traffic_percentage (CanaryInfo.config info))
           (CanaryInfo.current_traffic_percentage info)).
Proof. intros H. unfold _calculate_next_traffic_percentage. now rewrite H. Qed.

(** The next percentage is never below the current one, and is above it as
    long as the current one is below 50 or below the target. *)
Lemma next_percentage_never_decreases target current :
  current <= next_percentage target current
  /\ (current < 50 \/ current < target -> current < next_percentage target current).
Proof.
  unfold next_percentage.
  destruct (current <? 5) eqn:E1; [apply Z.ltb_lt in E1; lia|].
  destruct (current <? 10) eqn:E2; [apply Z.ltb_lt in E2; lia|].
  destruct (current <? 25) eqn:E3; [apply Z.ltb_lt in E3; lia|].
  destruct (current <? 50) eqn:E4; [apply Z.ltb_lt in E4; lia|].
  destruct (current <? target) eqn:E5.
  - apply Z.ltb_lt in E5. lia.
  - apply Z.ltb_ge in E4, E5. lia.
Qed.

(** The criteria loop and the confidence of an evaluation. *)
Definition evaluated_criteria (env : Collaborators)
  (config : CanaryConfiguration.t) : dict CriterionResult.t * Z :=
  fold_left
    (evaluate_criterion
       (version_metrics env (CanaryConfiguration.model_name config)
          (CanaryConfiguration.canary_version config))
       (version_metrics env (CanaryConfiguration.model_name config)
          (CanaryConfiguration.baseline_version config)))
    (CanaryConfiguration.success_criteria config) (PyDict.empty, 0).

Definition confidence_of (env : Collaborators) (config : CanaryConfiguration.t)
  : float :=
  (float_of_Z (snd (evaluated_criteria env config))
   / float_of_Z
       (Z.of_nat (List.length (CanaryConfiguration.success_criteria config))))%float.

Definition evaluation_of (now : N) (env : Collaborators)
  (config : CanaryConfiguration.t) : Evaluation.t :=
  Evaluation.mk now
    (version_metrics env (CanaryConfiguration.model_name config)
       (CanaryConfiguration.canary_version config))
    (version_metrics env (CanaryConfiguration.model_name config)
       (CanaryConfiguration.baseline_version config))
    (fst (evaluated_criteria env config))
    (fst (decide (confidence_of env config)))
    (snd (decide (confidence_of env config)))
    (confidence_of env config).

Lemma evaluate_registered st canary_id l info now env :
  registered st canary_id = inr (l, info) ->
  _evaluate_canary_performance canary_id now env st
  = match CanaryConfiguration.success_criteria (CanaryInfo.config info) with
    | [] => inl ZeroDivisionError
    | _ :: _ => inr (evaluation_of now env (CanaryInfo.config info))
    end.
Proof.
  intros H. unfold _evaluate_canary_performance. rewrite H.
  unfold evaluation_of, confidence_of, evaluated_criteria.
  destruct (fold_left _ _ _) as [results passed_criteria].
  destruct (CanaryConfiguration.success_criteria (CanaryInfo.config info))
    as [|item rest] eqn:E; [reflexivity|].
  cbn [List.length]. rewrite Nat2Z.inj_succ.
  destruct (Z.succ (Z.of_nat (List.length rest)) =? 0) eqn:E0;
    [apply Z.eqb_eq in E0; lia|].
  cbn [fst snd]. now destruct (decide _).
Qed.

Lemma finite_order (m9 m7 m : positive) (e0 e : Z) :
  (m7 < m9)%positive ->
  SFleb (S754_finite false m9 e0) (S754_finite false m e) = true ->
  SFltb (S754_finite false m e) (S754_finite false m7 e0) = false.
Proof.
  intros Hm. unfold SFleb, SFltb, SFcompare.
  rewrite (Z.compare_antisym e0 e).
  destruct (Z.compare e0 e) eqn:E; cbn [CompOpp]; try discriminate; try reflexivity.
  rewrite !Pos.compare_cont_spec. cbn [Pos.switch_Eq].
  destruct (Pos.compare_spec m9 m) as [H|H|H]; try discriminate;
    destruct (Pos.compare_spec m m7) as [H'|H'|H']; try reflexivity; intros _; lia.
Qed.

(** In binary64, a value that is at least 0.9 is not below 0.7. *)
Lemma at_least_090_not_below_070 (c : float) :
  PrimFloat.leb 0.9 c = true -> PrimFloat.ltb c 0.7 = false.
Proof.
  rewrite FloatAxioms.leb_spec, FloatAxioms.ltb_spec.
  replace (Prim2SF 0.9) with (S754_finite false 8106479329266893 (-53))
    by (vm_compute; reflexivity).
  replace (Prim2SF 0.7) with (S754_finite false 6305039478318694 (-53))
    by (vm_compute; reflexivity).
  destruct (Prim2SF c) as [s|s| |s m e].
  - destruct s; intros H; vm_compute in H; discriminate.
  - destruct s; intros H; [vm_compute in H; discriminate | reflexivity].
  - reflexivity.
  - destruct s; [intros H; vm_compute in H; discriminate|].
    apply finite_order. reflexivity.
Qed.

Lemma decide_by_confidence success_rate :
  (PrimFloat.ltb success_rate 0.7 = true -> fst (decide success_rate) = Abort)
  /\ (PrimFloat.leb 0.9 success_rate = true -> fst (decide success_rate) = Proceed)
  /\ (PrimFloat.ltb success_rate 0.7 = false ->
      PrimFloat.leb 0.9 success_rate = false ->
      fst (decide success_rate) = Hold).
Proof.
  unfold decide, fgeb. split; [|split].
  - now intros ->.
  - intros H. now rewrite (at_least_090_not_below_070 _ H), H.
  - now intros -> ->.
Qed.

Lemma registered_set_object st canary_id l info info' :
  PyDict.get (active_canaries st) canary_id = Some l ->
  nth_error (canary_objects st) l = Some info ->
  registered (set_object l info' st) canary_id = inr (l, info').
Proof.
  intros H1 H2. apply registered_found; [exact H1|].
  cbn. apply nth_error_store_set_same.
  apply nth_error_Some. congruence.
Qed.

(** One turn of the monitoring loop of a running release whose duration has
    not elapsed, by the decision of its evaluation. *)
Lemma monitor_turn_running st canary_id l info now env :
  PyDict.get (active_canaries st) canary_id = Some l ->
  nth_error (canary_objects st) l = Some info ->
  CanaryInfo.status info = RUNNING ->
  Z.of_N now - Z.of_N (CanaryInfo.start_time info)
    < CanaryConfiguration.rollout_duration_minutes (CanaryInfo.config info) * 60 ->
  CanaryConfiguration.success_criteria (CanaryInfo.config info) <> [] ->
  let config := CanaryInfo.config info in
  let ev := evaluation_of now env config in
  let info1 := CanaryInfo.with_evaluation ev info in
  let st1 := set_object l info1 st in
  let model := CanaryConfiguration.model_name config in
  _evaluate_canary_performance canary_id now env st = inr ev
  /\ monitor_iteration canary_id l now env st
     = match Evaluation.decision ev with
       | Abort =>
           (Exit,
            store_result canary_id
              (CanaryResult.mk config (CanaryInfo.evaluations info1) "aborted"
                 (Some (Evaluation.reason ev))
                 (minutes_between (CanaryInfo.start_time info) now))
              (set_object l (CanaryInfo.aborted now (Evaluation.reason ev) info1)
                 (with_canary_router
                    (update_traffic_split model (canary_split 0) (canary_router st))
                    st1)))
       | Proceed =>
           let next :=
             next_percentage (CanaryConfiguration.canary_traffic_percentage config)
               (CanaryInfo.current_traffic_percentage info) in
           (Continue,
            set_object l (CanaryInfo.with_traffic next info1)
              (with_canary_router
                 (update_traffic_split model (canary_split next) (canary_router st))
                 st1))
       | Hold => (Continue, st1)
       end.
Proof.
  intros Hreg Hobj Hrunning Helapsed Hcriteria config ev info1 st1 model.
  pose proof (evaluate_registered _ _ _ _ now env (registered_found _ _ _ _ Hreg Hobj))
    as Heval.
  destruct (CanaryConfiguration.success_criteria (CanaryInfo.config info))
    as [|item rest] eqn:Ecrit; [congruence|].
  split; [exact Heval|].
  unfold monitor_iteration. rewrite Hobj, Hrunning. cbn [canary_status_eqb negb].
  apply Z.leb_gt in Helapsed. rewrite Helapsed, Heval.
  fold config ev info1 st1.
  pose proof (registered_set_object st canary_id l info info1 Hreg Hobj) as Hreg1.
  fold st1 in Hreg1.
  destruct (Evaluation.decision ev).
  - rewrite (calculate_next_registered _ _ _ _ Hreg1).
    unfold _update_canary_traffic. rewrite Hreg1. reflexivity.
  - unfold _abort_canary_release. rewrite Hreg1. reflexivity.
  - reflexivity.
Qed.

Lemma evaluate_criterion_other cm bm criteria : forall acc n criterion,
  ~ In criterion (PyDict.keys criteria) ->
  PyDict.get (fst (fold_left (evaluate_criterion cm bm) criteria (acc, n))) criterion
  = PyDict.get acc criterion.
Proof.
  induction criteria as [|[c t] criteria IH]; intros acc n criterion Hnot; auto.
  cbn [fold_left evaluate_criterion]. rewrite IH.
  - apply get_set_other. intros ->. apply Hnot. now left.
  - intros H. apply Hnot. now right.
Qed.

Lemma evaluate_criterion_recorded cm bm criteria : forall acc n criterion threshold,
  PyDict.wf criteria ->
  In (criterion, threshold) criteria ->
  PyDict.get (fst (fold_left (evaluate_criterion cm bm) criteria (acc, n))) criterion
  = Some (CriterionResult.mk
            (criterion_passed criterion threshold (metric cm criterion)
               (metric bm criterion))
            (metric cm criterion) (metric bm criterion) threshold).
Proof.
  unfold PyDict.wf.
  induction criteria as [|[c t] criteria IH]; intros acc n criterion threshold Hwf Hin;
    [destruct Hin|].
  cbn [PyDict.keys map fst] in Hwf. inversion Hwf as [|? ? Hnotin Hwf']; subst.
  cbn [fold_left evaluate_criterion]. destruct Hin as [[= -> ->]|Hin].
  - rewrite evaluate_criterion_other by exact Hnotin. apply get_set_same.
  - now apply IH.
Qed.

Lemma evaluate_criterion_count cm bm criteria : forall acc n,
  snd (fold_left (evaluate_criterion cm bm) criteria (acc, n))
  = n + Z.of_nat
          (List.length
             (filter
                (fun item =>
                   criterion_passed (fst item) (snd item) (metric cm (fst item))
                     (metric bm (fst item)))
                criteria)).
Proof.
  induction criteria as [|[c t] criteria IH]; intros acc n.
  - simpl. lia.
  - cbn [fold_left evaluate_criterion filter fst snd]. rewrite IH.
    destruct (criterion_passed c t (metric cm c) (metric bm c)); cbn [List.length]; lia.
Qed.

(** The scenario of the specification: target 50, the single criterion
    [error_rate] with threshold 0.05, a candidate at 0.021 against a baseline
    at 0.020. *)
Definition example_config : CanaryConfiguration.t :=
  CanaryConfiguration.mk "m" "v2" "v1" 50 [("error_rate", 0.05%float)] 5 1 true.

Definition example_world : Collaborators :=
  simulated float_mean (fun _ => 100%float)
    (fun _ version =>
       if String.eqb version "v2" then [("error_rate", 0.021%float)]
       else [("error_rate", 0.02%float)]).

Definition example_started : CanaryReleaseManager :=
  snd (start_canary_release example_config 1000 (Canary_init TrafficRouter_init)).

(** Turns of the monitoring loop of one release, one clock reading each. *)
Fixpoint monitor_turns (canary_id : string) (canary_info : nat)
  (env : Collaborators) (clock : list N) (st : CanaryReleaseManager)
  : CanaryReleaseManager :=
  match clock with
  | [] => st
  | now :: rest =>
      monitor_turns canary_id canary_info env rest
        (snd (monitor_iteration canary_id canary_info now env st))
  end.

Definition traffic_of (st : CanaryReleaseManager) (l : nat) : option Z :=
  option_map CanaryInfo.current_traffic_percentage (nth_error (canary_objects st) l).

Definition status_of (st : CanaryReleaseManager) (l : nat) : option CanaryStatus :=
  option_map CanaryInfo.status (nth_error (canary_objects st) l).

(** ** The criteria as the specification words them

    The reading of a criterion in the metrics of a version, the comparison
    by the direction of the criterion and the fraction of the configured
    criteria that pass, written from the sentences of the specification.
    The theorems below compare them with what
    [_evaluate_canary_performance] computes. *)

Definition spec_reading (metrics : dict float) (criterion : string) : float :=
  match PyDict.get metrics criterion with
  | Some value => value
  | None => 0%float
  end.

Definition spec_criterion_passes (criterion : string)
  (threshold candidate baseline : float) : bool :=
  if String.eqb criterion "error_rate" || String.eqb criterion "response_time"
  then PrimFloat.leb candidate (baseline * (1 + threshold))%float
  else if String.eqb criterion "user_satisfaction"
  then PrimFloat.leb (baseline * (1 - threshold))%float candidate
  else PrimFloat.leb (PrimFloat.abs (candidate - baseline)) threshold.

Definition spec_passes (env : Collaborators) (config : CanaryConfiguration.t)
  (item : string * float) : bool :=
  let model := CanaryConfiguration.model_name config in
  spec_criterion_passes (fst item) (snd item)
    (spec_reading
       (version_metrics env model (CanaryConfiguration.canary_version config))
       (fst item))
    (spec_reading
       (version_metrics env model (CanaryConfiguration.baseline_version config))
       (fst item)).

Definition spec_confidence (env : Collaborators) (config : CanaryConfiguration.t)
  : float :=
  let criteria := CanaryConfiguration.success_criteria config in
  (float_of_Z (Z.of_nat (List.length (filter (spec_passes env config) criteria)))
   / float_of_Z (Z.of_nat (List.length criteria)))%float.

(** The configuration that [run_canary_release] of the command line
    builds, for the model [m], the candidate [v2] and the baseline [v1]. *)
Definition cli_canary_config : CanaryConfiguration.t :=
  CanaryConfiguration.mk "m" "v2" "v1" 50
    [("error_rate", 0.05%float); ("response_time", 0.10%float);
     ("user_satisfaction", 0.02%float)]
    5 1 true.

(** The same with a fourth criterion, on the throughput. *)
Definition four_criteria_config : CanaryConfiguration.t :=
  CanaryConfiguration.mk "m" "v2" "v1" 50
    [("error_rate", 0.05%float); ("response_time", 0.10%float);
     ("user_satisfaction", 0.02%float); ("throughput", 5%float)]
    5 1 true.

(** The sample's stand-ins, with the metrics that [_get_version_metrics]
    makes from the hash of the version. *)
Definition sample_world (hash : string -> Z) : Collaborators :=
  simulated float_mean (fun _ => 100%float) (simulated_version_metrics hash).

(** Two processes: one whose [hash] gives both versions the factor 0, and
    one whose [hash] gives the candidate [v2] the factor 0.05. *)
Definition even_hash : string -> Z := fun _ => 0.

Definition uneven_hash : string -> Z :=
  fun version => if String.eqb version "v2" then 50 else 0.

Lemma criterion_passed_spec criterion threshold candidate baseline :
  criterion_passed criterion threshold candidate baseline
  = spec_criterion_passes criterion threshold candidate baseline.
Proof.
  unfold criterion_passed, spec_criterion_passes, fgeb.
  destruct (String.eqb criterion "error_rate"); [reflexivity|].
  destruct (String.eqb criterion "response_time"); reflexivity.
Qed.

Lemma confidence_of_spec env config :
  confidence_of env config = spec_confidence env config.
Proof.
  unfold confidence_of, spec_confidence, evaluated_criteria.
  rewrite evaluate_criterion_count, Z.add_0_l.
  rewrite (filter_ext _ (spec_passes env config)); [reflexivity|].
  intros [criterion threshold]. unfold spec_passes. cbn [fst snd].
  apply criterion_passed_spec.
Qed.

Lemma evaluate_registered_nonempty st canary_id l info now env :
  registered st canary_id = inr (l, info) ->
  CanaryConfiguration.success_criteria (CanaryInfo.config info) <> [] ->
  _evaluate_canary_performance canary_id now env st
  = inr (evaluation_of now env (CanaryInfo.config info)).
Proof.
  intros Hreg Hne. rewrite (evaluate_registered _ _ _ _ now env Hreg).
  destruct (CanaryConfiguration.success_criteria (CanaryInfo.config info));
    [congruence | reflexivity].
Qed.

(** The steps of the progression. *)
Lemma next_percentage_steps target current :
  (current < 5 -> next_percentage target current = 5)
  /\ (5 <= current < 10 -> next_percentage target current = 10)
  /\ (10 <= current < 25 -> next_percentage target current = 25)
  /\ (25 <= current < 50 -> next_percentage target current = 50)
  /\ (50 <= current < target ->
      next_percentage target current = Z.min target (current + 25))
  /\ (50 <= current -> target <= current ->
      next_percentage target current = current).
Proof.
  unfold next_percentage.
  destruct (Z.ltb_spec current 5); destruct (Z.ltb_spec current 10);
    destruct (Z.ltb_spec current 25); destruct (Z.ltb_spec current 50);
    destruct (Z.ltb_spec current target);
    repeat split; intros; lia.
Qed.

(** C5, as stated, fails once a release has reached its target.  The
    release of the command line (target 50), in a process whose hash gives
    both versions the same metrics, is at 50 after its first three cycles
    (at the start and every 30 seconds); in the fourth cycle every criterion
    passes, the confidence is 1.0 and the
    decision is proceed, and the traffic stays at 50: it does not
    advance. *)
Lemma canary_proceed_at_target_keeps_traffic :
  let env := sample_world even_hash in
  let started :=
    snd (start_canary_release cli_canary_config 1000
           (Canary_init TrafficRouter_init)) in
  let st :=
    monitor_turns "canary-m-v2-1000" 0 env [1000%N; 1030%N; 1060%N] started in
  let turn := monitor_iteration "canary-m-v2-1000" 0 1090 env st in
  traffic_of st 0 = Some 50
  /\ status_of st 0 = Some RUNNING
  /\ (exists ev,
        _evaluate_canary_performance "canary-m-v2-1000" 1090 env st = inr ev
        /\ Evaluation.confidence ev = 1%float
        /\ PrimFloat.leb 0.9 (Evaluation.confidence ev) = true
        /\ Evaluation.decision ev = Proceed)
  /\ fst turn = Continue
  /\ status_of (snd turn) 0 = Some RUNNING
  /\ traffic_of (snd turn) 0 = Some 50
  /\ live_split (canary_router (snd turn)) "m"
     = Some [("canary", 50); ("baseline", 50)].
Proof.
  vm_compute. split; [reflexivity|]. split; [reflexivity|].
  split; [eexists; repeat split|]. repeat split.
Qed.

(** C5 (amended): in every evaluation cycle of a running release (duration
    not elapsed, at least one criterion), the evaluation is produced and
    recorded, its confidence is the fraction of the configured criteria
    that pass (each compared by its direction on the metrics of the
    candidate and of the baseline version), and by that confidence: below
    0.70 the decision is abort, the loop ends, the release is [ABORTED] and
    the split of the model is canary 0 / baseline 100; at 0.90 or more the
    decision is proceed, the release stays [RUNNING] and its traffic
    becomes the next step of the progression (5, 10, 25, 50, then 25 more
    up to the target), applied as canary / baseline split: above the
    current percentage while that is below 50 or below the target, and the
    current percentage itself once that is at 50 or more and at the target
    or above; otherwise the decision is hold, the router and the traffic
    percentage are unchanged and the release stays [RUNNING]. *)
Theorem canary_cycle_follows_confidence :
  forall st canary_id l info now env,
    PyDict.get (active_canaries st) canary_id = Some l ->
    nth_error (canary_objects st) l = Some info ->
    CanaryInfo.status info = RUNNING ->
    Z.of_N now - Z.of_N (CanaryInfo.start_time info)
      < CanaryConfiguration.rollout_duration_minutes (CanaryInfo.config info) * 60 ->
    CanaryConfiguration.success_criteria (CanaryInfo.config info) <> [] ->
    let config := CanaryInfo.config info in
    let confidence := spec_confidence env config in
    let turn := monitor_iteration canary_id l now env st in
    let model := CanaryConfiguration.model_name config in
    let target := CanaryConfiguration.canary_traffic_percentage config in
    let current := CanaryInfo.current_traffic_percentage info in
    exists ev info',
      _evaluate_canary_performance canary_id now env st = inr ev
      /\ Evaluation.confidence ev = confidence
      /\ registered (snd turn) canary_id = inr (l, info')
      /\ CanaryInfo.evaluations info' = CanaryInfo.evaluations info ++ [ev]
      /\ (PrimFloat.ltb confidence 0.7 = true ->
          Evaluation.decision ev = Abort
          /\ fst turn = Exit
          /\ CanaryInfo.status info' = ABORTED
          /\ live_split (canary_router (snd turn)) model
             = Some [("canary", 0); ("baseline", 100)])
      /\ (PrimFloat.leb 0.9 confidence = true ->
          Evaluation.decision ev = Proceed
          /\ fst turn = Continue
          /\ CanaryInfo.status info' = RUNNING
          /\ exists next,
               CanaryInfo.current_traffic_percentage info' = next
               /\ live_split (canary_router (snd turn)) model
                  = Some [("canary", next); ("baseline", 100 - next)]
               /\ (current < 50 \/ current < target -> current < next)
               /\ (current < 5 -> next = 5)
               /\ (5 <= current < 10 -> next = 10)
               /\ (10 <= current < 25 -> next = 25)
               /\ (25 <= current < 50 -> next = 50)
               /\ (50 <= current < target -> next = Z.min target (current + 25))
               /\ (50 <= current -> target <= current -> next = current))
      /\ (PrimFloat.ltb confidence 0.7 = false ->
          PrimFloat.leb 0.9 confidence = false ->
          Evaluation.decision ev = Hold
          /\ fst turn = Continue
          /\ CanaryInfo.status info' = RUNNING
          /\ CanaryInfo.current_traffic_percentage info' = current
          /\ canary_router (snd turn) = canary_router st).
Proof.
  intros st canary_id l info now env Hreg Hobj Hrunning Helapsed Hcriteria.
  cbv zeta.
  destruct (monitor_turn_running st canary_id l info now env
              Hreg Hobj Hrunning Helapsed Hcriteria) as [Heval Hturn].
  cbv zeta in Heval, Hturn.
  set (ev := evaluation_of now env (CanaryInfo.config info)) in *.
  set (info1 := CanaryInfo.with_evaluation ev info) in *.
  assert (Hconf : Evaluation.confidence ev
                  = spec_confidence env (CanaryInfo.config info))
    by exact (confidence_of_spec env (CanaryInfo.config info)).
  destruct (decide_by_confidence (Evaluation.confidence ev)) as [Habort [Hproceed Hhold]].
  change (fst (decide (Evaluation.confidence ev))) with (Evaluation.decision ev) in *.
  rewrite Hconf in Habort, Hproceed, Hhold.
  assert (Hlen : (l < List.length (canary_objects st))%nat)
    by (apply nth_error_Some; congruence).
  assert (Hobj' : forall x r,
            registered
              (set_object l x (with_canary_router r (set_object l info1 st)))
              canary_id = inr (l, x)).
  { intros x r. apply registered_found; [exact Hreg|].
    cbn. apply nth_error_store_set_same. now rewrite length_store_set. }
  exists ev. rewrite Hturn.
  destruct (Evaluation.decision ev) eqn:Hdecision.
  - eexists. cbn [fst snd].
    split; [exact Heval|]. split; [exact Hconf|]. split; [apply Hobj'|].
    split; [reflexivity|]. split; [|split].
    + intros H. specialize (Habort H). discriminate.
    + intros _. split; [reflexivity|]. split; [reflexivity|].
      split; [exact Hrunning|].
      eexists. split; [reflexivity|]. split.
      { cbn [canary_router with_canary_router set_object].
        exact (live_split_update _ _ _). }
      split; [apply (proj2 (next_percentage_never_decreases _ _))|].
      apply next_percentage_steps.
    + intros H1 H2. specialize (Hhold H1 H2). discriminate.
  - eexists. cbn [fst snd].
    split; [exact Heval|]. split; [exact Hconf|]. split; [apply (Hobj' _ _)|].
    split; [reflexivity|]. split; [|split].
    + intros _. split; [reflexivity|]. split; [reflexivity|].
      split; [reflexivity|].
      cbn [canary_router with_canary_router set_object store_result].
      exact (live_split_update _ _ _).
    + intros H. specialize (Hproceed H). discriminate.
    + intros H1 H2. specialize (Hhold H1 H2). discriminate.
  - exists info1. cbn [fst snd].
    split; [exact Heval|]. split; [exact Hconf|].
    split; [now apply registered_set_object with (info := info)|].
    split; [reflexivity|]. split; [|split].
    + intros H. specialize (Habort H). discriminate.
    + intros H. specialize (Hproceed H). discriminate.
    + intros _ _. split; [reflexivity|]. split; [reflexivity|].
      split; [exact Hrunning|]. split; reflexivity.
Qed.

(** The theorem on the first cycle of three releases started at 1000: the
    release of the command line when both versions have the same metrics
    (three criteria of three pass: proceed, from 5 to 10), the same
    release when the candidate has the factor 0.05 (two of three pass: abort),
    and the release with four criteria for that candidate (three of four
    pass: hold). *)
Lemma canary_cycle_follows_confidence_witness :
  let started config :=
    snd (start_canary_release config 1000 (Canary_init TrafficRouter_init)) in
  let turn config hash :=
    monitor_iteration "canary-m-v2-1000" 0 1030 (sample_world hash)
      (started config) in
  (fst (turn cli_canary_config even_hash) = Continue
   /\ exists info',
        registered (snd (turn cli_canary_config even_hash)) "canary-m-v2-1000"
        = inr (0%nat, info')
        /\ CanaryInfo.status info' = RUNNING
        /\ CanaryInfo.current_traffic_percentage info' = 10)
  /\ (fst (turn cli_canary_config uneven_hash) = Exit
      /\ live_split (canary_router (snd (turn cli_canary_config uneven_hash))) "m"
         = Some [("canary", 0); ("baseline", 100)]
      /\ exists info',
           registered (snd (turn cli_canary_config uneven_hash)) "canary-m-v2-1000"
           = inr (0%nat, info')
           /\ CanaryInfo.status info' = ABORTED)
  /\ (fst (turn four_criteria_config uneven_hash) = Continue
      /\ exists info',
           registered (snd (turn four_criteria_config uneven_hash))
             "canary-m-v2-1000"
           = inr (0%nat, info')
           /\ CanaryInfo.status info' = RUNNING
           /\ CanaryInfo.current_traffic_percentage info' = 5).
Proof.
  cbv zeta. split; [|split].
  - destruct
      (canary_cycle_follows_confidence
         (snd (start_canary_release cli_canary_config 1000
                 (Canary_init TrafficRouter_init)))
         "canary-m-v2-1000" 0%nat
         (CanaryInfo.mk cli_canary_config 1000 RUNNING [] 5 None None None)
         1030%N (sample_world even_hash))
      as [ev [info' [_ [_ [Hreg [_ [_ [Hproceed _]]]]]]]].
    + reflexivity.
    + reflexivity.
    + reflexivity.
    + vm_compute. reflexivity.
    + discriminate.
    + destruct Hproceed as [_ [Hcontinue [Hstatus [next [Htraffic [_ [_ [_ [Hstep _]]]]]]]]].
      { vm_compute. reflexivity. }
      split; [exact Hcontinue|]. exists info'.
      split; [exact Hreg|]. split; [exact Hstatus|].
      rewrite Htraffic. apply Hstep. cbn. lia.
  - destruct
      (canary_cycle_follows_confidence
         (snd (start_canary_release cli_canary_config 1000
                 (Canary_init TrafficRouter_init)))
         "canary-m-v2-1000" 0%nat
         (CanaryInfo.mk cli_canary_config 1000 RUNNING [] 5 None None None)
         1030%N (sample_world uneven_hash))
      as [ev [info' [_ [_ [Hreg [_ [Habort _]]]]]]].
    + reflexivity.
    + reflexivity.
    + reflexivity.
    + vm_compute. reflexivity.
    + discriminate.
    + destruct Habort as [_ [Hexit [Hstatus Hsplit]]].
      { vm_compute. reflexivity. }
      split; [exact Hexit|]. split; [exact Hsplit|]. exists info'.
      split; [exact Hreg | exact Hstatus].
  - destruct
      (canary_cycle_follows_confidence
         (snd (start_canary_release four_criteria_config 1000
                 (Canary_init TrafficRouter_init)))
         "canary-m-v2-1000" 0%nat
         (CanaryInfo.mk four_criteria_config 1000 RUNNING [] 5 None None None)
         1030%N (sample_world uneven_hash))
      as [ev [info' [_ [_ [Hreg [_ [_ [_ Hhold]]]]]]]].
    + reflexivity.
    + reflexivity.
    + reflexivity.
    + vm_compute. reflexivity.
    + discriminate.
    + destruct Hhold as [_ [Hcontinue [Hstatus [Htraffic _]]]].
      { vm_compute. reflexivity. }
      { vm_compute. reflexivity. }
      split; [exact Hcontinue|]. exists info'.
      split; [exact Hreg|]. split; [exact Hstatus | exact Htraffic].
Defined.

(** C6: what an evaluation records for each configured criterion, and its
    confidence.  The metrics compared are those of the candidate version
    and of the baseline version of the configuration, a missing metric
    counting as 0; for every criterion the recorded candidate and baseline
    values and threshold are those, and the recorded outcome is: for
    [error_rate] and [response_time], candidate at most baseline times one
    plus the threshold; for [user_satisfaction], candidate at least
    baseline times one minus the threshold; for any other criterion,
    absolute difference at most the threshold; the confidence is the
    number of criteria recorded as passed over the number of criteria.  In
    the example (criterion [error_rate] at 0.05, candidate 0.021, baseline
    0.020) the criterion passes, the confidence is 1.0, the decision is
    proceed and the traffic goes from 5 to 10. *)
Theorem criteria_compare_by_direction :
  (forall st canary_id l info now env,
     registered st canary_id = inr (l, info) ->
     let config := CanaryInfo.config info in
     let criteria := CanaryConfiguration.success_criteria config in
     let candidate_metrics :=
       version_metrics env (CanaryConfiguration.model_name config)
         (CanaryConfiguration.canary_version config) in
     let baseline_metrics :=
       version_metrics env (CanaryConfiguration.model_name config)
         (CanaryConfiguration.baseline_version config) in
     PyDict.wf criteria ->
     criteria <> [] ->
     exists ev,
       _evaluate_canary_performance canary_id now env st = inr ev
       /\ Evaluation.canary_metrics ev = candidate_metrics
       /\ Evaluation.baseline_metrics ev = baseline_metrics
       /\ (forall criterion threshold,
             In (criterion, threshold) criteria ->
             let candidate :=
               match PyDict.get candidate_metrics criterion with
               | Some value => value
               | None => 0%float
               end in
             let baseline :=
               match PyDict.get baseline_metrics criterion with
               | Some value => value
               | None => 0%float
               end in
             exists passed,
               PyDict.get (Evaluation.criteria_results ev) criterion
               = Some (CriterionResult.mk passed candidate baseline threshold)
               /\ (criterion = "error_rate" \/ criterion = "response_time" ->
                   passed
                   = PrimFloat.leb candidate (baseline * (1 + threshold))%float)
               /\ (criterion = "user_satisfaction" ->
                   passed
                   = PrimFloat.leb (baseline * (1 - threshold))%float candidate)
               /\ (criterion <> "error_rate" ->
                   criterion <> "response_time" ->
                   criterion <> "user_satisfaction" ->
                   passed
                   = PrimFloat.leb (PrimFloat.abs (candidate - baseline)) threshold))
       /\ Evaluation.confidence ev
          = (float_of_Z
               (Z.of_nat
                  (List.length
                     (filter
                        (fun item =>
                           match
                             PyDict.get (Evaluation.criteria_results ev) (fst item)
                           with
                           | Some result => CriterionResult.passed result
                           | None => false
                           end)
                        criteria)))
             / float_of_Z (Z.of_nat (List.length criteria)))%float)
  /\ (let turn :=
        monitor_iteration "canary-m-v2-1000" 0 1060 example_world example_started in
      match
        _evaluate_canary_performance "canary-m-v2-1000" 1060 example_world
          example_started
      with
      | inr ev =>
          PyDict.get (Evaluation.canary_metrics ev) "error_rate" = Some 0.021%float
          /\ PyDict.get (Evaluation.baseline_metrics ev) "error_rate"
             = Some 0.02%float
          /\ option_map CriterionResult.passed
               (PyDict.get (Evaluation.criteria_results ev) "error_rate") = Some true
          /\ Evaluation.confidence ev = 1%float
          /\ Evaluation.decision ev = Proceed
      | inl _ => False
      end
      /\ option_map CanaryInfo.current_traffic_percentage
           (nth_error (canary_objects example_started) 0) = Some 5
      /\ fst turn = Continue
      /\ option_map CanaryInfo.current_traffic_percentage
           (nth_error (canary_objects (snd turn)) 0) = Some 10
      /\ live_split (canary_router (snd turn)) "m"
         = Some [("canary", 10); ("baseline", 90)]).
Proof.
  split.
  - intros st canary_id l info now env Hreg. cbv zeta. intros Hwf Hne.
    exists (evaluation_of now env (CanaryInfo.config info)).
    split; [now apply evaluate_registered_nonempty with (l := l)|].
    unfold evaluation_of, confidence_of, evaluated_criteria.
    cbn [Evaluation.criteria_results Evaluation.canary_metrics
         Evaluation.baseline_metrics Evaluation.confidence].
    split; [reflexivity|]. split; [reflexivity|]. split.
    + intros criterion threshold Hin.
      eexists. split.
      * rewrite (evaluate_criterion_recorded _ _ _ _ _ _ _ Hwf Hin). reflexivity.
      * unfold criterion_passed, fgeb, metric. split; [|split].
        -- intros [-> | ->]; reflexivity.
        -- intros ->. reflexivity.
        -- intros H1 H2 H3. apply String.eqb_neq in H1, H2, H3.
           now rewrite H1, H2, H3.
    + rewrite evaluate_criterion_count, Z.add_0_l.
      f_equal. f_equal. f_equal. f_equal.
      apply filter_ext_in. intros [criterion threshold] Hin. cbn [fst snd].
      now rewrite (evaluate_criterion_recorded _ _ _ _ _ _ _ Hwf Hin).
  - vm_compute. repeat split.
Qed.

(** The theorem on the first evaluation of the release of the command line
    when the candidate has the factor 0.05: its error rate is compared as
    the candidate's, and the criterion fails. *)
Lemma criteria_compare_by_direction_witness :
  let st :=
    snd (start_canary_release cli_canary_config 1000
           (Canary_init TrafficRouter_init)) in
  exists ev passed candidate baseline,
    _evaluate_canary_performance "canary-m-v2-1000" 1030
      (sample_world uneven_hash) st = inr ev
    /\ PyDict.get (Evaluation.criteria_results ev) "error_rate"
       = Some (CriterionResult.mk passed candidate baseline 0.05%float)
    /\ passed = PrimFloat.leb candidate (baseline * (1 + 0.05))%float
    /\ passed = false.
Proof.
  cbv zeta.
  destruct
    (proj1 criteria_compare_by_direction
       (snd (start_canary_release cli_canary_config 1000
               (Canary_init TrafficRouter_init)))
       "canary-m-v2-1000" 0%nat
       (CanaryInfo.mk cli_canary_config 1000 RUNNING [] 5 None None None)
       1030%N (sample_world uneven_hash) eq_refl)
    as [ev [Heval [_ [_ [Hrecorded _]]]]].
  - unfold PyDict.wf. cbn. repeat constructor; cbn; intuition discriminate.
  - discriminate.
  - destruct (Hrecorded "error_rate" 0.05%float (or_introl eq_refl))
      as [passed [Hget [Hlower _]]].
    specialize (Hlower (or_introl eq_refl)).
    eexists ev, passed, _, _.
    split; [exact Heval|]. split; [exact Hget|]. split; [exact Hlower|].
    rewrite Hlower. vm_compute. reflexivity.
Defined.

(** C3, the failing runs.  With a target of 30 the release starts at 5 and
    three proceed decisions take it to 10, 25 and then 50, above the target,
    while it is still running; with a target of 3 it starts at 3 and the
    first proceed decision takes it to 5. *)
Theorem canary_traffic_overshoots_target :
  let config target :=
    CanaryConfiguration.mk "m" "v2" "v1" target [("error_rate", 0.05%float)] 60 1 true in
  let started target :=
    snd (start_canary_release (config target) 1000 (Canary_init TrafficRouter_init)) in
  let run target clock :=
    monitor_turns "canary-m-v2-1000" 0 example_world clock (started target) in
  (traffic_of (started 30) 0 = Some 5
   /\ traffic_of (run 30 [1060%N]) 0 = Some 10
   /\ traffic_of (run 30 [1060%N; 1120%N]) 0 = Some 25
   /\ _calculate_next_traffic_percentage "canary-m-v2-1000"
        (run 30 [1060%N; 1120%N]) = inr 50
   /\ traffic_of (run 30 [1060%N; 1120%N; 1180%N]) 0 = Some 50
   /\ status_of (run 30 [1060%N; 1120%N; 1180%N]) 0 = Some RUNNING
   /\ live_split (canary_router (run 30 [1060%N; 1120%N; 1180%N])) "m"
      = Some [("canary", 50); ("baseline", 50)])
  /\ (traffic_of (started 3) 0 = Some 3
      /\ traffic_of (run 3 [1060%N]) 0 = Some 5).
Proof.
  vm_compute. repeat split.
Qed.

(** The candidate of the second scenario of the specification: an error
    rate of 0.05 against a baseline of 0.02. *)
Definition failing_world : Collaborators :=
  simulated float_mean (fun _ => 100%float)
    (fun _ version =>
       if String.eqb version "v2" then [("error_rate", 0.05%float)]
       else [("error_rate", 0.02%float)]).

(** C4, as stated, fails once a release is over: after the abort of the
    example release its finalized record is in [canary_results], and
    [get_canary_status] still answers with the live state. *)
Lemma get_canary_status_after_abort :
  let st :=
    snd (monitor_iteration "canary-m-v2-1000" 0 1060 failing_world example_started) in
  status_of st 0 = Some ABORTED
  /\ (exists r,
        PyDict.get (canary_results st) "canary-m-v2-1000" = Some r
        /\ CanaryResult.final_status r = "aborted"
        /\ List.length (CanaryResult.evaluations r) = 1%nat)
  /\ (exists ev,
        get_canary_status "canary-m-v2-1000" st
        = LiveState "canary-m-v2-1000" "m" "aborted" 5 1000 1 (Some ev)).
Proof.
  vm_compute. split; [reflexivity|]. split; eexists; repeat split.
Qed.

(** What the canary manager keeps true: a registered id points into the
    store, and an id with a finalized record is a registered id. *)
Definition canary_inv (st : CanaryReleaseManager) : Prop :=
  (forall canary_id l,
     PyDict.get (active_canaries st) canary_id = Some l ->
     (l < List.length (canary_objects st))%nat)
  /\ (forall canary_id,
        PyDict.mem (canary_results st) canary_id = true ->
        PyDict.mem (active_canaries st) canary_id = true).

(** A step that registers no new id and moves no object. *)
Definition same_registry (st st' : CanaryReleaseManager) : Prop :=
  active_canaries st' = active_canaries st
  /\ List.length (canary_objects st') = List.length (canary_objects st)
  /\ forall canary_id,
       PyDict.mem (canary_results st') canary_id = true ->
       PyDict.mem (canary_results st) canary_id = true
       \/ PyDict.mem (active_canaries st) canary_id = true.

Lemma same_registry_refl st : same_registry st st.
Proof. repeat split; auto. Qed.

Lemma canary_inv_same_registry st st' :
  canary_inv st -> same_registry st st' -> canary_inv st'.
Proof.
  intros [Hobj Hres] [Hact [Hlen Hres']]. split.
  - intros c l H. rewrite Hact in H. rewrite Hlen. eauto.
  - intros c H. rewrite Hact. destruct (Hres' c H); auto.
Qed.

Lemma registered_mem st canary_id l info :
  registered st canary_id = inr (l, info) ->
  PyDict.mem (active_canaries st) canary_id = true.
Proof.
  unfold registered, PyDict.mem.
  destruct (PyDict.get (active_canaries st) canary_id); [auto | discriminate].
Qed.

Lemma update_canary_traffic_same_registry canary_id p st st' :
  _update_canary_traffic canary_id p st = inr st' -> same_registry st st'.
Proof.
  unfold _update_canary_traffic.
  destruct (registered st canary_id) as [e|[l info]]; [discriminate|].
  intros [= <-]. split; [reflexivity|]. split; cbn; auto.
  apply length_store_set.
Qed.

Lemma complete_same_registry canary_id now st st' :
  _complete_canary_release canary_id now st = inr st' -> same_registry st st'.
Proof.
  unfold _complete_canary_release.
  destruct (registered st canary_id) as [e|[l info]] eqn:Hreg; [discriminate|].
  intros [= <-]. split; [reflexivity|]. split; cbn.
  - apply length_store_set.
  - intros c. rewrite mem_set. destruct (String.eqb c canary_id) eqn:E; auto.
    apply String.eqb_eq in E. subst c. intros _. right.
    eapply registered_mem; eauto.
Qed.

Lemma abort_same_registry canary_id reason now st st' :
  _abort_canary_release canary_id reason now st = inr st' -> same_registry st st'.
Proof.
  unfold _abort_canary_release.
  destruct (registered st canary_id) as [e|[l info]] eqn:Hreg; [discriminate|].
  intros [= <-]. split; [reflexivity|]. split; cbn.
  - apply length_store_set.
  - intros c. rewrite mem_set. destruct (String.eqb c canary_id) eqn:E; auto.
    apply String.eqb_eq in E. subst c. intros _. right.
    eapply registered_mem; eauto.
Qed.

Lemma set_object_same_registry l info st : same_registry st (set_object l info st).
Proof. split; [reflexivity|]. split; cbn; auto. apply length_store_set. Qed.

Lemma same_registry_trans st1 st2 st3 :
  same_registry st1 st2 -> same_registry st2 st3 -> same_registry st1 st3.
Proof.
  intros [A1 [L1 R1]] [A2 [L2 R2]]. split; [congruence|]. split; [congruence|].
  intros c H. destruct (R2 c H) as [H'|H']; auto. rewrite A1 in H'. auto.
Qed.

Lemma monitor_iteration_same_registry canary_id l now env st :
  same_registry st (snd (monitor_iteration canary_id l now env st)).
Proof.
  unfold monitor_iteration.
  destruct (nth_error (canary_objects st) l) as [captured|];
    [|apply same_registry_refl].
  destruct (negb (canary_status_eqb (CanaryInfo.status captured) RUNNING));
    [apply same_registry_refl|].
  destruct (_ <=? _).
  - destruct (_complete_canary_release canary_id now st) eqn:E;
      [apply same_registry_refl|].
    eapply complete_same_registry; eauto.
  - destruct (_evaluate_canary_performance canary_id now env st) as [e|ev];
      [apply same_registry_refl|].
    pose proof (set_object_same_registry l (CanaryInfo.with_evaluation ev captured) st)
      as Hset.
    destruct (Evaluation.decision ev).
    + destruct (_calculate_next_traffic_percentage _ _) as [e|p]; [exact Hset|].
      destruct (_update_canary_traffic _ _ _) eqn:E; [exact Hset|].
      eapply same_registry_trans; [exact Hset|].
      eapply update_canary_traffic_same_registry; eauto.
    + destruct (_abort_canary_release _ _ _ _) eqn:E; [exact Hset|].
      eapply same_registry_trans; [exact Hset|].
      eapply abort_same_registry; eauto.
    + exact Hset.
Qed.

Lemma canary_inv_start config now st :
  canary_inv st -> canary_inv (snd (start_canary_release config now st)).
Proof.
  intros [Hobj Hres]. unfold start_canary_release.
  match goal with
  | |- context [_update_canary_traffic ?c ?p ?s] =>
      assert (Hinv : canary_inv s);
      [|destruct (_update_canary_traffic c p s) eqn:E; cbn [snd]; auto;
        eapply canary_inv_same_registry; [exact Hinv|];
        eapply update_canary_traffic_same_registry; eauto]
  end.
  split; cbn.
  - intros c l. rewrite length_app. cbn.
    destruct (string_dec c (make_canary_id config now)) as [->|Hne].
    + rewrite get_set_same. intros [= <-]. lia.
    + rewrite get_set_other by auto. intros H. apply Hobj in H. lia.
  - intros c H. rewrite mem_set. rewrite (Hres c H). apply orb_true_r.
Qed.

Lemma reachable_canary_inv st : canary_reachable st -> canary_inv st.
Proof.
  induction 1.
  - split; intros c; [discriminate | discriminate].
  - now apply canary_inv_start.
  - eapply canary_inv_same_registry; [eassumption|].
    apply monitor_iteration_same_registry.
  - assumption.
Qed.

(** C4 (amended): for every id that was issued, whatever the status of its
    release ([RUNNING], [PAUSED], [COMPLETED] or [ABORTED]),
    [get_canary_status] returns its live state: status label, current
    traffic percentage, start time, number of evaluations and latest
    evaluation; for an id that was never issued it returns the
    not-found error. *)
Theorem get_canary_status_is_live_or_not_found :
  forall st canary_id,
    canary_reachable st ->
    (forall l,
       PyDict.get (active_canaries st) canary_id = Some l ->
       exists info,
         nth_error (canary_objects st) l = Some info
         /\ get_canary_status canary_id st
            = LiveState canary_id
                (CanaryConfiguration.model_name (CanaryInfo.config info))
                (canary_status_value (CanaryInfo.status info))
                (CanaryInfo.current_traffic_percentage info)
                (CanaryInfo.start_time info)
                (Z.of_nat (List.length (CanaryInfo.evaluations info)))
                (last (map Some (CanaryInfo.evaluations info)) None))
    /\ (PyDict.get (active_canaries st) canary_id = None ->
        get_canary_status canary_id st = CanaryNotFound).
Proof.
  intros st canary_id Hreach.
  destruct (reachable_canary_inv st Hreach) as [Hobj Hres]. split.
  - intros l Hl. specialize (Hobj _ _ Hl).
    destruct (nth_error (canary_objects st) l) as [info|] eqn:E.
    + exists info. split; [reflexivity|].
      unfold get_canary_status. now rewrite (registered_found _ _ _ _ Hl E).
    + apply nth_error_None in E. lia.
  - intros Hnone. unfold get_canary_status, registered. rewrite Hnone.
    destruct (PyDict.get (canary_results st) canary_id) as [r|] eqn:E; auto.
    assert (Hmem : PyDict.mem (canary_results st) canary_id = true)
      by (unfold PyDict.mem; now rewrite E).
    apply Hres in Hmem. unfold PyDict.mem in Hmem. now rewrite Hnone in Hmem.
Qed.

(** The theorem on the example release after its abort, and on an id that
    was never issued. *)
Lemma get_canary_status_is_live_or_not_found_witness :
  let st :=
    snd (monitor_iteration "canary-m-v2-1000" 0 1060 failing_world example_started) in
  (exists info,
     nth_error (canary_objects st) 0 = Some info
     /\ CanaryInfo.status info = ABORTED
     /\ exists ev,
          get_canary_status "canary-m-v2-1000" st
          = LiveState "canary-m-v2-1000" "m" "aborted" 5 1000 1 (Some ev))
  /\ get_canary_status "canary-m-v9-1000" st = CanaryNotFound.
Proof.
  cbv zeta.
  assert (Hreach : canary_reachable
            (snd (monitor_iteration "canary-m-v2-1000" 0 1060 failing_world
                    example_started))).
  { apply creach_turn. unfold example_started. apply creach_start, creach_init. }
  split.
  - destruct (get_canary_status_is_live_or_not_found _ "canary-m-v2-1000" Hreach)
      as [Hlive _].
    destruct (Hlive 0%nat eq_refl) as [info [Hinfo Hstatus]].
    exists info. split; [exact Hinfo|].
    vm_compute in Hinfo. injection Hinfo as <-.
    split; [reflexivity|]. eexists. vm_compute. reflexivity.
  - destruct (get_canary_status_is_live_or_not_found _ "canary-m-v9-1000" Hreach)
      as [_ Hnone].
    apply Hnone. reflexivity.
Defined.

(** * Further properties of the code *)

(** ** TrafficRouter: routing never raises, statistics add up *)

(** The routers that [update_traffic_split] and [route_request] build from
    an empty one. *)
Inductive router_reachable : TrafficRouter -> Prop :=
| rreach_init : router_reachable TrafficRouter_init
| rreach_update : forall model_name split r,
    router_reachable r ->
    router_reachable (update_traffic_split model_name split r)
| rreach_route : forall model_name random_value r,
    router_reachable r ->
    router_reachable (snd (route_request model_name random_value r)).

Lemma router_reachable_ready r : router_reachable r -> counters_ready r.
Proof.
  induction 1.
  - apply counters_ready_init.
  - now apply counters_ready_update.
  - now apply route_request_ready.
Qed.

(** X1: on a router built by [update_traffic_split] and [route_request]
    alone, [route_request] never raises, whatever the service, the stored
    split (also an invalid one) and the draw: it returns a label, and it
    leaves every stored split as it is. *)
Theorem route_request_never_raises :
  forall r model_name random_value,
    router_reachable r ->
    exists label,
      fst (route_request model_name random_value r) = inr label
      /\ routing_rules (snd (route_request model_name random_value r))
         = routing_rules r
      /\ (label = "default"
          \/ exists split,
               live_split r model_name = Some split
               /\ In label (PyDict.keys split)).
Proof.
  intros r model_name random_value Hreach.
  pose proof (router_reachable_ready r Hreach) as Hready.
  pose proof (route_request_rules model_name random_value r) as Hrules.
  unfold route_request in *. unfold live_split.
  destruct (PyDict.get (routing_rules r) model_name) as [[|item rule]|] eqn:Hsplit.
  - eexists. split; [reflexivity|]. split; [exact Hrules|]. now left.
  - destruct (Hready _ _ Hsplit) as [counts [Hcounts Hall]].
    destruct (route_walk (item :: rule) random_value 0) as [variant|] eqn:Hwalk.
    + pose proof (route_walk_In _ _ _ _ Hwalk) as Hin.
      destruct (proj1 (mem_get counts variant) (Hall _ Hin)) as [n Hn].
      rewrite Hcounts, Hn in *. exists variant.
      split; [reflexivity|]. split; [exact Hrules|]. right. eauto.
    + destruct item as [k w]. cbn in *. exists k.
      split; [reflexivity|]. split; [exact Hrules|]. right.
      eexists. split; [reflexivity|]. now left.
  - eexists. split; [reflexivity|]. split; [exact Hrules|]. now left.
Qed.

Lemma route_request_never_raises_witness :
  exists label,
    fst (route_request "svc" 250
           (update_traffic_split "svc" [("a", 150); ("b", -100)] TrafficRouter_init))
    = inr label.
Proof.
  destruct (route_request_never_raises
              (update_traffic_split "svc" [("a", 150); ("b", -100)] TrafficRouter_init)
              "svc" 250 (rreach_update _ _ _ rreach_init))
    as [label [H _]].
  exists label. exact H.
Defined.

Lemma set_fresh {V : Type} (d : dict V) k (v : V) :
  PyDict.mem d k = false -> PyDict.set d k v = d ++ [(k, v)].
Proof.
  unfold PyDict.mem. induction d as [|[k' v'] d IH]; simpl; auto.
  destruct (String.eqb k k') eqn:E; [discriminate|].
  intros H. now rewrite IH.
Qed.

Lemma mem_app_fresh {V : Type} (d : dict V) k :
  ~ In k (PyDict.keys d) -> PyDict.mem d k = false.
Proof.
  intros H. destruct (PyDict.mem d k) eqn:E; auto.
  apply mem_In in E. contradiction.
Qed.

(** The loop that fills [stats["distribution"]], on a dict of counters. *)
Lemma distribution_fold (g : Z -> variant_stats) : forall counts acc,
  NoDup (PyDict.keys acc ++ PyDict.keys counts) ->
  fold_left
    (fun distribution '(variant, count) => PyDict.set distribution variant (g count))
    counts acc
  = acc ++ map (fun '(variant, count) => (variant, g count)) counts.
Proof.
  induction counts as [|[k c] counts IH]; intros acc Hnd; simpl.
  - now rewrite app_nil_r.
  - simpl in Hnd.
    assert (Hk : ~ In k (PyDict.keys acc)).
    { intros Hin. apply NoDup_remove_2 in Hnd. apply Hnd.
      apply in_or_app. now left. }
    rewrite (set_fresh acc k (g c)) by now apply mem_app_fresh.
    rewrite IH.
    + now rewrite <- app_assoc.
    + unfold PyDict.keys in *. rewrite map_app, <- app_assoc. exact Hnd.
Qed.

(** X2: the three answers of [get_traffic_stats].  A service without
    counters gets the empty answer, one whose counters sum to 0 gets the
    total alone, and otherwise the distribution lists the counters of the
    service in their order, each with its own count, and the counts listed
    sum to the total reported. *)
Theorem get_traffic_stats_adds_up :
  forall r model_name,
    (PyDict.get (request_counts r) model_name = None ->
     get_traffic_stats model_name r = StatsUnknown)
    /\ (forall counts,
          PyDict.get (request_counts r) model_name = Some counts ->
          PyDict.wf counts ->
          (sumZ (PyDict.values counts) = 0 ->
           get_traffic_stats model_name r = StatsNoRequests)
          /\ (sumZ (PyDict.values counts) <> 0 ->
              exists distribution,
                get_traffic_stats model_name r
                = Stats (sumZ (PyDict.values counts)) distribution
                /\ PyDict.keys distribution = PyDict.keys counts
                /\ map requests (PyDict.values distribution) = PyDict.values counts
                /\ sumZ (map requests (PyDict.values distribution))
                   = sumZ (PyDict.values counts))).
Proof.
  intros r model_name. split.
  - intros H. unfold get_traffic_stats. now rewrite H.
  - intros counts Hcounts Hwf. unfold get_traffic_stats. rewrite Hcounts. split.
    + intros ->. reflexivity.
    + intros Hne. apply Z.eqb_neq in Hne. rewrite Hne.
      rewrite (distribution_fold
                 (fun count =>
                    {| requests := count;
                       percentage :=
                         (float_of_Z count
                          / float_of_Z (sumZ (PyDict.values counts)) * 100)%float |}))
        by exact Hwf.
      unfold PyDict.empty. rewrite app_nil_l.
      eexists. split; [reflexivity|].
      unfold PyDict.keys, PyDict.values. rewrite !map_map.
      assert (Hreq : forall g : Z -> variant_stats,
                (forall c, requests (g c) = c) ->
                map (fun x : string * Z =>
                       requests (snd (let '(variant, count) := x in (variant, g count))))
                  counts = map snd counts).
      { intros g Hg. apply map_ext. intros [k c]. apply Hg. }
      split; [apply map_ext; now intros [k c]|].
      split; [apply Hreq; reflexivity | rewrite Hreq; reflexivity].
Qed.

(** ** HealthChecker: the report and the deployment after a run *)

(** The error message a rule's outcome leaves in the report. *)
Definition outcome_errors (o : exn + CheckResult.t) : list fstring :=
  match o with
  | inr check_result =>
      if CheckResult.passed check_result then []
      else [CheckResult.message check_result]
  | inl e => [[Lit "Validation rule failed: "; Lit (str_exn e)]]
  end.

Lemma validate_step_errors vr deployment (r : rule) :
  ValidationResult.errors (fst (validate_step (vr, deployment) r))
  = ValidationResult.errors vr ++ outcome_errors (fst (r deployment)).
Proof.
  unfold validate_step.
  destruct (r deployment) as [[e|c] d']; cbn; auto.
  destruct (CheckResult.passed c); cbn; auto using app_nil_r.
Qed.

Lemma validate_loop_errors rules : forall vr deployment,
  ValidationResult.errors (fst (fold_left validate_step rules (vr, deployment)))
  = ValidationResult.errors vr
    ++ flat_map outcome_errors (rule_outcomes rules deployment).
Proof.
  induction rules as [|r rules IH]; intros vr deployment.
  - simpl. now rewrite app_nil_r.
  - cbn [fold_left rule_outcomes flat_map].
    pose proof (validate_step_errors vr deployment r) as He.
    destruct (validate_step_outcome vr deployment r) as [Hd _].
    destruct (validate_step (vr, deployment) r) as [vr1 d1].
    cbn [fst snd] in He, Hd. subst d1.
    now rewrite IH, He, <- app_assoc.
Qed.

Lemma rule_outcomes_length rules : forall deployment,
  List.length (rule_outcomes rules deployment) = List.length rules.
Proof. induction rules; intros; simpl; auto. Qed.

Lemma outcome_errors_count outcomes :
  List.length (flat_map outcome_errors outcomes)
  = List.length (filter (fun o => negb (outcome_ok o)) outcomes)
  /\ (forallb outcome_ok outcomes = true <-> flat_map outcome_errors outcomes = []).
Proof.
  induction outcomes as [|o outcomes [IHn IHp]]; [simpl; tauto|].
  cbn [flat_map filter forallb]. rewrite length_app.
  destruct o as [e|c]; cbn [outcome_ok outcome_errors negb].
  - cbn. split; [now rewrite IHn|]. split; discriminate.
  - destruct (CheckResult.passed c); cbn.
    + split; [exact IHn | exact IHp].
    + split; [now rewrite IHn|]. split; discriminate.
Qed.

(** X3: the loop of [validate_deployment], for any list of rules (also
    rules that let an exception escape): every rule is run; the report's
    [passed] flag is true exactly when its list of errors is empty; and the
    errors are one message per rule that returned a failed result or raised,
    in the order of the rules. *)
Theorem validation_passes_iff_no_errors :
  forall rules deployment,
    let report := fst (validate_with rules deployment) in
    let outcomes := rule_outcomes rules deployment in
    List.length outcomes = List.length rules
    /\ ValidationResult.checks report = returned_checks outcomes
    /\ ValidationResult.errors report = flat_map outcome_errors outcomes
    /\ List.length (ValidationResult.errors report)
       = List.length (filter (fun o => negb (outcome_ok o)) outcomes)
    /\ (ValidationResult.passed report = true
        <-> ValidationResult.errors report = []).
Proof.
  intros rules deployment report outcomes. subst report outcomes.
  destruct (validate_with_outcomes rules deployment) as [Hc Hp].
  assert (He : ValidationResult.errors (fst (validate_with rules deployment))
               = flat_map outcome_errors (rule_outcomes rules deployment)).
  { unfold validate_with. now rewrite validate_loop_errors. }
  destruct (outcome_errors_count (rule_outcomes rules deployment)) as [Hn Hiff].
  split; [apply rule_outcomes_length|]. split; [exact Hc|].
  split; [exact He|]. rewrite He, Hp. split; [exact Hn | exact Hiff].
Qed.

(** The deployment after the rules of a list, run in order. *)
Lemma validate_with_deployment rules : forall vr deployment,
  snd (fold_left validate_step rules (vr, deployment))
  = fold_left (fun d (r : rule) => snd (r d)) rules deployment.
Proof.
  induction rules as [|r rules IH]; intros vr deployment; [reflexivity|].
  cbn [fold_left].
  destruct (validate_step_outcome vr deployment r) as [Hd _].
  destruct (validate_step (vr, deployment) r) as [vr1 d1].
  cbn [snd] in Hd. subst d1. apply IH.
Qed.

(** X4: what [validate_deployment] does to the deployment object.  Its id,
    model, version, slot, status, endpoint, creation time and traffic
    percentage are never changed; when the health call returns, its label
    and the time of the run are recorded; when it raises, the health fields
    stay as they were. *)
Theorem validate_deployment_touches_health_only :
  forall now env d,
    let d' := snd (validate_deployment now env d) in
    ModelDeployment.deployment_id d' = ModelDeployment.deployment_id d
    /\ ModelDeployment.model_name d' = ModelDeployment.model_name d
    /\ ModelDeployment.model_version d' = ModelDeployment.model_version d
    /\ ModelDeployment.slot d' = ModelDeployment.slot d
    /\ ModelDeployment.status d' = ModelDeployment.status d
    /\ ModelDeployment.endpoint_url d' = ModelDeployment.endpoint_url d
    /\ ModelDeployment.created_at d' = ModelDeployment.created_at d
    /\ ModelDeployment.traffic_percentage d' = ModelDeployment.traffic_percentage d
    /\ match health_probe env with
       | inr label =>
           ModelDeployment.health_status d' = label
           /\ ModelDeployment.last_health_check d' = Some now
       | inl _ =>
           ModelDeployment.health_status d' = ModelDeployment.health_status d
           /\ ModelDeployment.last_health_check d'
              = ModelDeployment.last_health_check d
       end.
Proof.
  intros now env d d'. subst d'.
  unfold validate_deployment, validate_with. rewrite validate_with_deployment.
  unfold validation_rules. cbn [fold_left].
  unfold _validate_api_compatibility, _validate_performance_metrics,
    _validate_model_response, _validate_endpoint_connectivity.
  destruct (health_probe env) as [e|label];
    destruct (run_test_cases env test_cases 0 0 []) as [e2|[n results]];
    destruct (collect_samples env (seq 0 5) []) as [e3|times];
    try destruct (nth_error (sorted times) 4);
    destruct (compatibility_probe env); cbn; repeat split.
Qed.

(** ** BlueGreenDeploymentManager: the traffic shift *)

(** The split written at a step of the shift. *)
Definition shift_split (new_slot : DeploymentSlot) (step : Z) : dict Z :=
  PyDict.literal2 (slot_value new_slot) step
    (slot_value (_get_opposite_slot new_slot)) (100 - step).

Lemma shift_split_entries new_slot step :
  shift_split new_slot step
  = [(slot_value new_slot, step);
     (slot_value (_get_opposite_slot new_slot), 100 - step)].
Proof. destruct new_slot; reflexivity. Qed.

Definition healthy_at (env : Collaborators) (model_name : string)
  (dep : ModelDeployment.t) (step : Z) : bool :=
  MonitoringResult.healthy (_monitor_traffic_shift env model_name dep step).

Lemma shift_loop_stops_at_first_failure env model_name dep steps : forall r,
  let out := shift_loop env model_name dep steps r in
  (forall other, other <> model_name ->
     live_split (snd out) other = live_split r other)
  /\ match fst out with
     | ShiftSucceeded =>
         Forall (fun s => healthy_at env model_name dep s = true) steps
         /\ (steps <> [] ->
             live_split (snd out) model_name
             = Some (shift_split (ModelDeployment.slot dep) (last steps 0)))
     | ShiftFailed details =>
         exists before step after,
           steps = before ++ step :: after
           /\ Forall (fun s => healthy_at env model_name dep s = true) before
           /\ details = _monitor_traffic_shift env model_name dep step
           /\ MonitoringResult.healthy details = false
           /\ live_split (snd out) model_name
              = Some (shift_split (ModelDeployment.slot dep) step)
     end.
Proof.
  induction steps as [|step steps IH]; intros r out; subst out.
  - cbn. split; [reflexivity|]. split; [constructor | congruence].
  - cbn [shift_loop]. fold (shift_split (ModelDeployment.slot dep) step).
    destruct (MonitoringResult.healthy
                (_monitor_traffic_shift env model_name dep step)) eqn:Hh;
      cbn [negb fst snd].
    + destruct (IH (update_traffic_split model_name
                      (shift_split (ModelDeployment.slot dep) step) r))
        as [Hother Hcase].
      split.
      * intros other Hne. rewrite Hother by exact Hne.
        now apply live_split_update_other.
      * destruct (fst (shift_loop env model_name dep steps _)) as [|details].
        -- destruct Hcase as [Hall Hlast]. split; [now constructor|].
           intros _. destruct steps as [|s2 steps'].
           ++ cbn. apply live_split_update.
           ++ rewrite Hlast by discriminate. reflexivity.
        -- destruct Hcase as [before [s [after [Heq [Hall Hrest]]]]].
           exists (step :: before), s, after. split; [now rewrite Heq|].
           split; [now constructor | exact Hrest].
    + split.
      * intros other Hne. now apply live_split_update_other.
      * exists [], step, steps. split; [reflexivity|]. split; [constructor|].
        split; [reflexivity|]. split; [exact Hh | apply live_split_update].
Qed.

(** X5: [_gradual_traffic_shift] walks the steps 10, 25, 50, 75, 100 and
    stops at the first one whose monitoring is not healthy.  It touches
    neither the registry nor the pointers nor the splits of other models.
    When it succeeds every step was healthy and the split is 100 on the new
    slot and 0 on the other; when it fails at a step, every earlier step was
    healthy, the result carries the monitoring of that step, and the split
    is left at that step's share for the new slot and the rest for the
    other. *)
Theorem gradual_shift_stops_at_first_unhealthy_step :
  forall env model_name dep st,
    let out := _gradual_traffic_shift env model_name dep st in
    let new_slot := ModelDeployment.slot dep in
    let old_slot := _get_opposite_slot new_slot in
    deployments (snd out) = deployments st
    /\ active_slots (snd out) = active_slots st
    /\ (forall other, other <> model_name ->
          live_split (traffic_router (snd out)) other
          = live_split (traffic_router st) other)
    /\ match fst out with
       | ShiftSucceeded =>
           Forall (fun s => healthy_at env model_name dep s = true) traffic_steps
           /\ live_split (traffic_router (snd out)) model_name
              = Some [(slot_value new_slot, 100); (slot_value old_slot, 0)]
       | ShiftFailed details =>
           exists before step after,
             traffic_steps = before ++ step :: after
             /\ Forall (fun s => healthy_at env model_name dep s = true) before
             /\ details = _monitor_traffic_shift env model_name dep step
             /\ MonitoringResult.healthy details = false
             /\ live_split (traffic_router (snd out)) model_name
                = Some [(slot_value new_slot, step);
                        (slot_value old_slot, 100 - step)]
       end.
Proof.
  intros env model_name dep st out new_slot old_slot. subst out new_slot old_slot.
  unfold _gradual_traffic_shift.
  destruct (shift_loop_stops_at_first_failure env model_name dep traffic_steps
              (traffic_router st)) as [Hother Hcase].
  destruct (shift_loop env model_name dep traffic_steps (traffic_router st))
    as [[|details] router]; cbn [fst snd] in *.
  - split; [reflexivity|]. split; [reflexivity|]. split; [exact Hother|].
    destruct Hcase as [Hall Hlast]. split; [exact Hall|].
    cbn [traffic_router with_router]. rewrite Hlast by discriminate.
    now rewrite shift_split_entries.
  - split; [reflexivity|]. split; [reflexivity|]. split; [exact Hother|].
    destruct Hcase as [before [step [after [H1 [H2 [H3 [H4 H5]]]]]]].
    exists before, step, after. cbn [traffic_router with_router].
    rewrite H5, shift_split_entries. auto.
Qed.

(** A router that differs from another at most by a valid split of one
    model. *)
Definition writes_valid (model_name : string) (r r' : TrafficRouter) : Prop :=
  forall other,
    live_split r' other = live_split r other
    \/ (other = model_name
        /\ exists s, live_split r' other = Some s /\ valid_split s).

Lemma writes_valid_refl model_name r : writes_valid model_name r r.
Proof. intros other. now left. Qed.

Lemma writes_valid_trans model_name r1 r2 r3 :
  writes_valid model_name r1 r2 -> writes_valid model_name r2 r3 ->
  writes_valid model_name r1 r3.
Proof.
  intros H12 H23 other. destruct (H23 other) as [H|H]; [|now right].
  rewrite H. apply H12.
Qed.

Lemma writes_valid_update model_name split r :
  valid_split split ->
  writes_valid model_name r (update_traffic_split model_name split r).
Proof.
  intros Hv other. destruct (string_dec other model_name) as [->|Hne].
  - right. split; [reflexivity|]. exists split. split; [apply live_split_update | exact Hv].
  - left. now apply live_split_update_other.
Qed.

Lemma valid_shift_split new_slot step :
  0 <= step <= 100 -> valid_split (shift_split new_slot step).
Proof.
  intros H. rewrite shift_split_entries. split.
  - unfold PyDict.values. cbn [map snd].
    constructor; [lia | constructor; [lia | constructor]].
  - unfold PyDict.values, sumZ. cbn [map snd fold_right]. lia.
Qed.

Lemma shift_loop_writes_valid env model_name dep steps : forall r,
  Forall (fun s => 0 <= s <= 100) steps ->
  writes_valid model_name r (snd (shift_loop env model_name dep steps r)).
Proof.
  induction steps as [|step steps IH]; intros r Hsteps.
  - apply writes_valid_refl.
  - inversion Hsteps as [|? ? Hstep Hrest]; subst.
    cbn [shift_loop]. fold (shift_split (ModelDeployment.slot dep) step).
    pose proof (writes_valid_update model_name
                  (shift_split (ModelDeployment.slot dep) step) r
                  (valid_shift_split _ _ Hstep)) as Hfirst.
    destruct (negb _); cbn [snd]; [exact Hfirst|].
    eapply writes_valid_trans; [exact Hfirst | now apply IH].
Qed.

Lemma traffic_steps_in_range : Forall (fun s => 0 <= s <= 100) traffic_steps.
Proof. unfold traffic_steps. repeat (constructor; [lia|]). constructor. Qed.

(** ** BlueGreenDeploymentManager: every way out of [deploy_new_version] *)

(** The deployment object as [_deploy_to_azure] leaves it. *)
Definition provisioned (model_name model_version : string)
  (new_slot : DeploymentSlot) (now : N) : ModelDeployment.t :=
  ModelDeployment.mk
    (make_deployment_id model_name model_version new_slot now)
    model_name model_version new_slot STAGING
    ("https://" ++ model_name ++ "-" ++ slot_value new_slot
       ++ ".cognitiveservices.azure.com")
    now None "unknown" 0 (Some PyDict.empty).

Definition mark_failed (id : string) (st : BlueGreenDeploymentManager)
  : BlueGreenDeploymentManager :=
  with_deployments
    (update_entry id (ModelDeployment.with_status FAILED) (deployments st)) st.

(** The four exits of [deploy_new_version] and the state each leaves. *)
Lemma deploy_cases model_name model_version model_config now env st :
  let new_slot := inactive_slot st model_name in
  let id := make_deployment_id model_name model_version new_slot now in
  let validated :=
    validate_deployment now env (provisioned model_name model_version new_slot now) in
  let registered_st :=
    with_deployments (PyDict.set (deployments st) id (snd validated)) st in
  let shifted := _gradual_traffic_shift env model_name (snd validated) registered_st in
  deploy_new_version model_name model_version model_config now env st
  = match provisioning env with
    | Some e => (DeploymentFailed e, mark_failed id st)
    | None =>
        if negb (ValidationResult.passed (fst validated))
        then (ValidationFailed (fst validated), mark_failed id registered_st)
        else
          match fst shifted with
          | ShiftFailed details =>
              (TrafficShiftFailed details,
               snd (rollback_deployment model_name (mark_failed id (snd shifted))))
          | ShiftSucceeded =>
              let switched :=
                _complete_blue_green_switch model_name new_slot (snd shifted) in
              (Deployed id (slot_value new_slot)
                 (ModelDeployment.endpoint_url (snd validated)),
               with_deployments
                 (update_entry id (ModelDeployment.with_status ACTIVE)
                    (deployments switched))
                 switched)
          end
    end.
Proof.
  cbv zeta. unfold deploy_new_version, _deploy_to_azure, mark_failed.
  cbn [ModelDeployment.model_name ModelDeployment.slot].
  fold (inactive_slot st model_name).
  destruct (provisioning env) as [e|]; [reflexivity|].
  change (ModelDeployment.with_endpoint_url _ _)
    with (provisioned model_name model_version (inactive_slot st model_name) now).
  destruct (validate_deployment now env
              (provisioned model_name model_version (inactive_slot st model_name) now))
    as [vr dep].
  cbn [fst snd].
  destruct (negb (ValidationResult.passed vr)); [reflexivity|].
  destruct (_gradual_traffic_shift env model_name dep _) as [[|details] st2];
    reflexivity.
Qed.

Lemma validated_core now env model_name model_version new_slot :
  let dep :=
    snd (validate_deployment now env
           (provisioned model_name model_version new_slot now)) in
  ModelDeployment.model_name dep = model_name
  /\ ModelDeployment.slot dep = new_slot
  /\ ModelDeployment.status dep = STAGING
  /\ ModelDeployment.traffic_percentage dep = 0
  /\ ModelDeployment.endpoint_url dep
     = ("https://" ++ model_name ++ "-" ++ slot_value new_slot
          ++ ".cognitiveservices.azure.com")%string
  /\ ModelDeployment.deployment_id dep
     = make_deployment_id model_name model_version new_slot now.
Proof.
  cbv zeta.
  unfold validate_deployment, validate_with. rewrite validate_with_deployment.
  unfold validation_rules. cbn [fold_left].
  unfold _validate_api_compatibility, _validate_performance_metrics,
    _validate_model_response, _validate_endpoint_connectivity.
  destruct (health_probe env) as [e|label];
    destruct (run_test_cases env test_cases 0 0 []) as [e2|[n results]];
    destruct (collect_samples env (seq 0 5) []) as [e3|times];
    try destruct (nth_error (sorted times) 4);
    destruct (compatibility_probe env); cbn; repeat split.
Qed.

Lemma deployments_mark_failed_registered id dep st :
  PyDict.get
    (deployments
       (mark_failed id (with_deployments (PyDict.set (deployments st) id dep) st)))
    id
  = Some (ModelDeployment.with_status FAILED dep)
  /\ forall k, k <> id ->
       PyDict.get
         (deployments
            (mark_failed id
               (with_deployments (PyDict.set (deployments st) id dep) st)))
         k
       = PyDict.get (deployments st) k.
Proof.
  unfold mark_failed. cbn [deployments with_deployments]. split.
  - apply get_update_entry_same, get_set_same.
  - intros k Hne. rewrite get_update_entry_other, get_set_other by exact Hne.
    reflexivity.
Qed.

(** X6: when [deploy_new_version] ends with a validation failure, the
    report it carries has failed, no traffic was moved (the router is as it
    was), the active-slot pointers are as they were, no other registry entry
    was touched, and the new deployment is registered as [FAILED] in the
    inactive slot with no traffic. *)
Theorem validation_failure_moves_no_traffic :
  forall model_name model_version model_config now env st vr st',
    deploy_new_version model_name model_version model_config now env st
    = (ValidationFailed vr, st') ->
    let new_slot := inactive_slot st model_name in
    let id := make_deployment_id model_name model_version new_slot now in
    ValidationResult.passed vr = false
    /\ traffic_router st' = traffic_router st
    /\ active_slots st' = active_slots st
    /\ (exists d,
          PyDict.get (deployments st') id = Some d
          /\ ModelDeployment.status d = FAILED
          /\ ModelDeployment.model_name d = model_name
          /\ ModelDeployment.slot d = new_slot
          /\ ModelDeployment.traffic_percentage d = 0)
    /\ (forall k, k <> id ->
          PyDict.get (deployments st') k = PyDict.get (deployments st) k).
Proof.
  intros model_name model_version model_config now env st vr st' H new_slot id.
  rewrite deploy_cases in H. cbv zeta in H. fold new_slot id in H.
  destruct (provisioning env); [discriminate|].
  destruct (validated_core now env model_name model_version new_slot)
    as [Hm [Hs [_ [Ht _]]]].
  destruct (negb (ValidationResult.passed
                    (fst (validate_deployment now env
                            (provisioned model_name model_version new_slot now)))))
    eqn:Hpassed.
  - injection H as <- <-. apply negb_true_iff in Hpassed.
    destruct (deployments_mark_failed_registered id
                (snd (validate_deployment now env
                        (provisioned model_name model_version new_slot now))) st)
      as [Hnew Hothers].
    split; [exact Hpassed|]. split; [reflexivity|]. split; [reflexivity|].
    split; [|exact Hothers].
    eexists. split; [exact Hnew|]. cbn. auto.
  - destruct (fst (_gradual_traffic_shift _ _ _ _)); discriminate.
Qed.

(** The sample's stand-ins with an endpoint that answers [unhealthy]. *)
Definition unhealthy_world : Collaborators :=
  {| statistics_mean := statistics_mean healthy_world;
     health_probe := inr "unhealthy";
     model_call := model_call healthy_world;
     latency_sample := latency_sample healthy_world;
     compatibility_probe := compatibility_probe healthy_world;
     provisioning := provisioning healthy_world;
     live_error_rate := live_error_rate healthy_world;
     live_avg_response_time := live_avg_response_time healthy_world;
     version_metrics := version_metrics healthy_world |}.

Lemma validation_failure_moves_no_traffic_witness :
  let st := deploy_versions "m" [("v1", 1000%N)] (BlueGreen_init TrafficRouter_init) in
  traffic_router
    (snd (deploy_new_version "m" "v2" PyDict.empty 2000 unhealthy_world st))
  = traffic_router st.
Proof.
  cbv zeta.
  set (st := deploy_versions "m" [("v1", 1000%N)] (BlueGreen_init TrafficRouter_init)).
  assert (H : exists vr,
             deploy_new_version "m" "v2" PyDict.empty 2000 unhealthy_world st
             = (ValidationFailed vr,
                snd (deploy_new_version "m" "v2" PyDict.empty 2000
                       unhealthy_world st))).
  { vm_compute. eexists. reflexivity. }
  destruct H as [vr H].
  destruct (validation_failure_moves_no_traffic _ _ _ _ _ _ _ _ H) as [_ [Hr _]].
  exact Hr.
Defined.

(** X7: when the provisioning call raises, [deploy_new_version] returns the
    failure with that exception; nothing is registered, no traffic is moved
    and no pointer changes.  The one thing it writes: an entry already
    registered under the id the new deployment would have had is marked
    [FAILED]. *)
Theorem provisioning_failure_registers_nothing :
  forall model_name model_version model_config now env st e st',
    deploy_new_version model_name model_version model_config now env st
    = (DeploymentFailed e, st') ->
    let id :=
      make_deployment_id model_name model_version
        (inactive_slot st model_name) now in
    provisioning env = Some e
    /\ traffic_router st' = traffic_router st
    /\ active_slots st' = active_slots st
    /\ PyDict.keys (deployments st') = PyDict.keys (deployments st)
    /\ (forall k, k <> id ->
          PyDict.get (deployments st') k = PyDict.get (deployments st) k)
    /\ PyDict.get (deployments st') id
       = option_map (ModelDeployment.with_status FAILED)
           (PyDict.get (deployments st) id).
Proof.
  intros model_name model_version model_config now env st e st' H id.
  rewrite deploy_cases in H. cbv zeta in H. fold id in H.
  destruct (provisioning env) as [e'|].
  - injection H as <- <-. unfold mark_failed. cbn [deployments with_deployments
      traffic_router active_slots].
    split; [reflexivity|]. split; [reflexivity|]. split; [reflexivity|].
    split; [apply keys_update_entry|]. split.
    + intros k Hne. now apply get_update_entry_other.
    + destruct (PyDict.get (deployments st) id) as [d|] eqn:E.
      * now apply get_update_entry_same.
      * unfold update_entry. now rewrite E.
  - destruct (negb _); [discriminate|].
    destruct (fst (_gradual_traffic_shift _ _ _ _)); discriminate.
Qed.

(** The sample's stand-ins with a provisioning call that raises. *)
Definition out_of_quota_world : Collaborators :=
  {| statistics_mean := statistics_mean healthy_world;
     health_probe := health_probe healthy_world;
     model_call := model_call healthy_world;
     latency_sample := latency_sample healthy_world;
     compatibility_probe := compatibility_probe healthy_world;
     provisioning := Some (Exception "quota exceeded");
     live_error_rate := live_error_rate healthy_world;
     live_avg_response_time := live_avg_response_time healthy_world;
     version_metrics := version_metrics healthy_world |}.

Lemma provisioning_failure_registers_nothing_witness :
  let st := deploy_versions "m" [("v1", 1000%N)] (BlueGreen_init TrafficRouter_init) in
  PyDict.keys
    (deployments
       (snd (deploy_new_version "m" "v2" PyDict.empty 2000 out_of_quota_world st)))
  = ["m-v1-green-1000"].
Proof.
  cbv zeta.
  set (st := deploy_versions "m" [("v1", 1000%N)] (BlueGreen_init TrafficRouter_init)).
  destruct (provisioning_failure_registers_nothing "m" "v2" PyDict.empty 2000%N
              out_of_quota_world st (Exception "quota exceeded")
              (snd (deploy_new_version "m" "v2" PyDict.empty 2000
                      out_of_quota_world st)))
    as [_ [_ [_ [Hkeys _]]]].
  - vm_compute. reflexivity.
  - rewrite Hkeys. vm_compute. reflexivity.
Defined.

Lemma switch_split_entries new_slot :
  PyDict.literal2 (slot_value new_slot) 100
    (slot_value (_get_opposite_slot new_slot)) 0
  = [(slot_value new_slot, 100); (slot_value (_get_opposite_slot new_slot), 0)].
Proof. destruct new_slot; reflexivity. Qed.

Lemma mark_slot_inactive_other_slot model_name old ds id dep :
  PyDict.get ds id = Some dep ->
  ModelDeployment.slot dep <> old ->
  PyDict.get (mark_slot_inactive model_name old ds) id = Some dep.
Proof.
  intros Hget Hne. unfold mark_slot_inactive.
  rewrite get_map_values, Hget. cbn [option_map].
  destruct (slot_eqb (ModelDeployment.slot dep) old) eqn:E.
  - apply slot_eqb_eq in E. contradiction.
  - now rewrite andb_false_r.
Qed.

(** X8: what a successful [deploy_new_version] returns and leaves.  The id
    is the one made for the model, the version, the inactive slot and the
    clock; the slot returned is the inactive slot and the endpoint the one
    provisioning gave; the pointer of the model names the new slot; the
    split of the model is 100 on the new slot and 0 on the other; pointers
    and splits of other models are untouched; and the new deployment is
    registered [ACTIVE] in the new slot, with a [traffic_percentage] that is
    still 0. *)
Theorem deploy_success_switches_all_traffic :
  forall model_name model_version model_config now env st id slot endpoint st',
    deploy_new_version model_name model_version model_config now env st
    = (Deployed id slot endpoint, st') ->
    let new_slot := inactive_slot st model_name in
    id = make_deployment_id model_name model_version new_slot now
    /\ slot = slot_value new_slot
    /\ endpoint
       = ("https://" ++ model_name ++ "-" ++ slot_value new_slot
            ++ ".cognitiveservices.azure.com")%string
    /\ PyDict.get (active_slots st') model_name = Some new_slot
    /\ live_split (traffic_router st') model_name
       = Some [(slot_value new_slot, 100);
               (slot_value (_get_opposite_slot new_slot), 0)]
    /\ (forall other, other <> model_name ->
          PyDict.get (active_slots st') other = PyDict.get (active_slots st) other
          /\ live_split (traffic_router st') other
             = live_split (traffic_router st) other)
    /\ (exists d,
          PyDict.get (deployments st') id = Some d
          /\ ModelDeployment.status d = ACTIVE
          /\ ModelDeployment.slot d = new_slot
          /\ ModelDeployment.traffic_percentage d = 0).
Proof.
  intros model_name model_version model_config now env st id slot endpoint st'
    H new_slot.
  rewrite deploy_cases in H. cbv zeta in H. fold new_slot in H.
  destruct (provisioning env); [discriminate|].
  destruct (validated_core now env model_name model_version new_slot)
    as [Hm [Hs [_ [Ht [Hurl _]]]]].
  set (dep := snd (validate_deployment now env
                     (provisioned model_name model_version new_slot now))) in *.
  destruct (negb _); [discriminate|].
  set (st1 := with_deployments
                (PyDict.set (deployments st)
                   (make_deployment_id model_name model_version new_slot now) dep)
                st) in *.
  pose proof (gradual_shift_state env model_name dep st1) as Hstate.
  destruct (shift_loop_stops_at_first_failure env model_name dep traffic_steps
              (traffic_router st1)) as [Hother _].
  destruct (_gradual_traffic_shift env model_name dep st1) as [[|details] st2];
    cbn [fst snd] in *; [|discriminate].
  assert (Hds : deployments st2 = deployments st1) by now rewrite Hstate.
  assert (Hslots : active_slots st2 = active_slots st1) by now rewrite Hstate.
  assert (Hother' : forall other, other <> model_name ->
            live_split (traffic_router st2) other
            = live_split (traffic_router st) other).
  { intros other Hne. rewrite Hstate. cbn [traffic_router with_router].
    now apply Hother. }
  clear Hother Hstate. rename Hother' into Hother.
  injection H as <- <- <- <-.
  unfold _complete_blue_green_switch.
  cbn [with_deployments deployments traffic_router active_slots].
  split; [reflexivity|]. split; [reflexivity|]. split; [exact Hurl|].
  split; [apply get_set_same|].
  split; [rewrite live_split_update; now rewrite switch_split_entries|].
  split.
  - intros other Hne. rewrite get_set_other by exact Hne.
    rewrite live_split_update_other by exact Hne.
    rewrite Hslots. unfold st1. split; [reflexivity | now apply Hother].
  - exists (ModelDeployment.with_status ACTIVE dep).
    split; [|cbn; auto].
    apply get_update_entry_same. rewrite Hslots, Hds. unfold st1.
    cbn [deployments with_deployments active_slots].
    destruct (PyDict.get (active_slots st) model_name) as [old|] eqn:Hold.
    + apply mark_slot_inactive_other_slot; [apply get_set_same|].
      rewrite Hs. intros Heq.
      apply inactive_slot_not_active in Hold. fold new_slot in Hold. congruence.
    + apply get_set_same.
Qed.

Lemma deploy_success_switches_all_traffic_witness :
  let st := deploy_versions "m" [("v1", 1000%N)] (BlueGreen_init TrafficRouter_init) in
  live_split
    (traffic_router
       (snd (deploy_new_version "m" "v2" PyDict.empty 2000 healthy_world st))) "m"
  = Some [("blue", 100); ("green", 0)].
Proof.
  cbv zeta.
  set (st := deploy_versions "m" [("v1", 1000%N)] (BlueGreen_init TrafficRouter_init)).
  destruct (deploy_success_switches_all_traffic "m" "v2" PyDict.empty 2000%N
              healthy_world st "m-v2-blue-2000" "blue"
              "https://m-blue.cognitiveservices.azure.com"
              (snd (deploy_new_version "m" "v2" PyDict.empty 2000 healthy_world st)))
    as [_ [_ [_ [_ [Hsplit _]]]]].
  - vm_compute. reflexivity.
  - rewrite Hsplit. reflexivity.
Defined.

Lemma valid_rollback_split current :
  valid_split
    (PyDict.literal2 (slot_value (_get_opposite_slot current)) 100
       (slot_value current) 0).
Proof.
  destruct current; (split; [repeat (constructor; [cbn; lia|]); constructor | reflexivity]).
Qed.

Lemma rollback_writes_valid model_name st :
  writes_valid model_name (traffic_router st)
    (traffic_router (snd (rollback_deployment model_name st))).
Proof.
  unfold rollback_deployment.
  destruct (PyDict.get (active_slots st) model_name) as [current|];
    [|apply writes_valid_refl].
  destruct (mutate_first _ _ _) as [[previous ds]|]; [|apply writes_valid_refl].
  cbn [snd traffic_router]. apply writes_valid_update, valid_rollback_split.
Qed.

(** X9: [update_traffic_split] checks nothing, but the blue-green manager
    only ever hands it valid splits.  After [deploy_new_version] and after
    [rollback_deployment], whatever their outcome, the split of every model
    is either the one stored before the call or, for the model of the call
    only, a split with non-negative weights that sum to exactly 100. *)
Theorem blue_green_writes_valid_splits :
  forall model_name model_version model_config now env st other,
    let after_deploy :=
      traffic_router
        (snd (deploy_new_version model_name model_version model_config now env st)) in
    let after_rollback :=
      traffic_router (snd (rollback_deployment model_name st)) in
    (live_split after_deploy other = live_split (traffic_router st) other
     \/ (other = model_name
         /\ exists s, live_split after_deploy other = Some s /\ valid_split s))
    /\ (live_split after_rollback other = live_split (traffic_router st) other
        \/ (other = model_name
            /\ exists s, live_split after_rollback other = Some s /\ valid_split s)).
Proof.
  intros model_name model_version model_config now env st other.
  cbv zeta. split; [|apply (rollback_writes_valid model_name st other)].
  revert other. change (writes_valid model_name (traffic_router st)
    (traffic_router
       (snd (deploy_new_version model_name model_version model_config now env st)))).
  rewrite deploy_cases. cbv zeta.
  destruct (provisioning env); [apply writes_valid_refl|].
  destruct (negb _); [apply writes_valid_refl|].
  set (dep := snd (validate_deployment now env _)).
  set (st1 := with_deployments _ st).
  assert (Hshift : writes_valid model_name (traffic_router st)
                     (traffic_router (snd (_gradual_traffic_shift env model_name dep st1)))).
  { rewrite gradual_shift_state. cbn [traffic_router with_router].
    apply (shift_loop_writes_valid env model_name dep traffic_steps
             (traffic_router st) traffic_steps_in_range). }
  destruct (fst (_gradual_traffic_shift env model_name dep st1)); cbn [snd].
  - unfold _complete_blue_green_switch.
    cbn [with_deployments traffic_router].
    eapply writes_valid_trans; [exact Hshift|].
    apply writes_valid_update. rewrite switch_split_entries. split.
    + repeat (constructor; [cbn; lia|]). constructor.
    + reflexivity.
  - eapply writes_valid_trans; [exact Hshift|].
    apply (rollback_writes_valid model_name
             (mark_failed _ (snd (_gradual_traffic_shift env model_name dep st1)))).
Qed.

(** ** BlueGreenDeploymentManager: rollback *)

Lemma mutate_first_entries {V : Type} (p : V -> bool) (f : V -> V)
  (d : dict V) found d' :
  mutate_first p f d = Some (found, d') ->
  exists kstar,
    In (kstar, found) d /\ In (kstar, f found) d' /\ p found = true
    /\ forall k v, In (k, v) d' -> In (k, v) d \/ (k = kstar /\ v = f found).
Proof.
  intros H. apply mutate_first_found in H
    as [before [kstar [after [-> [-> [Hp _]]]]]].
  exists kstar. split; [apply in_or_app; right; now left|].
  split; [apply in_or_app; right; now left|]. split; [exact Hp|].
  intros k v Hin. apply in_app_or in Hin as [Hin|[[= <- <-]|Hin]].
  - left. apply in_or_app. now left.
  - now right.
  - left. apply in_or_app. right. now right.
Qed.

Lemma In_mark_slot_inactive model_name slot ds k d :
  In (k, d) ds ->
  In (k,
      if String.eqb (ModelDeployment.model_name d) model_name
         && slot_eqb (ModelDeployment.slot d) slot
      then ModelDeployment.with_traffic_percentage 0
             (ModelDeployment.with_status INACTIVE d)
      else d)
    (mark_slot_inactive model_name slot ds).
Proof.
  intros H. unfold mark_slot_inactive, map_values.
  apply in_map_iff. exists (k, d). split; [reflexivity | exact H].
Qed.

Lemma opposite_slot_differs slot : _get_opposite_slot slot <> slot.
Proof. destruct slot; discriminate. Qed.

(** X10: the three outcomes of [rollback_deployment].  Without an active
    slot for the model, or with one but no inactive deployment of the model
    in the opposite slot, it fails and the state is exactly as before.
    Otherwise it returns the id of the deployment it restores and the
    opposite slot: the pointer names that slot, the split is 100 on it and 0
    on the slot that was active, the restored deployment is [ACTIVE] with a
    traffic percentage of 100, every deployment of the model in the slot
    that was active is [INACTIVE] with 0, and no entry is added or
    removed.  The deployment restored is the first one, in the order of
    registration, that was inactive in the opposite slot. *)
Theorem rollback_deployment_outcomes :
  forall model_name st,
    match rollback_deployment model_name st with
    | (NoActiveDeployment, st') =>
        PyDict.get (active_slots st) model_name = None /\ st' = st
    | (NoPreviousDeployment, st') =>
        (exists current,
           PyDict.get (active_slots st) model_name = Some current
           /\ forall k d, In (k, d) (deployments st) ->
                is_rollback_candidate model_name (_get_opposite_slot current) d
                = false)
        /\ st' = st
    | (RolledBack id slot, st') =>
        exists current,
          let previous := _get_opposite_slot current in
          PyDict.get (active_slots st) model_name = Some current
          /\ slot = slot_value previous
          /\ PyDict.get (active_slots st') model_name = Some previous
          /\ live_split (traffic_router st') model_name
             = Some [(slot_value previous, 100); (slot_value current, 0)]
          /\ PyDict.keys (deployments st') = PyDict.keys (deployments st)
          /\ (exists k d,
                In (k, d) (deployments st')
                /\ ModelDeployment.deployment_id d = id
                /\ ModelDeployment.model_name d = model_name
                /\ ModelDeployment.slot d = previous
                /\ ModelDeployment.status d = ACTIVE
                /\ ModelDeployment.traffic_percentage d = 100)
          /\ (forall k d,
                In (k, d) (deployments st') ->
                ModelDeployment.model_name d = model_name ->
                ModelDeployment.slot d = current ->
                ModelDeployment.status d = INACTIVE
                /\ ModelDeployment.traffic_percentage d = 0)
          /\ (exists before k found after,
                deployments st = before ++ (k, found) :: after
                /\ ModelDeployment.deployment_id found = id
                /\ is_rollback_candidate model_name previous found = true
                /\ Forall
                     (fun entry =>
                        is_rollback_candidate model_name previous (snd entry)
                        = false)
                     before)
    end.
Proof.
  intros model_name st. unfold rollback_deployment.
  destruct (PyDict.get (active_slots st) model_name) as [current|] eqn:Hcur;
    [|split; reflexivity].
  match goal with
  | |- context [mutate_first ?p ?f ?d] =>
      destruct (mutate_first p f d) as [[previous ds]|] eqn:Hfound
  end.
  - exists current. cbv zeta. cbn [traffic_router deployments active_slots].
    destruct (mutate_first_entries _ _ _ _ _ Hfound)
      as [kstar [Hin0 [Hin1 [Hcand Hentries]]]].
    apply is_rollback_candidate_spec in Hcand as [Hmodel [Hslot Hstatus]].
    split; [reflexivity|]. split; [reflexivity|].
    split; [apply get_set_same|].
    split; [rewrite live_split_update; now destruct current|].
    split; [unfold mark_slot_inactive; rewrite keys_map_values;
            eapply keys_mutate_first; eauto|].
    split; [|split].
    + exists kstar. eexists. split; [apply In_mark_slot_inactive; exact Hin1|].
      cbn [ModelDeployment.slot ModelDeployment.with_traffic_percentage
           ModelDeployment.with_status ModelDeployment.model_name].
      rewrite Hslot.
      replace (slot_eqb (_get_opposite_slot current) current) with false
        by (now destruct current).
      rewrite andb_false_r. cbn. auto.
    + intros k d Hin Hm Hs.
      apply mark_slot_inactive_entry in Hin
        as [d1 [Hin [Hm1 [Hs1 [[_ [_ [Hst Htr]]]|[Hnot ->]]]]]]; [auto|].
      exfalso. apply Hnot. auto.
    + apply mutate_first_found in Hfound
        as [before [k [after [Hds [_ [Hcand Hbefore]]]]]].
      exists before, k, previous, after. auto.
  - split; [|reflexivity]. exists current. split; [reflexivity|].
    intros k d Hin. eapply mutate_first_none; eauto.
Qed.

(** ** BlueGreenDeploymentManager: the status report *)

Definition status_value (s : DeploymentStatus) : string :=
  match s with
  | INACTIVE => "inactive"
  | STAGING => "staging"
  | ACTIVE => "active"
  | TRANSITIONING => "transitioning"
  | FAILED => "failed"
  end.

(** The dict [ModelDeployment.to_dict] builds.  The text that [isoformat]
    renders a time as is kept as the time it renders. *)
Module DeploymentDict.
Record t : Type := mk {
  deployment_id : string;
  model_name : string;
  model_version : string;
  slot : string;
  status : string;
  endpoint_url : string;
  created_at : N;
  last_health_check : option N;
  health_status : string;
  traffic_percentage : Z;
  performance_metrics : dict pyval
}.
End DeploymentDict.

Definition to_dict (d : ModelDeployment.t) : DeploymentDict.t :=
  DeploymentDict.mk
    (ModelDeployment.deployment_id d)
    (ModelDeployment.model_name d)
    (ModelDeployment.model_version d)
    (slot_value (ModelDeployment.slot d))
    (status_value (ModelDeployment.status d))
    (ModelDeployment.endpoint_url d)
    (ModelDeployment.created_at d)
    (ModelDeployment.last_health_check d)
    (ModelDeployment.health_status d)
    (ModelDeployment.traffic_percentage d)
    match ModelDeployment.performance_metrics d with
    | Some (m :: ms) => m :: ms
    | _ => PyDict.empty
    end.

Module DeploymentStatusReport.
Record t : Type := mk {
  model_name : string;
  active_slot : option string;
  deployments : list DeploymentDict.t;
  traffic_stats : traffic_stats
}.
End DeploymentStatusReport.

Definition get_deployment_status (model_name : string)
  (st : BlueGreenDeploymentManager) : DeploymentStatusReport.t :=
  let active_slot := PyDict.get (active_slots st) model_name in
  let deployments_info :=
    fold_left
      (fun info deployment =>
         if String.eqb (ModelDeployment.model_name deployment) model_name
         then info ++ [to_dict deployment]
         else info)
      (PyDict.values (deployments st)) [] in
  DeploymentStatusReport.mk model_name
    (option_map slot_value active_slot)
    deployments_info
    (get_traffic_stats model_name (traffic_router st)).

(** Two entries of the registry that are [ACTIVE] for the same model are
    the same entry. *)
Definition unique_active (ds : dict ModelDeployment.t) : Prop :=
  forall k1 d1 k2 d2,
    In (k1, d1) ds -> In (k2, d2) ds ->
    ModelDeployment.model_name d1 = ModelDeployment.model_name d2 ->
    ModelDeployment.status d1 = ACTIVE ->
    ModelDeployment.status d2 = ACTIVE ->
    k1 = k2.

(** A step that activates nothing. *)
Lemma unique_active_mono ds ds' :
  unique_active ds ->
  (forall k d, In (k, d) ds' -> ModelDeployment.status d = ACTIVE ->
     exists d0, In (k, d0) ds
       /\ ModelDeployment.model_name d = ModelDeployment.model_name d0
       /\ ModelDeployment.status d0 = ACTIVE) ->
  unique_active ds'.
Proof.
  intros Hua Hstep k1 d1 k2 d2 H1 H2 Hm A1 A2.
  destruct (Hstep _ _ H1 A1) as [e1 [I1 [M1 B1]]].
  destruct (Hstep _ _ H2 A2) as [e2 [I2 [M2 B2]]].
  apply (Hua k1 e1 k2 e2); auto. congruence.
Qed.

(** A step that leaves one entry of a model active and none other of that
    model. *)
Lemma unique_active_repoint ds ds' kstar model_name :
  unique_active ds ->
  (forall k d, In (k, d) ds' -> ModelDeployment.status d = ACTIVE ->
     (k = kstar /\ ModelDeployment.model_name d = model_name)
     \/ exists d0, In (k, d0) ds
          /\ ModelDeployment.model_name d = ModelDeployment.model_name d0
          /\ ModelDeployment.model_name d0 <> model_name
          /\ ModelDeployment.status d0 = ACTIVE) ->
  unique_active ds'.
Proof.
  intros Hua Hstep k1 d1 k2 d2 H1 H2 Hm A1 A2.
  destruct (Hstep _ _ H1 A1) as [[-> M1]|[e1 [I1 [M1 [N1 B1]]]]];
    destruct (Hstep _ _ H2 A2) as [[-> M2]|[e2 [I2 [M2 [N2 B2]]]]]; auto.
  - congruence.
  - congruence.
  - apply (Hua k1 e1 k2 e2); auto. congruence.
Qed.

Lemma unique_active_mark ds id s :
  s <> ACTIVE -> unique_active ds ->
  unique_active (update_entry id (ModelDeployment.with_status s) ds).
Proof.
  intros Hs Hua. apply (unique_active_mono ds); [exact Hua|].
  intros k d Hin Hact.
  apply In_update_entry in Hin as [d0 [Hin [->|[_ ->]]]]; [eauto|].
  cbn in Hact. congruence.
Qed.

Lemma unique_active_register ds id dep :
  ModelDeployment.status dep <> ACTIVE -> unique_active ds ->
  unique_active (PyDict.set ds id dep).
Proof.
  intros Hs Hua. apply (unique_active_mono ds); [exact Hua|].
  intros k d Hin Hact.
  apply In_set_inv in Hin as [[_ ->]|Hin]; [congruence | eauto].
Qed.

Lemma unique_active_rollback model_name st :
  registry_inv st -> unique_active (deployments st) ->
  unique_active (deployments (snd (rollback_deployment model_name st))).
Proof.
  intros [Hwf Hall] Hua. unfold rollback_deployment.
  destruct (PyDict.get (active_slots st) model_name) as [current|] eqn:Hcur;
    [|exact Hua].
  match goal with
  | |- context [mutate_first ?p ?f ?d] =>
      destruct (mutate_first p f d) as [[previous ds]|] eqn:Hfound
  end; [|exact Hua].
  cbn [snd deployments].
  destruct (mutate_first_entries _ _ _ _ _ Hfound)
    as [kstar [_ [_ [Hcand Hentries]]]].
  apply is_rollback_candidate_spec in Hcand as [Hmodel _].
  apply (unique_active_repoint (deployments st) _ kstar model_name); [exact Hua|].
  intros k d Hin Hact.
  apply mark_slot_inactive_entry in Hin
    as [d1 [Hin [Hm1 [Hs1 [[_ [_ [Hst _]]]|[Hnot ->]]]]]]; [congruence|].
  destruct (Hentries _ _ Hin) as [Hin0|[-> ->]].
  - right. exists d1. split; [exact Hin0|]. split; [reflexivity|].
    split; [|exact Hact]. intros Hm. apply Hnot. split; [exact Hm|].
    destruct (Hall _ _ Hin0) as [_ Hptr]. specialize (Hptr Hact).
    rewrite Hm in Hptr. congruence.
  - left. split; [reflexivity | exact Hmodel].
Qed.

Lemma unique_active_switch st model_name new_slot id dep :
  registry_inv st -> unique_active (deployments st) ->
  PyDict.get (deployments st) id = Some dep ->
  ModelDeployment.model_name dep = model_name ->
  unique_active
    (update_entry id (ModelDeployment.with_status ACTIVE)
       (deployments (_complete_blue_green_switch model_name new_slot st))).
Proof.
  intros [Hwf Hall] Hua Hdep Hmodel.
  unfold _complete_blue_green_switch. cbn [deployments].
  apply (unique_active_repoint (deployments st) _ id model_name); [exact Hua|].
  intros k d Hin Hact.
  apply In_update_entry in Hin as [d1 [Hin1 Hd]].
  apply switch_marking_entry in Hin1 as [d0 [Hin0 [Hm [Hs [Hkeep _]]]]].
  destruct Hd as [->|[-> ->]].
  - destruct (Hkeep Hact) as [-> Hnot]. right. exists d0.
    split; [exact Hin0|]. split; [reflexivity|]. split; [|exact Hact].
    intros Hm0. destruct (Hall _ _ Hin0) as [_ Hptr]. specialize (Hptr Hact).
    rewrite Hm0 in Hptr. apply (Hnot _ Hptr). auto.
  - left. split; [reflexivity|]. cbn.
    rewrite (In_get_wf _ _ _ Hwf Hin0) in Hdep. injection Hdep as ->.
    congruence.
Qed.

Lemma unique_active_deploy model_name model_version model_config now env st :
  registry_inv st -> unique_active (deployments st) ->
  unique_active
    (deployments
       (snd (deploy_new_version model_name model_version model_config now env st))).
Proof.
  intros Hinv Hua. rewrite deploy_cases. cbv zeta.
  set (new_slot := inactive_slot st model_name).
  set (id := make_deployment_id model_name model_version new_slot now).
  destruct (validated_core now env model_name model_version new_slot)
    as [Hm [Hs [Hst _]]].
  set (dep := snd (validate_deployment now env
                     (provisioned model_name model_version new_slot now))) in *.
  set (st1 := with_deployments (PyDict.set (deployments st) id dep) st).
  assert (Hinv1 : registry_inv st1).
  { apply registry_inv_register; [exact Hinv | | congruence].
    exists model_version, now. now rewrite Hm, Hs. }
  assert (Hua1 : unique_active (deployments st1)).
  { apply unique_active_register; [congruence | exact Hua]. }
  destruct (provisioning env).
  - cbn [snd]. apply unique_active_mark; [discriminate | exact Hua].
  - destruct (negb _).
    + cbn [snd]. apply unique_active_mark; [discriminate | exact Hua1].
    + pose proof (gradual_shift_state env model_name dep st1) as Hstate.
      destruct (_gradual_traffic_shift env model_name dep st1) as [[|details] st2];
        cbn [fst snd] in *; subst st2.
      * apply unique_active_switch with (dep := dep).
        -- apply registry_inv_router. exact Hinv1.
        -- exact Hua1.
        -- cbn. apply get_set_same.
        -- exact Hm.
      * apply unique_active_rollback.
        -- apply (registry_inv_mark _ id FAILED); [discriminate|].
           apply registry_inv_router. exact Hinv1.
        -- apply unique_active_mark; [discriminate | exact Hua1].
Qed.

Lemma reachable_unique_active st :
  bg_reachable st -> unique_active (deployments st).
Proof.
  induction 1 as [router|st m v cfg now env Hreach IH|st m Hreach IH|st r Hreach IH].
  - intros k1 d1 k2 d2 [].
  - apply unique_active_deploy; [now apply reachable_registry_inv | exact IH].
  - apply unique_active_rollback; [now apply reachable_registry_inv | exact IH].
  - exact IH.
Qed.

Lemma filter_none {A : Type} (p : A -> bool) (l : list A) :
  (forall x, In x l -> p x = false) -> filter p l = [].
Proof.
  induction l as [|x l IH]; intros H; simpl; auto.
  rewrite (H x) by now left. apply IH. intros y Hy. apply H. now right.
Qed.

Lemma filter_at_most_one {V : Type} (p : V -> bool) (d : dict V) :
  PyDict.wf d ->
  (forall k1 v1 k2 v2, In (k1, v1) d -> In (k2, v2) d ->
     p v1 = true -> p v2 = true -> k1 = k2) ->
  (List.length (filter p (PyDict.values d)) <= 1)%nat.
Proof.
  unfold PyDict.wf, PyDict.keys, PyDict.values.
  induction d as [|[k v] d IH]; intros Hwf Huniq; simpl; [lia|].
  inversion Hwf as [|? ? Hnotin Hwf']; subst.
  destruct (p v) eqn:E.
  - rewrite filter_none; [simpl; lia|].
    intros x Hx. apply in_map_iff in Hx as [[k' v'] [<- Hin]]. cbn.
    destruct (p v') eqn:E'; auto. exfalso. apply Hnotin.
    rewrite (Huniq k v k' v'); auto; [|now left | now right].
    change k' with (fst (k', v')). now apply in_map.
  - apply IH; auto. intros k1 v1 k2 v2 H1 H2. apply Huniq; now right.
Qed.

Lemma deployments_info_listed model_name (l : list ModelDeployment.t) : forall acc,
  fold_left
    (fun info deployment =>
       if String.eqb (ModelDeployment.model_name deployment) model_name
       then info ++ [to_dict deployment]
       else info)
    l acc
  = acc
    ++ map to_dict
         (filter
            (fun d => String.eqb (ModelDeployment.model_name d) model_name) l).
Proof.
  induction l as [|d l IH]; intros acc; simpl.
  - now rewrite app_nil_r.
  - rewrite IH. destruct (String.eqb (ModelDeployment.model_name d) model_name);
      simpl; [now rewrite <- app_assoc | reflexivity].
Qed.

Lemma status_value_active s : status_value s = "active" <-> s = ACTIVE.
Proof. destruct s; simpl; split; congruence. Qed.

(** X11: the report of [get_deployment_status], in every state the manager
    can reach.  It lists the registered deployments of the model, in the
    order of registration, and no other; at most one of them has the status
    [active]; and when one has, the active slot reported is the slot of that
    deployment. *)
Theorem deployment_status_shows_one_active :
  forall st model_name,
    bg_reachable st ->
    let report := get_deployment_status model_name st in
    DeploymentStatusReport.deployments report
    = map to_dict
        (filter (fun d => String.eqb (ModelDeployment.model_name d) model_name)
           (PyDict.values (deployments st)))
    /\ (List.length
          (filter (fun dd => String.eqb (DeploymentDict.status dd) "active")
             (DeploymentStatusReport.deployments report)) <= 1)%nat
    /\ (forall dd,
          In dd (DeploymentStatusReport.deployments report) ->
          DeploymentDict.model_name dd = model_name
          /\ (DeploymentDict.status dd = "active" ->
              DeploymentStatusReport.active_slot report
              = Some (DeploymentDict.slot dd))).
Proof.
  intros st model_name Hreach report. subst report.
  destruct (reachable_registry_inv st Hreach) as [Hwf Hall].
  pose proof (reachable_unique_active st Hreach) as Hua.
  unfold get_deployment_status.
  cbn [DeploymentStatusReport.deployments DeploymentStatusReport.active_slot].
  rewrite deployments_info_listed, app_nil_l.
  split; [reflexivity|]. split.
  - assert (Hlen : forall l : list ModelDeployment.t,
              List.length
                (filter (fun dd => String.eqb (DeploymentDict.status dd) "active")
                   (map to_dict
                      (filter
                         (fun d => String.eqb (ModelDeployment.model_name d) model_name)
                         l)))
              = List.length
                  (filter
                     (fun d =>
                        String.eqb (ModelDeployment.model_name d) model_name
                        && status_eqb (ModelDeployment.status d) ACTIVE) l)).
    { induction l as [|d l IH]; [reflexivity|]. cbn [filter].
      destruct (String.eqb (ModelDeployment.model_name d) model_name);
        cbn [andb map filter]; [|exact IH].
      cbn [to_dict DeploymentDict.status].
      destruct (ModelDeployment.status d); cbn; auto. }
    rewrite Hlen. apply filter_at_most_one; [exact Hwf|].
    intros k1 d1 k2 d2 H1 H2 P1 P2.
    apply andb_true_iff in P1 as [M1 A1]. apply andb_true_iff in P2 as [M2 A2].
    apply String.eqb_eq in M1, M2. apply status_eqb_eq in A1, A2.
    apply (Hua k1 d1 k2 d2); auto. congruence.
  - intros dd Hin. apply in_map_iff in Hin as [d [<- Hd]].
    apply filter_In in Hd as [Hd Hm]. apply String.eqb_eq in Hm.
    split; [exact Hm|]. cbn [to_dict DeploymentDict.status DeploymentDict.slot].
    intros Hact. apply status_value_active in Hact.
    unfold PyDict.values in Hd. apply in_map_iff in Hd as [[k d'] [Heq Hin]].
    cbn in Heq. subst d'.
    destruct (Hall _ _ Hin) as [_ Hptr]. specialize (Hptr Hact).
    rewrite Hm in Hptr. now rewrite Hptr.
Qed.

Lemma deployment_status_shows_one_active_witness :
  let st :=
    deploy_versions "m" [("v1", 1000%N); ("v2", 2000%N)]
      (BlueGreen_init TrafficRouter_init) in
  (List.length
     (filter (fun dd => String.eqb (DeploymentDict.status dd) "active")
        (DeploymentStatusReport.deployments (get_deployment_status "m" st)))
   <= 1)%nat.
Proof.
  cbv zeta.
  destruct (deployment_status_shows_one_active
              (deploy_versions "m" [("v1", 1000%N); ("v2", 2000%N)]
                 (BlueGreen_init TrafficRouter_init)) "m")
    as [_ [H _]].
  - cbn [deploy_versions]. apply reach_deploy, reach_deploy, reach_init.
  - exact H.
Defined.

(** ** CanaryReleaseManager: start, completion, crash *)

Lemma nth_error_app_new {A : Type} (l : list A) (x : A) :
  nth_error (l ++ [x]) (List.length l) = Some x.
Proof. induction l as [|y l IH]; simpl; auto. Qed.

Lemma nth_error_app_old {A : Type} (l : list A) (x y : A) i :
  nth_error l i = Some y -> nth_error (l ++ [x]) i = Some y.
Proof.
  revert i. induction l as [|z l IH]; intros [|i] H; simpl in *;
    try discriminate; auto.
Qed.

(** X12: [start_canary_release] always succeeds.  It returns the id made
    from the model, the candidate version and the clock, and the smaller of
    the target and 5 as initial percentage; the release registered under the
    id is [RUNNING] with no evaluation and that percentage; the split of the
    model is canary at that percentage and baseline at the rest, a valid
    split exactly when the target is not negative; the older tracking
    objects, the ids other than this one and the finalized records are
    untouched. *)
Theorem start_canary_release_registers_running :
  forall config now st,
    let started := start_canary_release config now st in
    let id := make_canary_id config now in
    let initial := Z.min (CanaryConfiguration.canary_traffic_percentage config) 5 in
    let l := List.length (canary_objects st) in
    fst started = (Started id initial, l)
    /\ registered (snd started) id
       = inr (l, CanaryInfo.mk config now RUNNING [] initial None None None)
    /\ live_split (canary_router (snd started))
         (CanaryConfiguration.model_name config)
       = Some [("canary", initial); ("baseline", 100 - initial)]
    /\ (valid_split (canary_split initial)
        <-> 0 <= CanaryConfiguration.canary_traffic_percentage config)
    /\ canary_results (snd started) = canary_results st
    /\ (forall l' info,
          nth_error (canary_objects st) l' = Some info ->
          nth_error (canary_objects (snd started)) l' = Some info)
    /\ (forall other, other <> id ->
          PyDict.get (active_canaries (snd started)) other
          = PyDict.get (active_canaries st) other).
Proof.
  intros config now st started id initial l. subst started.
  unfold start_canary_release. fold id initial l.
  set (info := CanaryInfo.mk config now RUNNING [] 0 None None None).
  set (st0 := {| canary_router := canary_router st;
                 canary_objects := canary_objects st ++ [info];
                 active_canaries := PyDict.set (active_canaries st) id l;
                 canary_results := canary_results st |}).
  assert (Hreg : registered st0 id = inr (l, info)).
  { apply registered_found; cbn; [apply get_set_same | apply nth_error_app_new]. }
  unfold _update_canary_traffic. rewrite Hreg. cbn [fst snd].
  split; [reflexivity|]. split; [|split; [|split; [|split; [|split]]]].
  - apply registered_found; cbn; [apply get_set_same|].
    apply nth_error_store_set_same. rewrite length_app. cbn. lia.
  - cbn. apply live_split_update.
  - assert (Hsplit : canary_split initial
                     = [("canary", initial); ("baseline", 100 - initial)])
      by reflexivity.
    rewrite Hsplit. unfold valid_split, PyDict.values, sumZ.
    cbn [map snd fold_right]. subst initial. split.
    + intros [Hnn _]. inversion Hnn; subst. lia.
    + intros H. split; [|lia].
      constructor; [lia | constructor; [lia | constructor]].
  - reflexivity.
  - intros l' info' H. cbn.
    rewrite nth_error_store_set_other.
    + now apply nth_error_app_old.
    + intros <-. assert (l < List.length (canary_objects st))%nat
        by (apply nth_error_Some; congruence). lia.
  - intros other Hne. cbn. now apply get_set_other.
Qed.

Lemma monitor_iteration_not_running canary_id l now env st info :
  nth_error (canary_objects st) l = Some info ->
  CanaryInfo.status info <> RUNNING ->
  monitor_iteration canary_id l now env st = (Exit, st).
Proof.
  intros Hobj Hstatus. unfold monitor_iteration. rewrite Hobj.
  destruct (CanaryInfo.status info); try reflexivity. congruence.
Qed.

Lemma monitor_turns_not_running canary_id l env st info clock :
  nth_error (canary_objects st) l = Some info ->
  CanaryInfo.status info <> RUNNING ->
  monitor_turns canary_id l env clock st = st.
Proof.
  intros Hobj Hstatus. induction clock as [|now clock IH]; [reflexivity|].
  cbn [monitor_turns].
  now rewrite (monitor_iteration_not_running _ _ _ _ _ _ Hobj Hstatus).
Qed.

(** X13: the turn in which the rollout duration has elapsed.  No evaluation
    is run; the loop ends; the release is [COMPLETED] at the clock of the
    turn, its evaluations and traffic percentage as they were; the
    finalized record is stored with the status [success], the whole
    evaluation history and the duration in minutes; with [auto_promote] the
    split becomes canary 100 / baseline 0 and without it the router is not
    touched; and no later turn of the loop changes the state. *)
Theorem canary_completes_when_duration_elapsed :
  forall st canary_id l info now env,
    PyDict.get (active_canaries st) canary_id = Some l ->
    nth_error (canary_objects st) l = Some info ->
    CanaryInfo.status info = RUNNING ->
    CanaryConfiguration.rollout_duration_minutes (CanaryInfo.config info) * 60
      <= Z.of_N now - Z.of_N (CanaryInfo.start_time info) ->
    let turn := monitor_iteration canary_id l now env st in
    let config := CanaryInfo.config info in
    fst turn = Exit
    /\ registered (snd turn) canary_id = inr (l, CanaryInfo.completed now info)
    /\ PyDict.get (canary_results (snd turn)) canary_id
       = Some (CanaryResult.mk config (CanaryInfo.evaluations info) "success" None
                 (minutes_between (CanaryInfo.start_time info) now))
    /\ (if CanaryConfiguration.auto_promote config
        then live_split (canary_router (snd turn))
               (CanaryConfiguration.model_name config)
             = Some [("canary", 100); ("baseline", 0)]
        else canary_router (snd turn) = canary_router st)
    /\ (forall env' clock,
          monitor_turns canary_id l env' clock (snd turn) = snd turn).
Proof.
  intros st canary_id l info now env Hreg Hobj Hrunning Helapsed turn config.
  subst turn config.
  assert (Hturn : monitor_iteration canary_id l now env st
                  = match _complete_canary_release canary_id now st with
                    | inr st' => (Exit, st')
                    | inl e => (Crashed e, st)
                    end).
  { unfold monitor_iteration. rewrite Hobj, Hrunning. cbn [canary_status_eqb negb].
    apply Z.leb_le in Helapsed. now rewrite Helapsed. }
  rewrite Hturn. unfold _complete_canary_release.
  rewrite (registered_found _ _ _ _ Hreg Hobj). cbn [fst snd].
  assert (Hlen : (l < List.length (canary_objects st))%nat)
    by (apply nth_error_Some; congruence).
  assert (Hobj' : nth_error
            (store_set (canary_objects st) l (CanaryInfo.completed now info)) l
            = Some (CanaryInfo.completed now info))
    by now apply nth_error_store_set_same.
  split; [reflexivity|]. split; [|split; [|split]].
  - apply registered_found; cbn; assumption.
  - cbn. apply get_set_same.
  - destruct (CanaryConfiguration.auto_promote (CanaryInfo.config info)); cbn.
    + apply live_split_update.
    + reflexivity.
  - intros env' clock.
    apply monitor_turns_not_running with (info := CanaryInfo.completed now info).
    + cbn. exact Hobj'.
    + discriminate.
Qed.

Lemma canary_completes_when_duration_elapsed_witness :
  let turn :=
    monitor_iteration "canary-m-v2-1000" 0 1300 example_world example_started in
  fst turn = Exit
  /\ live_split (canary_router (snd turn)) "m"
     = Some [("canary", 100); ("baseline", 0)].
Proof.
  cbv zeta.
  destruct (canary_completes_when_duration_elapsed example_started
              "canary-m-v2-1000" 0%nat
              (CanaryInfo.mk example_config 1000 RUNNING [] 5 None None None)
              1300%N example_world)
    as [Hexit [_ [_ [Hsplit _]]]].
  - reflexivity.
  - reflexivity.
  - reflexivity.
  - vm_compute. discriminate.
  - split; [exact Hexit | exact Hsplit].
Defined.

(** X14: a release configured without success criteria.  Its first
    evaluation divides by zero: the turn dies of [ZeroDivisionError] and
    leaves the state exactly as it was, so the release stays [RUNNING] at
    its percentage, with no evaluation recorded and no finalized record. *)
Theorem canary_without_criteria_crashes :
  forall st canary_id l info now env,
    PyDict.get (active_canaries st) canary_id = Some l ->
    nth_error (canary_objects st) l = Some info ->
    CanaryInfo.status info = RUNNING ->
    Z.of_N now - Z.of_N (CanaryInfo.start_time info)
      < CanaryConfiguration.rollout_duration_minutes (CanaryInfo.config info) * 60 ->
    CanaryConfiguration.success_criteria (CanaryInfo.config info) = [] ->
    _evaluate_canary_performance canary_id now env st = inl ZeroDivisionError
    /\ monitor_iteration canary_id l now env st = (Crashed ZeroDivisionError, st).
Proof.
  intros st canary_id l info now env Hreg Hobj Hrunning Helapsed Hnone.
  pose proof (evaluate_registered _ _ _ _ now env (registered_found _ _ _ _ Hreg Hobj))
    as Heval.
  rewrite Hnone in Heval. split; [exact Heval|].
  unfold monitor_iteration. rewrite Hobj, Hrunning. cbn [canary_status_eqb negb].
  apply Z.leb_gt in Helapsed. now rewrite Helapsed, Heval.
Qed.

Lemma canary_without_criteria_crashes_witness :
  let config := CanaryConfiguration.mk "m" "v2" "v1" 50 [] 5 1 true in
  let st := snd (start_canary_release config 1000 (Canary_init TrafficRouter_init)) in
  monitor_iteration "canary-m-v2-1000" 0 1060 example_world st
  = (Crashed ZeroDivisionError, st).
Proof.
  cbv zeta.
  apply (canary_without_criteria_crashes _ "canary-m-v2-1000" 0%nat
           (CanaryInfo.mk (CanaryConfiguration.mk "m" "v2" "v1" 50 [] 5 1 true)
              1000 RUNNING [] 5 None None None) 1060%N example_world);
    try reflexivity.
Defined.

(** ** CanaryReleaseManager: abort, range of the percentage, history *)

Lemma last_evaluation {A : Type} (l : list A) (x : A) :
  last (map Some (l ++ [x])) None = Some x.
Proof. rewrite map_app. cbn [map]. apply last_last. Qed.

Lemma get_canary_status_registered st canary_id l info :
  registered st canary_id = inr (l, info) ->
  get_canary_status canary_id st
  = LiveState canary_id
      (CanaryConfiguration.model_name (CanaryInfo.config info))
      (canary_status_value (CanaryInfo.status info))
      (CanaryInfo.current_traffic_percentage info)
      (CanaryInfo.start_time info)
      (Z.of_nat (List.length (CanaryInfo.evaluations info)))
      (last (map Some (CanaryInfo.evaluations info)) None).
Proof. intros H. unfold get_canary_status. now rewrite H. Qed.

(** X15: the turn that aborts a release (confidence below 0.70).  The
    reason is the [Only ... of criteria passed] message; the loop ends; the
    tracking object becomes [ABORTED] with the abort time and the reason,
    the evaluation of the turn appended to its history, and its traffic
    percentage left as it was, although the split of the model is now canary
    0 / baseline 100, so [get_canary_status] goes on reporting the
    percentage from before the abort; the finalized record holds the
    status [aborted], the reason, the whole history and the duration; no
    later turn of the loop changes the state. *)
Theorem canary_abort_keeps_stale_percentage :
  forall st canary_id l info now env,
    PyDict.get (active_canaries st) canary_id = Some l ->
    nth_error (canary_objects st) l = Some info ->
    CanaryInfo.status info = RUNNING ->
    Z.of_N now - Z.of_N (CanaryInfo.start_time info)
      < CanaryConfiguration.rollout_duration_minutes (CanaryInfo.config info) * 60 ->
    CanaryConfiguration.success_criteria (CanaryInfo.config info) <> [] ->
    PrimFloat.ltb (confidence_of env (CanaryInfo.config info)) 0.7 = true ->
    let turn := monitor_iteration canary_id l now env st in
    let config := CanaryInfo.config info in
    let ev := evaluation_of now env config in
    let reason :=
      [Lit "Only "; FmtFloat ".1%" (confidence_of env config);
       Lit " of criteria passed (minimum 70% required)"] in
    let history := CanaryInfo.evaluations info ++ [ev] in
    Evaluation.decision ev = Abort
    /\ Evaluation.reason ev = reason
    /\ fst turn = Exit
    /\ registered (snd turn) canary_id
       = inr (l, CanaryInfo.mk config (CanaryInfo.start_time info) ABORTED history
                   (CanaryInfo.current_traffic_percentage info)
                   (CanaryInfo.completion_time info) (Some now) (Some reason))
    /\ PyDict.get (canary_results (snd turn)) canary_id
       = Some (CanaryResult.mk config history "aborted" (Some reason)
                 (minutes_between (CanaryInfo.start_time info) now))
    /\ live_split (canary_router (snd turn)) (CanaryConfiguration.model_name config)
       = Some [("canary", 0); ("baseline", 100)]
    /\ get_canary_status canary_id (snd turn)
       = LiveState canary_id (CanaryConfiguration.model_name config) "aborted"
           (CanaryInfo.current_traffic_percentage info)
           (CanaryInfo.start_time info)
           (Z.of_nat (List.length history)) (Some ev)
    /\ (forall env' clock,
          monitor_turns canary_id l env' clock (snd turn) = snd turn).
Proof.
  intros st canary_id l info now env Hreg Hobj Hrunning Helapsed Hcriteria Hlow
    turn config ev reason history.
  destruct (monitor_turn_running st canary_id l info now env
              Hreg Hobj Hrunning Helapsed Hcriteria) as [_ Hturn].
  cbv zeta in Hturn.
  assert (Hdecision : Evaluation.decision ev = Abort).
  { apply (proj1 (decide_by_confidence (confidence_of env config))). exact Hlow. }
  assert (Hreason : Evaluation.reason ev = reason).
  { subst ev reason. unfold evaluation_of. cbn [Evaluation.reason].
    unfold decide. fold config in Hlow. now rewrite Hlow. }
  fold config ev in Hturn. rewrite Hdecision, Hreason in Hturn.
  subst turn. rewrite Hturn. cbn [fst snd].
  assert (Hlen : (l < List.length (canary_objects st))%nat)
    by (apply nth_error_Some; congruence).
  set (final := CanaryInfo.mk config (CanaryInfo.start_time info) ABORTED history
                  (CanaryInfo.current_traffic_percentage info)
                  (CanaryInfo.completion_time info) (Some now) (Some reason)).
  assert (Hfinal : registered
            (store_result canary_id
               (CanaryResult.mk config
                  (CanaryInfo.evaluations (CanaryInfo.with_evaluation ev info))
                  "aborted" (Some reason)
                  (minutes_between (CanaryInfo.start_time info) now))
               (set_object l
                  (CanaryInfo.aborted now reason (CanaryInfo.with_evaluation ev info))
                  (with_canary_router
                     (update_traffic_split (CanaryConfiguration.model_name config)
                        (canary_split 0) (canary_router st))
                     (set_object l (CanaryInfo.with_evaluation ev info) st))))
            canary_id = inr (l, final)).
  { apply registered_found; [exact Hreg|].
    cbn. apply nth_error_store_set_same. now rewrite length_store_set. }
  split; [exact Hdecision|]. split; [exact Hreason|]. split; [reflexivity|].
  split; [exact Hfinal|]. split; [|split; [|split]].
  - cbn. apply get_set_same.
  - cbn [canary_router with_canary_router set_object store_result].
    apply live_split_update.
  - etransitivity; [exact (get_canary_status_registered _ _ _ _ Hfinal)|].
    unfold final.
    cbn [CanaryInfo.config CanaryInfo.status CanaryInfo.current_traffic_percentage
         CanaryInfo.start_time CanaryInfo.evaluations canary_status_value].
    unfold history. now rewrite last_evaluation.
  - intros env' clock.
    apply monitor_turns_not_running with (info := final).
    + cbn. apply nth_error_store_set_same. now rewrite length_store_set.
    + discriminate.
Qed.

(** The theorem on the first cycle of the example release with the failing
    candidate. *)
Lemma canary_abort_keeps_stale_percentage_witness :
  let turn :=
    monitor_iteration "canary-m-v2-1000" 0 1060 failing_world example_started in
  fst turn = Exit
  /\ live_split (canary_router (snd turn)) "m" = Some [("canary", 0); ("baseline", 100)]
  /\ exists ev,
       get_canary_status "canary-m-v2-1000" (snd turn)
       = LiveState "canary-m-v2-1000" "m" "aborted" 5 1000 1 (Some ev).
Proof.
  cbv zeta.
  destruct (canary_abort_keeps_stale_percentage example_started
              "canary-m-v2-1000" 0%nat
              (CanaryInfo.mk example_config 1000 RUNNING [] 5 None None None)
              1060%N failing_world)
    as [_ [_ [Hexit [_ [_ [Hsplit [Hstatus _]]]]]]].
  - reflexivity.
  - reflexivity.
  - reflexivity.
  - vm_compute. reflexivity.
  - discriminate.
  - vm_compute. reflexivity.
  - split; [exact Hexit|]. split; [exact Hsplit|].
    eexists. exact Hstatus.
Defined.

(** The range the percentage of a release stays in: from the smaller of the
    target and 5 to the larger of the target and 50. *)
Definition percentage_in_range (info : CanaryInfo.t) : Prop :=
  let target :=
    CanaryConfiguration.canary_traffic_percentage (CanaryInfo.config info) in
  Z.min target 5 <= CanaryInfo.current_traffic_percentage info <= Z.max target 50.

Definition store_in_range (st : CanaryReleaseManager) : Prop :=
  forall l info,
    nth_error (canary_objects st) l = Some info -> percentage_in_range info.

Lemma next_percentage_bounds target current :
  current <= Z.max target 50 ->
  next_percentage target current <= Z.max target 50
  /\ (next_percentage target current = current <-> current = Z.max target 50).
Proof.
  intros Hle. unfold next_percentage.
  destruct (current <? 5) eqn:E1; [apply Z.ltb_lt in E1; lia|].
  destruct (current <? 10) eqn:E2; [apply Z.ltb_lt in E2; lia|].
  destruct (current <? 25) eqn:E3; [apply Z.ltb_lt in E3; lia|].
  destruct (current <? 50) eqn:E4; [apply Z.ltb_lt in E4; lia|].
  destruct (current <? target) eqn:E5.
  - apply Z.ltb_lt in E5. lia.
  - apply Z.ltb_ge in E4, E5. lia.
Qed.

Lemma nth_error_store_set_inv {A : Type} (l : list A) : forall i j x y,
  nth_error (store_set l i x) j = Some y -> y = x \/ nth_error l j = Some y.
Proof.
  induction l as [|z l IH]; intros [|i] [|j] x y H; simpl in *;
    try discriminate; auto.
  - injection H as ->. now left.
  - eapply IH; eauto.
Qed.

Lemma registered_object st canary_id l info :
  registered st canary_id = inr (l, info) ->
  nth_error (canary_objects st) l = Some info.
Proof.
  unfold registered.
  destruct (PyDict.get (active_canaries st) canary_id) as [l'|]; [|discriminate].
  destruct (nth_error (canary_objects st) l') as [info'|] eqn:E; [|discriminate].
  now intros [= <- <-].
Qed.

Lemma store_in_range_set l info st :
  store_in_range st -> percentage_in_range info ->
  store_in_range (set_object l info st).
Proof.
  intros Hst Hinfo j y H. cbn in H.
  apply nth_error_store_set_inv in H. destruct H as [->|H]; eauto.
Qed.

Lemma update_canary_traffic_in_range canary_id p st st' :
  store_in_range st ->
  (forall l info,
     registered st canary_id = inr (l, info) ->
     percentage_in_range (CanaryInfo.with_traffic p info)) ->
  _update_canary_traffic canary_id p st = inr st' ->
  store_in_range st'.
Proof.
  intros Hst Hp. unfold _update_canary_traffic.
  destruct (registered st canary_id) as [e|[l info]] eqn:Hreg; [discriminate|].
  intros [= <-]. apply store_in_range_set; [exact Hst | eapply Hp; eauto].
Qed.

Lemma complete_in_range canary_id now st st' :
  store_in_range st ->
  _complete_canary_release canary_id now st = inr st' -> store_in_range st'.
Proof.
  intros Hst. unfold _complete_canary_release.
  destruct (registered st canary_id) as [e|[l info]] eqn:Hreg; [discriminate|].
  intros [= <-]. intros j y H. cbn in H.
  apply nth_error_store_set_inv in H. destruct H as [->|H]; [|eauto].
  apply registered_object in Hreg. exact (Hst _ _ Hreg).
Qed.

Lemma abort_in_range canary_id reason now st st' :
  store_in_range st ->
  _abort_canary_release canary_id reason now st = inr st' -> store_in_range st'.
Proof.
  intros Hst. unfold _abort_canary_release.
  destruct (registered st canary_id) as [e|[l info]] eqn:Hreg; [discriminate|].
  intros [= <-]. intros j y H. cbn in H.
  apply nth_error_store_set_inv in H. destruct H as [->|H]; [|eauto].
  apply registered_object in Hreg. exact (Hst _ _ Hreg).
Qed.

Lemma next_step_in_range info :
  percentage_in_range info ->
  percentage_in_range
    (CanaryInfo.with_traffic
       (next_percentage
          (CanaryConfiguration.canary_traffic_percentage (CanaryInfo.config info))
          (CanaryInfo.current_traffic_percentage info))
       info).
Proof.
  unfold percentage_in_range. cbn. intros [Hlo Hhi].
  pose proof (proj1 (next_percentage_never_decreases
                       (CanaryConfiguration.canary_traffic_percentage
                          (CanaryInfo.config info))
                       (CanaryInfo.current_traffic_percentage info))).
  pose proof (proj1 (next_percentage_bounds _ _ Hhi)). lia.
Qed.

Lemma monitor_iteration_in_range canary_id l now env st :
  store_in_range st ->
  store_in_range (snd (monitor_iteration canary_id l now env st)).
Proof.
  intros Hst. unfold monitor_iteration.
  destruct (nth_error (canary_objects st) l) as [captured|] eqn:Hobj; [|exact Hst].
  destruct (negb (canary_status_eqb (CanaryInfo.status captured) RUNNING));
    [exact Hst|].
  destruct (_ <=? _).
  - destruct (_complete_canary_release canary_id now st) eqn:E; [exact Hst|].
    eapply complete_in_range; eauto.
  - destruct (_evaluate_canary_performance canary_id now env st) as [e|ev];
      [exact Hst|].
    assert (Hst1 : store_in_range
                     (set_object l (CanaryInfo.with_evaluation ev captured) st)).
    { apply store_in_range_set; [exact Hst|]. exact (Hst _ _ Hobj). }
    destruct (Evaluation.decision ev).
    + destruct (_calculate_next_traffic_percentage _ _) as [e|p] eqn:Ecalc;
        [exact Hst1|].
      destruct (_update_canary_traffic _ _ _) eqn:E; [exact Hst1|].
      cbn [snd]. eapply update_canary_traffic_in_range; [exact Hst1| |exact E].
      intros l' info' Hreg.
      rewrite (calculate_next_registered _ _ _ _ Hreg) in Ecalc.
      injection Ecalc as <-. apply next_step_in_range.
      apply registered_object in Hreg. exact (Hst1 _ _ Hreg).
    + destruct (_abort_canary_release _ _ _ _) eqn:E; [exact Hst1|].
      eapply abort_in_range; eauto.
    + exact Hst1.
Qed.

Lemma start_in_range config now st :
  store_in_range st -> store_in_range (snd (start_canary_release config now st)).
Proof.
  intros Hst. unfold start_canary_release.
  set (id := make_canary_id config now).
  set (l := List.length (canary_objects st)).
  set (info := CanaryInfo.mk config now RUNNING [] 0 None None None).
  set (st0 := {| canary_router := canary_router st;
                 canary_objects := canary_objects st ++ [info];
                 active_canaries := PyDict.set (active_canaries st) id l;
                 canary_results := canary_results st |}).
  assert (Hreg : registered st0 id = inr (l, info)).
  { apply registered_found; cbn; [apply get_set_same | apply nth_error_app_new]. }
  unfold _update_canary_traffic. rewrite Hreg. cbn [snd].
  intros j y H. cbn in H.
  destruct (Nat.eq_dec l j) as [<-|Hne].
  - rewrite nth_error_store_set_same in H
      by (rewrite length_app; cbn; unfold l; lia).
    injection H as <-. unfold percentage_in_range. cbn. lia.
  - rewrite nth_error_store_set_other in H by exact Hne.
    assert (Hlt : (j < List.length (canary_objects st ++ [info]))%nat)
      by (apply nth_error_Some; congruence).
    rewrite length_app in Hlt. cbn in Hlt.
    rewrite nth_error_app1 in H by (unfold l in Hne; lia).
    eauto.
Qed.

Lemma reachable_store_in_range st : canary_reachable st -> store_in_range st.
Proof.
  induction 1.
  - intros l info H. cbn in H. now destruct l.
  - now apply start_in_range.
  - now apply monitor_iteration_in_range.
  - exact IHcanary_reachable.
Qed.

(** X16: the range of the traffic percentage.  In every state the manager
    reaches, the percentage of a registered release lies between the
    smaller of its target and 5 and the larger of its target and 50;
    [_calculate_next_traffic_percentage] answers with a percentage that is
    not below the current one and not above the larger of the target and
    50, and that equals the current one exactly when that bound is reached;
    so with a target from 50 to 100 the target is never exceeded, and with
    a target from 0 to 100 the percentage stays from 0 to 100 and the
    canary / baseline split made of it is valid. *)
Theorem canary_percentage_stays_in_range :
  forall st canary_id l info,
    canary_reachable st ->
    registered st canary_id = inr (l, info) ->
    let target :=
      CanaryConfiguration.canary_traffic_percentage (CanaryInfo.config info) in
    let current := CanaryInfo.current_traffic_percentage info in
    Z.min target 5 <= current <= Z.max target 50
    /\ (exists next,
          _calculate_next_traffic_percentage canary_id st = inr next
          /\ current <= next <= Z.max target 50
          /\ (next = current <-> current = Z.max target 50)
          /\ (0 <= target <= 100 -> valid_split (canary_split next)))
    /\ (50 <= target -> current <= target)
    /\ (0 <= target <= 100 ->
        0 <= current <= 100 /\ valid_split (canary_split current)).
Proof.
  intros st canary_id l info Hreach Hreg target current.
  pose proof (reachable_store_in_range st Hreach _ _ (registered_object _ _ _ _ Hreg))
    as Hrange.
  unfold percentage_in_range in Hrange. cbv zeta in Hrange.
  fold target current in Hrange.
  destruct Hrange as [Hlo Hhi].
  pose proof (proj1 (next_percentage_never_decreases target current)) as Hup.
  destruct (next_percentage_bounds target current Hhi) as [Hnext Hfix].
  assert (Hvalid : forall p, 0 <= p <= 100 -> valid_split (canary_split p)).
  { intros p Hp.
    assert (Hsplit : canary_split p = [("canary", p); ("baseline", 100 - p)])
      by reflexivity.
    rewrite Hsplit. unfold valid_split, PyDict.values, sumZ.
    cbn [map snd fold_right]. split; [|lia].
    constructor; [lia | constructor; [lia | constructor]]. }
  split; [split; assumption|]. split; [|split].
  - exists (next_percentage target current).
    split; [exact (calculate_next_registered _ _ _ _ Hreg)|].
    split; [split; assumption|]. split; [exact Hfix|].
    intros Htarget. apply Hvalid. lia.
  - lia.
  - intros Htarget. split; [lia|]. apply Hvalid. lia.
Qed.

(** The theorem on the example release after its first cycle: the release
    is at 10 of a target of 50, and the next step is 25. *)
Lemma canary_percentage_stays_in_range_witness :
  let st := monitor_turns "canary-m-v2-1000" 0 example_world [1060%N] example_started in
  exists next,
    _calculate_next_traffic_percentage "canary-m-v2-1000" st = inr next
    /\ 10 <= next <= 50
    /\ valid_split (canary_split next).
Proof.
  cbv zeta.
  assert (Hreach : canary_reachable
            (monitor_turns "canary-m-v2-1000" 0 example_world [1060%N]
               example_started)).
  { cbn [monitor_turns]. apply creach_turn.
    unfold example_started. apply creach_start, creach_init. }
  assert (Hreg : exists info,
            registered
              (monitor_turns "canary-m-v2-1000" 0 example_world [1060%N]
                 example_started) "canary-m-v2-1000" = inr (0%nat, info)
            /\ CanaryConfiguration.canary_traffic_percentage (CanaryInfo.config info)
               = 50
            /\ CanaryInfo.current_traffic_percentage info = 10).
  { eexists. split; [vm_compute; reflexivity|]. split; reflexivity. }
  destruct Hreg as [info [Hreg [Htarget Hcurrent]]].
  destruct (canary_percentage_stays_in_range _ _ _ _ Hreach Hreg)
    as [_ [[next [Hcalc [Hbounds [_ Hvalid]]]] _]].
  rewrite Htarget, Hcurrent in Hbounds. rewrite Htarget in Hvalid.
  exists next. split; [exact Hcalc|]. split; [|apply Hvalid; lia].
  change (Z.max 50 50) with 50 in Hbounds. exact Hbounds.
Defined.

(** What the updates of a tracking object other than the recording of an
    evaluation keep of it: its configuration, its start time and its
    evaluations. *)
Definition same_history (info info' : CanaryInfo.t) : Prop :=
  CanaryInfo.config info' = CanaryInfo.config info
  /\ CanaryInfo.start_time info' = CanaryInfo.start_time info
  /\ CanaryInfo.evaluations info' = CanaryInfo.evaluations info.

Definition objects_kept (st st' : CanaryReleaseManager) : Prop :=
  forall j info,
    nth_error (canary_objects st) j = Some info ->
    exists info',
      nth_error (canary_objects st') j = Some info' /\ same_history info info'.

(** The finalized records a step of the release [canary_id] keeps: those
    of the other ids as they are, and one for [canary_id] if there was
    one. *)
Definition results_kept (canary_id : string) (st st' : CanaryReleaseManager)
  : Prop :=
  (forall other, other <> canary_id ->
     PyDict.get (canary_results st') other = PyDict.get (canary_results st) other)
  /\ (PyDict.mem (canary_results st) canary_id = true ->
      PyDict.mem (canary_results st') canary_id = true).

Lemma same_history_refl info : same_history info info.
Proof. repeat split. Qed.

Lemma objects_kept_refl st : objects_kept st st.
Proof. intros j info H. exists info. split; [exact H | apply same_history_refl]. Qed.

Lemma objects_kept_store (objects : list CanaryInfo.t) l info0 info1 :
  nth_error objects l = Some info0 ->
  same_history info0 info1 ->
  forall j info,
    nth_error objects j = Some info ->
    exists info',
      nth_error (store_set objects l info1) j = Some info'
      /\ same_history info info'.
Proof.
  intros Hobj Hsame j info H. destruct (Nat.eq_dec l j) as [<-|Hne].
  - rewrite nth_error_store_set_same by (apply nth_error_Some; congruence).
    exists info1. split; [reflexivity|]. congruence.
  - rewrite nth_error_store_set_other by exact Hne.
    exists info. split; [exact H | apply same_history_refl].
Qed.

Lemma results_kept_refl canary_id st : results_kept canary_id st st.
Proof. split; auto. Qed.

Lemma update_canary_traffic_keeps canary_id p st st' :
  _update_canary_traffic canary_id p st = inr st' ->
  objects_kept st st' /\ results_kept canary_id st st'.
Proof.
  unfold _update_canary_traffic.
  destruct (registered st canary_id) as [e|[l info]] eqn:Hreg; [discriminate|].
  intros [= <-]. split; [|split; cbn; auto].
  intros j y H. cbn.
  apply (objects_kept_store _ l info _ (registered_object _ _ _ _ Hreg));
    [unfold same_history; cbn; auto | exact H].
Qed.

Lemma complete_keeps canary_id now st st' :
  _complete_canary_release canary_id now st = inr st' ->
  objects_kept st st' /\ results_kept canary_id st st'.
Proof.
  unfold _complete_canary_release.
  destruct (registered st canary_id) as [e|[l info]] eqn:Hreg; [discriminate|].
  intros [= <-]. split.
  - intros j y H. cbn.
    apply (objects_kept_store _ l info _ (registered_object _ _ _ _ Hreg));
      [unfold same_history; cbn; auto | exact H].
  - split; cbn.
    + intros other Hne. now apply get_set_other.
    + intros _. rewrite mem_set, String.eqb_refl. reflexivity.
Qed.

Lemma abort_keeps canary_id reason now st st' :
  _abort_canary_release canary_id reason now st = inr st' ->
  objects_kept st st' /\ results_kept canary_id st st'.
Proof.
  unfold _abort_canary_release.
  destruct (registered st canary_id) as [e|[l info]] eqn:Hreg; [discriminate|].
  intros [= <-]. split.
  - intros j y H. cbn.
    apply (objects_kept_store _ l info _ (registered_object _ _ _ _ Hreg));
      [unfold same_history; cbn; auto | exact H].
  - split; cbn.
    + intros other Hne. now apply get_set_other.
    + intros _. rewrite mem_set, String.eqb_refl. reflexivity.
Qed.

(** A turn of the loop either records no evaluation, or records the one it
    computed in the object the loop holds and then keeps every object. *)
Lemma monitor_iteration_keeps canary_id l now env st :
  let st' := snd (monitor_iteration canary_id l now env st) in
  results_kept canary_id st st'
  /\ (objects_kept st st'
      \/ exists captured ev,
           nth_error (canary_objects st) l = Some captured
           /\ _evaluate_canary_performance canary_id now env st = inr ev
           /\ objects_kept
                (set_object l (CanaryInfo.with_evaluation ev captured) st) st').
Proof.
  cbv zeta. unfold monitor_iteration.
  destruct (nth_error (canary_objects st) l) as [captured|] eqn:Hobj;
    [|split; [apply results_kept_refl | left; apply objects_kept_refl]].
  destruct (negb (canary_status_eqb (CanaryInfo.status captured) RUNNING));
    [split; [apply results_kept_refl | left; apply objects_kept_refl]|].
  destruct (_ <=? _).
  - destruct (_complete_canary_release canary_id now st) eqn:E;
      [split; [apply results_kept_refl | left; apply objects_kept_refl]|].
    destruct (complete_keeps _ _ _ _ E) as [Hobjs Hres].
    split; [exact Hres | left; exact Hobjs].
  - destruct (_evaluate_canary_performance canary_id now env st) as [e|ev] eqn:Heval;
      [split; [apply results_kept_refl | left; apply objects_kept_refl]|].
    set (st1 := set_object l (CanaryInfo.with_evaluation ev captured) st).
    assert (Hres1 : results_kept canary_id st st1) by (split; cbn; auto).
    destruct (Evaluation.decision ev).
    + destruct (_calculate_next_traffic_percentage _ _) as [e|p];
        [split; [exact Hres1|]; right; exists captured, ev;
         repeat split; apply objects_kept_refl|].
      destruct (_update_canary_traffic _ _ _) eqn:E;
        [split; [exact Hres1|]; right; exists captured, ev;
         repeat split; apply objects_kept_refl|].
      destruct (update_canary_traffic_keeps _ _ _ _ E) as [Hobjs Hres].
      split; [exact Hres|]. right. exists captured, ev.
      split; [reflexivity|]. split; [reflexivity | exact Hobjs].
    + destruct (_abort_canary_release _ _ _ _) eqn:E;
        [split; [exact Hres1|]; right; exists captured, ev;
         repeat split; apply objects_kept_refl|].
      destruct (abort_keeps _ _ _ _ _ E) as [Hobjs Hres].
      split; [exact Hres|]. right. exists captured, ev.
      split; [reflexivity|]. split; [reflexivity | exact Hobjs].
    + split; [exact Hres1|]. right. exists captured, ev.
      split; [reflexivity|]. split; [reflexivity | apply objects_kept_refl].
Qed.

(** X17: what a turn of the monitoring loop never loses.  Whatever the
    turn does (nothing, a completion, an evaluation followed by an abort, a
    traffic step or a hold, or a crash), every tracking object is still in
    place with its configuration and its start time; its evaluations are
    as they were, except that the object the loop holds may have got the
    evaluation of this turn appended: no evaluation is ever dropped; no id
    is registered or unregistered; the finalized records of the other
    releases are untouched and a record of this release is not removed. *)
Theorem monitor_turn_keeps_history :
  forall st canary_id l now env j info,
    nth_error (canary_objects st) j = Some info ->
    let st' := snd (monitor_iteration canary_id l now env st) in
    (exists info',
       nth_error (canary_objects st') j = Some info'
       /\ CanaryInfo.config info' = CanaryInfo.config info
       /\ CanaryInfo.start_time info' = CanaryInfo.start_time info
       /\ (CanaryInfo.evaluations info' = CanaryInfo.evaluations info
           \/ j = l
              /\ exists ev,
                   _evaluate_canary_performance canary_id now env st = inr ev
                   /\ CanaryInfo.evaluations info'
                      = CanaryInfo.evaluations info ++ [ev]))
    /\ active_canaries st' = active_canaries st
    /\ (forall other, other <> canary_id ->
          PyDict.get (canary_results st') other
          = PyDict.get (canary_results st) other)
    /\ (PyDict.mem (canary_results st) canary_id = true ->
        PyDict.mem (canary_results st') canary_id = true).
Proof.
  intros st canary_id l now env j info Hj st'.
  destruct (monitor_iteration_keeps canary_id l now env st) as [[Hothers Hown] Hobjs].
  fold st' in Hothers, Hown, Hobjs.
  split; [|split; [|split]].
  - destruct Hobjs as [Hkept|[captured [ev [Hobj [Heval Hkept]]]]].
    + destruct (Hkept _ _ Hj) as [info' [Hj' [A [B C]]]].
      exists info'. split; [exact Hj'|]. split; [exact A|]. split; [exact B|].
      now left.
    + destruct (Nat.eq_dec l j) as [<-|Hne].
      * assert (info = captured) by congruence. subst info.
        assert (H1 : nth_error
                  (canary_objects
                     (set_object l (CanaryInfo.with_evaluation ev captured) st)) l
                = Some (CanaryInfo.with_evaluation ev captured)).
        { cbn. apply nth_error_store_set_same. apply nth_error_Some. congruence. }
        destruct (Hkept _ _ H1) as [info' [Hj' [A [B C]]]].
        exists info'. split; [exact Hj'|]. split; [exact A|]. split; [exact B|].
        right. split; [reflexivity|]. exists ev. split; [exact Heval | exact C].
      * assert (H1 : nth_error
                  (canary_objects
                     (set_object l (CanaryInfo.with_evaluation ev captured) st)) j
                = Some info).
        { cbn. now rewrite nth_error_store_set_other. }
        destruct (Hkept _ _ H1) as [info' [Hj' [A [B C]]]].
        exists info'. split; [exact Hj'|]. split; [exact A|]. split; [exact B|].
        now left.
  - exact (proj1 (monitor_iteration_same_registry canary_id l now env st)).
  - exact Hothers.
  - exact Hown.
Qed.

(** The theorem on the first cycle of the example release: its tracking
    object keeps the configuration and the start time. *)
Lemma monitor_turn_keeps_history_witness :
  let st' :=
    snd (monitor_iteration "canary-m-v2-1000" 0 1060 example_world example_started) in
  (exists info',
     nth_error (canary_objects st') 0 = Some info'
     /\ CanaryInfo.config info' = example_config
     /\ CanaryInfo.start_time info' = 1000%N)
  /\ active_canaries st' = active_canaries example_started.
Proof.
  cbv zeta.
  destruct (monitor_turn_keeps_history example_started "canary-m-v2-1000" 0%nat
              1060%N example_world 0%nat
              (CanaryInfo.mk example_config 1000 RUNNING [] 5 None None None))
    as [[info' [Hobj [Hconfig [Hstart _]]]] [Hactive _]].
  - reflexivity.
  - split; [|exact Hactive].
    exists info'. split; [exact Hobj|]. split; [exact Hconfig | exact Hstart].
Defined.

(** ** BlueGreenDeploymentManager: the sample's monitoring *)

Lemma shift_loop_healthy env model_name dep steps :
  (forall step,
     MonitoringResult.healthy (_monitor_traffic_shift env model_name dep step)
     = true) ->
  forall r, fst (shift_loop env model_name dep steps r) = ShiftSucceeded.
Proof.
  intros Hhealthy. induction steps as [|step steps IH]; intros r; [reflexivity|].
  cbn [shift_loop]. rewrite Hhealthy. cbn [negb]. apply IH.
Qed.

Lemma gradual_shift_result env model_name dep st :
  fst (_gradual_traffic_shift env model_name dep st)
  = fst (shift_loop env model_name dep traffic_steps (traffic_router st)).
Proof. unfold _gradual_traffic_shift. now destruct (shift_loop _ _ _ _ _). Qed.

(** X18: with the readings that [_monitor_traffic_shift] assigns in the
    sample (an error rate of 0.02 and a mean response time of 1200 ms at
    every step), the monitoring result is healthy at every step, with no
    alert; [_gradual_traffic_shift] always succeeds; and
    [deploy_new_version] never returns the traffic-shift failure: the
    branch that marks the new deployment [FAILED] and calls the rollback is
    not reached. *)
Theorem sample_readings_never_fail_the_shift :
  forall env,
    (forall step, live_error_rate env step = 0.02%float) ->
    (forall step, live_avg_response_time env step = 1200) ->
    (forall model_name deployment step,
       _monitor_traffic_shift env model_name deployment step
       = MonitoringResult.mk true 0.02 1200 step [])
    /\ (forall model_name deployment st,
          fst (_gradual_traffic_shift env model_name deployment st)
          = ShiftSucceeded)
    /\ (forall model_name model_version model_config now st details,
          fst (deploy_new_version model_name model_version model_config now env st)
          <> TrafficShiftFailed details).
Proof.
  intros env Herror Hlatency.
  assert (Hmonitor : forall model_name deployment step,
            _monitor_traffic_shift env model_name deployment step
            = MonitoringResult.mk true 0.02 1200 step []).
  { intros model_name deployment step. unfold _monitor_traffic_shift.
    cbv zeta. rewrite Herror, Hlatency. reflexivity. }
  assert (Hshift : forall model_name deployment st,
            fst (_gradual_traffic_shift env model_name deployment st)
            = ShiftSucceeded).
  { intros model_name deployment st. rewrite gradual_shift_result.
    apply shift_loop_healthy. intros step. now rewrite Hmonitor. }
  split; [exact Hmonitor|]. split; [exact Hshift|].
  intros model_name model_version model_config now st details.
  rewrite deploy_cases. cbv zeta.
  destruct (provisioning env); [discriminate|].
  destruct (negb _); [discriminate|].
  rewrite Hshift. discriminate.
Qed.

(** The theorem on the sample's stand-ins: the shift of a first deployment
    succeeds. *)
Lemma sample_readings_never_fail_the_shift_witness :
  fst (_gradual_traffic_shift healthy_world "m"
         (provisioned "m" "v1" GREEN 1000) (BlueGreen_init TrafficRouter_init))
  = ShiftSucceeded.
Proof.
  destruct (sample_readings_never_fail_the_shift healthy_world)
    as [_ [Hshift _]].
  - intros step. reflexivity.
  - intros step. reflexivity.
  - apply Hshift.
Defined.
